(** * Risk-analysis and usage-governance engine of the Nthcreation API

    A shallow embedding of
    - [apps/api/src/index.ts]: the rule evaluator [runRules], the severity
      sort, the AI ingestion [runAIAnalysis] and the hybrid merge
      [runHybridAnalysis]; the handlers of the routes of flows and the
      flows that [processUrlAnalysis] and [processFileAnalysis] make of a
      page and of a file;
    - [apps/api/src/middleware/security.ts]: the client identifier
      [getClientId], the fixed-window limiters [rateLimiter],
      [aiRateLimiter], their cleanup timer and the daily counter [trackCost];
    - [apps/api/src/middleware/analytics.ts]: [checkAndResetDaily],
      [logRequest], [logResponse] and the reports [getAnalytics],
      [getTopEndpoints], [getRecentErrors],
    followed by the properties proved of them.

    Conventions.
    - JavaScript numbers that hold counters, millisecond clocks and durations
      are integers and are modelled by [Z]; the decimal confidence literals
      are modelled by the rationals they denote, and the one division of the
      code, the running average, is exact.
    - Strings are sequences of 8-bit characters; [toLowerCase] folds the
      ASCII letters only.
    - A [Map] is a [gmap], a [Set] a [gset]; an object that is shared and
      mutated lives in a store and is held by reference.
    - The clock is an input: a handler that reads [Date.now()] or
      [new Date()] takes the reading as its argument [now]. *)

From stdpp Require Import gmap strings list fin_maps sorting pretty.
From Stdlib Require Import Ascii QArith Qminmax Qround.

Local Open Scope Z_scope.

(** ** Strings: the fragment of the JavaScript string API the code uses *)

Module Str.

Definition lowerAscii (c : ascii) : ascii :=
  let n := N_of_ascii c in
  if ((65 <=? n) && (n <=? 90))%N then ascii_of_N (n + 32) else c.

(** [s.toLowerCase()] *)
Fixpoint toLowerCase (s : string) : string :=
  match s with
  | EmptyString => EmptyString
  | String c s' => String (lowerAscii c) (toLowerCase s')
  end.

(** [s.includes(sub)]: [sub] occurs in [s] at some offset. *)
Fixpoint includes (s sub : string) : bool :=
  String.prefix sub s ||
  match s with
  | EmptyString => false
  | String _ s' => includes s' sub
  end.

End Str.

(** ** index.ts: types *)

Inductive Severity := HIGH | MEDIUM | LOW.
Inductive Category := TRUST | CONTROL | TRANSPARENCY | RECOVERY | MEMORY.
Inductive FlowSource := manual | url | upload.

#[global] Instance Severity_eq_dec : EqDecision Severity.
Proof. solve_decision. Defined.
#[global] Instance Category_eq_dec : EqDecision Category.
Proof. solve_decision. Defined.

Definition Category_code (c : Category) : nat :=
  match c with
  | TRUST => 0 | CONTROL => 1 | TRANSPARENCY => 2 | RECOVERY => 3 | MEMORY => 4
  end%nat.

Definition Category_decode (n : nat) : Category :=
  match n with
  | 0 => TRUST | 1 => CONTROL | 2 => TRANSPARENCY | 3 => RECOVERY | _ => MEMORY
  end%nat.

#[global] Instance Category_countable : Countable Category.
Proof.
  apply (inj_countable' Category_code Category_decode).
  by intros [].
Defined.

(** [crypto.randomUUID()] is modelled by a counter: the n-th identifier drawn
    is [n].  Distinct draws give distinct identifiers, which is all the code
    relies on. *)
Definition UUID := nat.
Bind Scope nat_scope with UUID.

Record Step := { step_id : string; text : string }.

Record Flow := {
  flow_id : string;
  goal : string;
  steps : list Step;
  createdAt : string;
  updatedAt : string;
  source : option FlowSource;
  sourceUrl : option string
}.

Record Finding := {
  finding_id : UUID;
  severity : Severity;
  category : Category;
  title : string;
  description : string;
  evidence : list string;
  recommendation : string;
  patternId : option string;
  confidence : Q;
  principleId : option string
}.

(** ** A state-and-exception monad

    The state is the UUID counter; [Throw] is a JavaScript exception (or a
    rejected promise under [await]). *)

Inductive Result (A : Type) :=
| Ok (a : A)
| Throw (message : string).
Arguments Ok {A} a.
Arguments Throw {A} message.

Definition M (A : Type) : Type := nat -> Result A * nat.

#[global] Instance M_ret : MRet M := fun A a n => (Ok a, n).

#[global] Instance M_bind : MBind M := fun A B k m n =>
  match m n with
  | (Ok a, n') => k a n'
  | (Throw e, n') => (Throw e, n')
  end.

Definition throw {A} (e : string) : M A := fun n => (Throw e, n).

(** [try { body } catch (error) { handler }] *)
Definition try_catch {A} (body : M A) (handler : string -> M A) : M A :=
  fun n =>
    match body n with
    | (Ok a, n') => (Ok a, n')
    | (Throw e, n') => handler e n'
    end.

Definition randomUUID : M UUID := fun n => (Ok n, S n).

(** ** index.ts: utility functions *)

Definition includesAny (text : string) (terms : list string) : bool :=
  let normalized := Str.toLowerCase text in
  existsb (fun term => Str.includes normalized term) terms.

Definition calculateOverallRisk (findings : list Finding) : Severity :=
  if existsb (fun f => bool_decide (severity f = HIGH)) findings then HIGH
  else if existsb (fun f => bool_decide (severity f = MEDIUM)) findings then MEDIUM
  else LOW.

Definition extractHighlights (findings : list Finding) : list string :=
  map title (take 3 findings).

Definition order (s : Severity) : Z :=
  match s with HIGH => 0 | MEDIUM => 1 | LOW => 2 end.

(** [Array.prototype.sort(compareFn)] is a stable sort (ECMAScript 2019): for
    a comparator that is a consistent preorder every stable sort returns the
    same array.  It is modelled by a stable insertion sort: an element is
    placed in front of the first element it does not compare greater than. *)
Section StableSort.
Context {A : Type} (compareFn : A -> A -> Z).

Fixpoint sort_insert (x : A) (l : list A) : list A :=
  match l with
  | [] => [x]
  | y :: l' => if compareFn x y <=? 0 then x :: l else y :: sort_insert x l'
  end.

Definition array_sort (l : list A) : list A := foldr sort_insert [] l.
End StableSort.

Definition sortBySeverity (findings : list Finding) : list Finding :=
  array_sort (fun a b => order (severity a) - order (severity b)) findings.

(** The comparator of [sortBySeverity], named. *)
Definition bySeverity (a b : Finding) : Z := order (severity a) - order (severity b).

(** The findings of one severity, in their order in [l]. *)
Definition tier (s : Severity) (l : list Finding) : list Finding :=
  filter (fun f => severity f = s) l.

Definition severity_le (a b : Finding) : Prop :=
  order (severity a) <= order (severity b).

(** ** index.ts: the rule evaluator *)

Definition failureTerms : list string :=
  [ "error"; "fail"; "retry"; "fallback"; "recover"; "undo" ].

Definition approvalTerms : list string :=
  [ "approve"; "confirm"; "review"; "check"; "verify"; "preview"; "user approves" ].

Definition autoActTerms : list string :=
  [ "automatically"; "auto"; "ai executes"; "ai performs"; "ai does"; "system sends"; "publish" ].

Definition explainTerms : list string :=
  [ "why"; "because"; "reason"; "explains"; "explanation"; "shows rationale" ].

Definition progressTerms : list string :=
  [ "loading"; "progress"; "processing"; "working"; "status"; "indicator" ].

Definition memoryTerms : list string :=
  [ "remember"; "recall"; "previous"; "history"; "context"; "saved" ].

Definition undoTerms : list string :=
  [ "undo"; "edit"; "modify"; "change"; "revert"; "cancel" ].

Definition trustTerms : list string :=
  [ "verified"; "secure"; "trust"; "credential"; "badge"; "certification" ].

Definition confidenceTerms : list string :=
  [ "confidence"; "certainty"; "sure"; "might"; "may"; "uncertain"; "probability" ].

Definition ruleNoErrorHandling (uuid : UUID) : Finding :=
  {| finding_id := uuid;
     severity := HIGH;
     category := RECOVERY;
     title := "No error handling or recovery path defined";
     description :=
       "Your flow doesn't plan for failure. When AI makes mistakes or systems break, users get stuck with no way forward. This creates anxiety, support tickets, and abandoned flows. Every AI feature needs graceful degradation.";
     evidence :=
       [ "No error states mentioned";
         "No retry or fallback options";
         "No recovery path if AI fails" ];
     recommendation :=
       "Add error handling at each AI step:

1. Show clear error messages
2. Offer retry with 'Try again' button
3. Provide manual alternative
4. Preserve user input during failures
5. Explain what went wrong and why";
     patternId := None;
     confidence := 0.9;
     principleId := Some "principle_graceful_failure" |}.

Definition ruleNoApproval (uuid : UUID) : Finding :=
  {| finding_id := uuid;
     severity := HIGH;
     category := CONTROL;
     title := "AI takes actions without user approval";
     description :=
       "Your flow lets AI make decisions and take actions without asking permission. This feels like loss of control and breaks trust.";
     evidence :=
       [ "AI executes actions automatically";
         "No approval or confirmation step";
         "User cannot review before action" ];
     recommendation :=
       "Add approval gates before AI actions:

1. Preview what will happen
2. Show 'Approve' and 'Cancel' buttons
3. Allow editing before execution
4. Make approval explicit, not assumed";
     patternId := None;
     confidence := 0.95;
     principleId := Some "principle_human_in_loop" |}.

Definition ruleNoExplanation (uuid : UUID) : Finding :=
  {| finding_id := uuid;
     severity := MEDIUM;
     category := TRANSPARENCY;
     title := "AI decisions lack transparency";
     description :=
       "Your flow doesn't explain WHY the AI makes decisions. Users can't trust what they don't understand.";
     evidence :=
       [ "No explanations of AI reasoning";
         "Missing 'what happens next' information";
         "Users left guessing why actions were taken" ];
     recommendation :=
       "Add transparency:

1. Explain WHY: 'I suggested this because...'
2. Show confidence: '85% confident'
3. Admit limitations: 'I'm not sure about X'
4. Show reasoning factors";
     patternId := None;
     confidence := 0.85;
     principleId := Some "principle_explainability" |}.

Definition ruleNoProgress (uuid : UUID) : Finding :=
  {| finding_id := uuid;
     severity := MEDIUM;
     category := TRANSPARENCY;
     title := "Missing real-time feedback on system status";
     description :=
       "Multi-step process without showing users what's happening. Silence creates anxiety.";
     evidence :=
       [ "No loading or progress indicators";
         "No intermediate feedback";
         "Users don't know if system is working" ];
     recommendation :=
       "Add progressive feedback:

1. Show spinners or progress bars
2. Status messages: 'Analyzing data...'
3. Time estimates: 'Usually takes 30 seconds'
4. Step indicators: 'Step 2 of 5'";
     patternId := None;
     confidence := 0.8;
     principleId := Some "principle_feedback_visibility" |}.

Definition ruleNoMemory (uuid : UUID) : Finding :=
  {| finding_id := uuid;
     severity := MEDIUM;
     category := MEMORY;
     title := "System doesn't remember user context";
     description :=
       "Making users repeat information they've already provided signals the system isn't listening.";
     evidence :=
       [ "No mention of remembering context";
         "No reference to previous interactions";
         "Likely repeats questions" ];
     recommendation :=
       "Add contextual memory:

1. Remember user preferences
2. Reference previous inputs
3. Auto-fill based on history
4. Show 'We remember from last time'";
     patternId := None;
     confidence := 0.75;
     principleId := Some "principle_context_awareness" |}.

Definition ruleNoUndo (uuid : UUID) : Finding :=
  {| finding_id := uuid;
     severity := MEDIUM;
     category := CONTROL;
     title := "No way to undo or edit AI actions";
     description :=
       "Irreversible AI actions create fear. Users need escape hatches.";
     evidence :=
       [ "No undo or edit capability";
         "AI actions appear permanent";
         "No way to fix AI mistakes" ];
     recommendation :=
       "Add reversibility:

1. Undo button after AI actions
2. Edit capability before finalizing
3. Version history
4. 'Undo' window (e.g., 30 seconds)";
     patternId := None;
     confidence := 0.85;
     principleId := Some "principle_undo_redo" |}.

Definition ruleNoTrustSignals (uuid : UUID) : Finding :=
  {| finding_id := uuid;
     severity := LOW;
     category := TRUST;
     title := "Missing trust and credibility signals";
     description :=
       "No signals to help users trust AI decisions. Trust must be earned.";
     evidence :=
       [ "No verification or credibility indicators";
         "No trust-building elements";
         "Missing security or authority signals" ];
     recommendation :=
       "Add trust signals:

1. Verification badges
2. Data source transparency
3. Security indicators
4. Expert endorsements
5. Success metrics";
     patternId := None;
     confidence := 0.7;
     principleId := Some "principle_consent_clarity" |}.

Definition ruleNoConfidence (uuid : UUID) : Finding :=
  {| finding_id := uuid;
     severity := LOW;
     category := TRUST;
     title := "AI doesn't communicate confidence levels";
     description :=
       "All recommendations presented with same certainty, whether 95% sure or guessing.";
     evidence :=
       [ "No confidence scores shown";
         "Missing uncertainty indicators";
         "Doesn't flag low-confidence outputs" ];
     recommendation :=
       "Add trust calibration:

1. Confidence scores: '92% confident'
2. Uncertainty flags: 'Not sure about this'
3. Verification prompts
4. Source transparency";
     patternId := None;
     confidence := 0.8;
     principleId := Some "principle_trust_calibration" |}.

(** [if (cond) { findings.push({ id: crypto.randomUUID(), ... }) }] *)
Definition push_if (cond : bool) (mk : UUID -> Finding) (findings : list Finding)
  : M (list Finding) :=
  if cond then uuid ← randomUUID; mret (findings ++ [mk uuid])
  else mret findings.

Definition some_step (flow : Flow) (terms : list string) : bool :=
  existsb (fun s => includesAny (text s) terms) (steps flow).

Definition runRules (flow : Flow) : M (list Finding) :=
  let findings := [] in
  (* Rule 1: Missing error handling *)
  let hasFailure := some_step flow failureTerms in
  findings ← push_if (negb hasFailure) ruleNoErrorHandling findings;
  (* Rule 2: Missing approval/control *)
  let hasApproval := some_step flow approvalTerms in
  let hasAutoAct := some_step flow autoActTerms in
  findings ← push_if (negb hasApproval && hasAutoAct) ruleNoApproval findings;
  (* Rule 3: Missing explanations *)
  let hasExplain := some_step flow explainTerms in
  findings ← push_if (negb hasExplain) ruleNoExplanation findings;
  (* Rule 4: Missing progress feedback *)
  let hasProgress := some_step flow progressTerms in
  findings ← push_if (negb hasProgress && (3 <? length (steps flow))%nat)
                ruleNoProgress findings;
  (* Rule 5: Missing memory/context *)
  let hasMemory := some_step flow memoryTerms in
  findings ← push_if (negb hasMemory && (2 <? length (steps flow))%nat)
                ruleNoMemory findings;
  (* Rule 6: Missing undo/edit *)
  let hasUndo := some_step flow undoTerms in
  findings ← push_if (negb hasUndo && hasAutoAct) ruleNoUndo findings;
  (* Rule 7: Missing trust signals *)
  let hasTrust := some_step flow trustTerms in
  findings ← push_if (negb hasTrust && hasAutoAct) ruleNoTrustSignals findings;
  (* Rule 8: Missing confidence communication *)
  let hasConfidence := some_step flow confidenceTerms in
  findings ← push_if (negb hasConfidence && hasAutoAct) ruleNoConfidence findings;
  mret findings.

(** What a check documents about its finding. *)
Definition signature (f : Finding) : Severity * Category * Q :=
  (severity f, category f, confidence f).

(** The keyword sets the eight checks test for absence, one per check; the
    autonomous-action set [autoActTerms], which checks 2, 6, 7 and 8 test for
    presence, is the ninth set of the evaluator. *)
Definition absenceSets : list (list string) :=
  [ failureTerms; approvalTerms; explainTerms; progressTerms;
    memoryTerms; undoTerms; trustTerms; confidenceTerms ].

(** No step of the flow contains a term of [terms]. *)
Definition unmatched (flow : Flow) (terms : list string) : Prop :=
  some_step flow terms = false.

(** ** index.ts: AI ingestion

    The call to the external model, the extraction of the message content,
    [cleanJSONResponse] and [JSON.parse] are one black box: what matters to
    the engine is whether the awaited call rejects, whether the text fails to
    parse to an object with a usable [findings] array, or which candidates it
    carries.  A candidate has the optional fields of the requested schema; a
    present field has the type the [Finding] interface gives it.  An element
    that is [null] has no fields to read: reading one throws. *)

Record RawFinding := {
  raw_severity : option Severity;
  raw_category : option Category;
  raw_title : option string;
  raw_description : option string;
  raw_evidence : option (list string);
  raw_recommendation : option string;
  raw_confidence : option Q;
  raw_principleId : option string
}.

Inductive AIOutcome :=
| Rejects (message : string)       (* the awaited request rejects: timeout, network or API error *)
| Malformed (message : string)     (* JSON.parse throws, or the parsed value has no usable findings array *)
| Parsed (findings : option (list (option RawFinding))).  (* parsed.findings *)

(** [o || d] on an enum-valued field: only [undefined]/[null] are falsy. *)
Definition or_default {A} (o : option A) (d : A) : A :=
  match o with Some a => a | None => d end.

(** [s || d] on a string: the empty string is falsy too. *)
Definition or_string (o : option string) (d : string) : string :=
  match o with
  | Some s => if bool_decide (s = "") then d else s
  | None => d
  end.

(** [x || d] on a number: zero is falsy too. *)
Definition or_number (o : option Q) (d : Q) : Q :=
  match o with
  | Some x => if Qeq_bool x 0 then d else x
  | None => d
  end.

Definition Math_max (a b : Q) : Q := Qmax a b.
Definition Math_min (a b : Q) : Q := Qmin a b.

(** The callback of [(parsed.findings || []).map(...)]. *)
Definition normalizeFinding (f : option RawFinding) : M Finding :=
  match f with
  | None => throw "TypeError: Cannot read properties of null"
  | Some f =>
      uuid ← randomUUID;
      mret {| finding_id := uuid;
              severity := or_default (raw_severity f) MEDIUM;
              category := or_default (raw_category f) TRANSPARENCY;
              title := or_string (raw_title f) "AI-detected issue";
              description := or_string (raw_description f) "No description provided";
              evidence := or_default (raw_evidence f) [];
              recommendation :=
                or_string (raw_recommendation f) "Review and improve this aspect";
              patternId := None;
              confidence := Math_min (Math_max (or_number (raw_confidence f) 0.7) 0) 1;
              principleId := raw_principleId f |}
  end.

(** [array.map(callback)] for a callback that draws identifiers and may throw. *)
Fixpoint array_map {A B} (callback : A -> M B) (l : list A) : M (list B) :=
  match l with
  | [] => mret []
  | a :: l' => b ← callback a; bs ← array_map callback l'; mret (b :: bs)
  end.

Definition requestFindings (ai : AIOutcome) : M (option (list (option RawFinding))) :=
  match ai with
  | Rejects e => throw e
  | Malformed e => throw e
  | Parsed findings => mret findings
  end.

(** The AI source fails: the request rejects, the response is malformed, or
    reading a candidate throws. *)
Definition is_failure (ai : AIOutcome) : bool :=
  match ai with
  | Rejects _ => true
  | Malformed _ => true
  | Parsed None => false
  | Parsed (Some candidates) => existsb (fun c => bool_decide (c = None)) candidates
  end.

(** The identifiers of the ten entries of [UX_PRINCIPLES], in catalog order;
    the analysis result selects entries by identifier only. *)
Definition UX_PRINCIPLES : list string :=
  [ "principle_human_in_loop"; "principle_explainability";
    "principle_graceful_failure"; "principle_progressive_disclosure";
    "principle_undo_redo"; "principle_context_awareness";
    "principle_feedback_visibility"; "principle_error_prevention";
    "principle_trust_calibration"; "principle_consent_clarity" ].

(** [findings.map((f) => f.principleId).filter(Boolean)], deduplicated. *)
Definition principleIds (findings : list Finding) : list string :=
  remove_dups
    (omap (fun f => match principleId f with
                    | Some p => if bool_decide (p = "") then None else Some p
                    | None => None
                    end) findings).

Section Engine.
(** [AI_ENABLED = !!CONFIG.OPENAI_API_KEY], fixed at process start. *)
Variable AI_ENABLED : bool.

Definition runAIAnalysis (flow : Flow) (ai : AIOutcome) : M (list Finding) :=
  if negb AI_ENABLED then mret []
  else
    try_catch
      (findings ← requestFindings ai;
       array_map normalizeFinding (or_default findings []))
      (fun _ => mret []).

(** ** index.ts: the hybrid merge *)
Definition runHybridAnalysis (flow : Flow) (useAI : bool) (ai : AIOutcome)
  : M (list Finding) :=
  ruleFindings ← runRules flow;
  if negb useAI || negb AI_ENABLED then mret (sortBySeverity ruleFindings)
  else
    aiFindings ← runAIAnalysis flow ai;
    (* Deduplicate: AI findings override rule findings in same category *)
    let aiCategories : gset Category := list_to_set (map category aiFindings) in
    let filteredRuleFindings :=
      filter (fun rf => category rf ∉ aiCategories) ruleFindings in
    let combined := aiFindings ++ filteredRuleFindings in
    mret (sortBySeverity combined).

(** The analysis result sent by [performFlowAnalysis]. *)
Record Analysis := {
  analysisId : UUID;
  findings : list Finding;
  overallRisk : Severity;
  highlights : list string;
  principles : list string;
  aiEnhanced : bool
}.

Inductive Reply :=
| Json (body : Analysis)
| Status500 (error details : string).

Definition performFlowAnalysis (flow : Flow) (useAI : bool) (ai : AIOutcome)
  : nat -> Reply * nat :=
  fun n =>
    match runHybridAnalysis flow useAI ai n with
    | (Ok findings, n') =>
        let overallRisk := calculateOverallRisk findings in
        let highlights := extractHighlights findings in
        let principleIds := principleIds findings in
        let principles :=
          filter (fun p => p ∈ principleIds) UX_PRINCIPLES in
        (Json {| analysisId := n';
                 findings := findings;
                 overallRisk := overallRisk;
                 highlights := highlights;
                 principles := principles;
                 aiEnhanced := useAI && AI_ENABLED |}, S n')
    | (Throw e, n') => (Status500 "Failed to analyze flow" e, n')
    end.
End Engine.

(** ** middleware/security.ts: fixed-window limiters *)

Module Security.

Record RateLimitEntry := { count : Z; resetTime : Z }.

(** [CostEntry] is the same structural type. *)
Abbreviation CostEntry := RateLimitEntry.

Definition RATE_LIMIT_WINDOW : Z := 60 * 1000.
Definition MAX_REQUESTS_PER_MINUTE : Z := 10.
Definition MAX_AI_REQUESTS_PER_HOUR : Z := 20.
Definition AI_LIMIT_WINDOW : Z := 60 * 60 * 1000.
Definition DAILY_AI_LIMIT : Z := 100.
Definition DAILY_WINDOW : Z := 24 * 60 * 60 * 1000.

(** What the middleware does with the request: call [next()], or answer
    429, with a [Retry-After] value where the handler computes one. *)
Inductive Verdict :=
| Next
| Status429 (retryAfter : option Z).

(** [Math.ceil(x / d)] on integers. *)
Definition ceil_div (x d : Z) : Z := - ((- x) / d).

(** [!entry || entry.resetTime < now]: the guard of the "new window"
    branch of the three handlers, which the definitions below spell as a
    match on the looked-up entry. *)
Definition expired (entry : option RateLimitEntry) (now : Z) : bool :=
  match entry with
  | None => true
  | Some e => resetTime e <? now
  end.

Definition rateLimiter (maxRequests : Z) (clientId : string) (now : Z)
    (rateLimitStore : gmap string RateLimitEntry)
  : gmap string RateLimitEntry * Verdict :=
  let key := clientId +:+ ":general" in
  match rateLimitStore !! key with
  | Some entry =>
      if resetTime entry <? now then
        (* New window *)
        (<[key := {| count := 1; resetTime := now + RATE_LIMIT_WINDOW |}]>
           rateLimitStore, Next)
      else if count entry >=? maxRequests then
        let retryAfter := ceil_div (resetTime entry - now) 1000 in
        (rateLimitStore, Status429 (Some retryAfter))
      else
        (<[key := {| count := count entry + 1; resetTime := resetTime entry |}]>
           rateLimitStore, Next)
  | None =>
      (<[key := {| count := 1; resetTime := now + RATE_LIMIT_WINDOW |}]>
         rateLimitStore, Next)
  end.

Definition aiRateLimiter (clientId : string) (now : Z)
    (rateLimitStore : gmap string RateLimitEntry)
  : gmap string RateLimitEntry * Verdict :=
  let key := clientId +:+ ":ai" in
  match rateLimitStore !! key with
  | Some entry =>
      if resetTime entry <? now then
        (* New window *)
        (<[key := {| count := 1; resetTime := now + AI_LIMIT_WINDOW |}]>
           rateLimitStore, Next)
      else if count entry >=? MAX_AI_REQUESTS_PER_HOUR then
        let retryAfter := ceil_div (resetTime entry - now) 1000 in
        (rateLimitStore, Status429 (Some retryAfter))
      else
        (<[key := {| count := count entry + 1; resetTime := resetTime entry |}]>
           rateLimitStore, Next)
  | None =>
      (<[key := {| count := 1; resetTime := now + AI_LIMIT_WINDOW |}]>
         rateLimitStore, Next)
  end.

(** The five-minute timer: delete the entries whose window has passed. *)
Definition cleanup (now : Z) (rateLimitStore : gmap string RateLimitEntry)
  : gmap string RateLimitEntry :=
  filter (fun kv => ¬ (resetTime kv.2 < now)) rateLimitStore.

(** Console output of [trackCost], with the count it prints. *)
Inductive Console :=
| console_log (count : Z)      (* [COST] Daily AI usage *)
| console_warn (count : Z)     (* [COST WARNING] 80% of daily AI limit used *)
| console_error (count : Z).   (* [COST ALERT] Daily AI limit reached *)

Definition cost_key : string := "global:ai:daily".

(** [entry.count >= DAILY_AI_LIMIT * 0.8]; the product is the double 80. *)
Definition at_warning (count : Z) : bool := 10 * count >=? 8 * DAILY_AI_LIMIT.

Definition trackCost (now : Z) (costTracker : gmap string CostEntry)
  : gmap string CostEntry * Verdict * list Console :=
  match costTracker !! cost_key with
  | Some entry =>
      if resetTime entry <? now then
        (<[cost_key := {| count := 1; resetTime := now + DAILY_WINDOW |}]> costTracker,
         Next, [console_log 1])
      else
        let entry := {| count := count entry + 1; resetTime := resetTime entry |} in
        let costTracker := <[cost_key := entry]> costTracker in
        if count entry >=? DAILY_AI_LIMIT then
          (costTracker, Status429 None, [console_error (count entry)])
        else
          (costTracker, Next,
           (if at_warning (count entry) then [console_warn (count entry)] else [])
             ++ [console_log (count entry)])
  | None =>
      (<[cost_key := {| count := 1; resetTime := now + DAILY_WINDOW |}]> costTracker,
       Next, [console_log 1])
  end.

(** A sequence of AI requests reaching [trackCost] at the given times:
    the verdicts and console lines, in order. *)
Fixpoint trackCosts (times : list Z) (costTracker : gmap string CostEntry)
  : gmap string CostEntry * list (Verdict * list Console) :=
  match times with
  | [] => (costTracker, [])
  | now :: times' =>
      let '(costTracker, v, out) := trackCost now costTracker in
      let '(costTracker, vs) := trackCosts times' costTracker in
      (costTracker, (v, out) :: vs)
  end.

(** A sequence of requests of one client reaching [rateLimiter]. *)
Fixpoint rateLimiters (maxRequests : Z) (clientId : string) (times : list Z)
    (rateLimitStore : gmap string RateLimitEntry)
  : gmap string RateLimitEntry * list Verdict :=
  match times with
  | [] => (rateLimitStore, [])
  | now :: times' =>
      let '(rateLimitStore, v) := rateLimiter maxRequests clientId now rateLimitStore in
      let '(rateLimitStore, vs) := rateLimiters maxRequests clientId times' rateLimitStore in
      (rateLimitStore, v :: vs)
  end.

(** *** The fixed-window machine, in the words of the specification *)

Inductive Counter :=
| Absent
| Active (count resetAt : Z).

Inductive Decision :=
| Allow
| Deny (remainingSeconds : Z).

Definition counter_of (entry : option RateLimitEntry) : Counter :=
  match entry with
  | None => Absent
  | Some e => Active (count e) (resetTime e)
  end.

Definition decision_of (v : Verdict) : option Decision :=
  match v with
  | Next => Some Allow
  | Status429 (Some s) => Some (Deny s)
  | Status429 None => None
  end.

(** The transition rule as the specification words it: an entry whose
    [resetAt <= t] is replaced. *)
Definition spec_step (cap window t : Z) (s : Counter) : Counter * Decision :=
  match s with
  | Absent => (Active 1 (t + window), Allow)
  | Active c r =>
      if r <=? t then (Active 1 (t + window), Allow)
      else if c <? cap then (Active (c + 1) r, Allow)
      else (Active c r, Deny (ceil_div (r - t) 1000))
  end.

(** The transition rule with the boundary of the source: an entry is
    replaced when [resetAt < t], and is still live at [resetAt = t]. *)
Definition window_step (cap window t : Z) (s : Counter) : Counter * Decision :=
  match s with
  | Absent => (Active 1 (t + window), Allow)
  | Active c r =>
      if r <? t then (Active 1 (t + window), Allow)
      else if c <? cap then (Active (c + 1) r, Allow)
      else (Active c r, Deny (ceil_div (r - t) 1000))
  end.

(** One transition of a limiter handler, seen on its own key. *)
Definition seen (key : string)
    (r : gmap string RateLimitEntry * Verdict) : Counter * option Decision :=
  (counter_of (r.1 !! key), decision_of r.2).

Definition stepped (r : Counter * Decision) : Counter * option Decision :=
  (r.1, Some r.2).

End Security.

(** ** middleware/analytics.ts: request log and daily statistics *)

Module Analytics.

(** A JavaScript number as far as [avgResponseTime] needs it: the
    quotient of two integers, exact, or what a zero divisor gives. *)
Inductive Num :=
| Fin (q : Q)
| PosInfinity
| NegInfinity
| NaN.

(** [a / b] on integers. *)
Definition js_div (a b : Z) : Num :=
  if b =? 0 then
    if a =? 0 then NaN else if 0 <? a then PosInfinity else NegInfinity
  else Fin (inject_Z a / inject_Z b)%Q.

Definition Num_eq (x y : Num) : Prop :=
  match x, y with
  | Fin p, Fin q => (p == q)%Q
  | PosInfinity, PosInfinity => True
  | NegInfinity, NegInfinity => True
  | _, _ => False
  end.

Record RequestLog := {
  timestamp : string;
  ip : string;
  endpoint : string;
  method : string;
  useAI : bool;
  userAgent : option string;
  duration : option Z;
  status : option Z
}.

Record DailyStats := {
  date : string;
  totalRequests : Z;
  aiRequests : Z;
  uniqueIPs : gset string;
  endpoints : gmap string Z;
  errors : Z;
  avgResponseTime : Num
}.

Definition MAX_LOGS : nat := 1000.

(** What [logRequest] reads of the Express request; [clientIp] is the
    result of [getClientIp]. *)
Record Request := {
  path : string;
  req_method : string;
  user_agent : option string;
  clientIp : string
}.

(** The module state.  A [RequestLog] object is shared between the
    [requestLogs] array and the closure that later calls [logResponse] on
    it, so log objects live in a store and the array holds references. *)
Record State := {
  objects : gmap nat RequestLog;
  requestLogs : list nat;
  currentDayStats : DailyStats;
  historicalStats : list DailyStats;
  totalResponseTime : Z
}.

(** [iso.split("T")[0]]: the text before the first "T". *)
Fixpoint isoDate (iso : string) : string :=
  match iso with
  | EmptyString => EmptyString
  | String c s => if bool_decide (c = "T"%char) then EmptyString else String c (isoDate s)
  end.

Definition freshStats (today : string) : DailyStats :=
  {| date := today;
     totalRequests := 0;
     aiRequests := 0;
     uniqueIPs := ∅;
     endpoints := ∅;
     errors := 0;
     avgResponseTime := Fin 0 |}.

(** The state at module load, at clock reading [now]. *)
Definition initial (now : string) : State :=
  {| objects := ∅;
     requestLogs := [];
     currentDayStats := freshStats (isoDate now);
     historicalStats := [];
     totalResponseTime := 0 |}.

(** [array.shift()] *)
Definition shift {A} (l : list A) : list A := tail l.

(** [now] is [new Date().toISOString()]. *)
Definition checkAndResetDaily (now : string) (st : State) : State :=
  let today := isoDate now in
  if bool_decide (date (currentDayStats st) ≠ today) then
    (* Save yesterday's stats *)
    let historicalStats := historicalStats st ++ [currentDayStats st] in
    (* Keep only last 30 days *)
    let historicalStats :=
      if (30 <? length historicalStats)%nat then shift historicalStats
      else historicalStats in
    (* Reset for new day *)
    {| objects := objects st;
       requestLogs := requestLogs st;
       currentDayStats := freshStats today;
       historicalStats := historicalStats;
       totalResponseTime := 0 |}
  else st.

(** The reference of the next log object: one that is not in use. *)
Definition newRef (st : State) : nat := fresh (dom (objects st)).

(** [now] is the reading of the clock for the rollover check and for the
    timestamp of the log entry alike. *)
Definition logRequest (now : string) (req : Request) (useAI : bool) (st : State)
  : State * nat :=
  let st := checkAndResetDaily now st in
  let ip := clientIp req in
  let log := {| timestamp := now;
                ip := ip;
                endpoint := path req;
                method := req_method req;
                useAI := useAI;
                userAgent := user_agent req;
                duration := None;
                status := None |} in
  let ref := newRef st in
  (* Add to logs *)
  let requestLogs := requestLogs st ++ [ref] in
  let requestLogs :=
    if (MAX_LOGS <? length requestLogs)%nat then shift requestLogs (* Remove oldest *)
    else requestLogs in
  (* Update daily stats *)
  let cur := currentDayStats st in
  let endpointCount := default 0 (endpoints cur !! path req) in
  let cur :=
    {| date := date cur;
       totalRequests := totalRequests cur + 1;
       aiRequests := if useAI then aiRequests cur + 1 else aiRequests cur;
       uniqueIPs := {[ ip ]} ∪ uniqueIPs cur;
       endpoints := <[path req := endpointCount + 1]> (endpoints cur);
       errors := errors cur;
       avgResponseTime := avgResponseTime cur |} in
  ({| objects := <[ref := log]> (objects st);
      requestLogs := requestLogs;
      currentDayStats := cur;
      historicalStats := historicalStats st;
      totalResponseTime := totalResponseTime st |}, ref).

Definition logResponse (log : nat) (status duration : Z) (st : State) : State :=
  let objects :=
    alter (fun l => {| timestamp := timestamp l;
                       ip := ip l;
                       endpoint := endpoint l;
                       method := method l;
                       useAI := useAI l;
                       userAgent := userAgent l;
                       duration := Some duration;
                       status := Some status |}) log (objects st) in
  (* Update stats *)
  let cur := currentDayStats st in
  let errors := if status >=? 400 then errors cur + 1 else errors cur in
  let totalResponseTime := totalResponseTime st + duration in
  {| objects := objects;
     requestLogs := requestLogs st;
     currentDayStats :=
       {| date := date cur;
          totalRequests := totalRequests cur;
          aiRequests := aiRequests cur;
          uniqueIPs := uniqueIPs cur;
          endpoints := endpoints cur;
          errors := errors;
          avgResponseTime := js_div totalResponseTime (totalRequests cur) |};
     historicalStats := historicalStats st;
     totalResponseTime := totalResponseTime |}.

(** *** Runs of the module

    What drives the state: the hourly timer, a request entering the
    logging middleware, the [finish] event of a response, and the
    reporting query. *)
Inductive Event :=
| Timer (now : string)                                  (* setInterval(checkAndResetDaily) *)
| Arrival (now : string) (req : Request) (useAI : bool) (* logRequest(req, useAI) *)
| Completion (log : nat) (status duration : Z)          (* logResponse(log, status, duration) *)
| Report (now : string).                                (* getAnalytics() *)

Definition step (st : State) (e : Event) : State :=
  match e with
  | Timer now => checkAndResetDaily now st
  | Arrival now req useAI => (logRequest now req useAI st).1
  | Completion log status duration => logResponse log status duration st
  | Report now => checkAndResetDaily now st
  end.

Definition run (trace : list Event) (st : State) : State := foldl step st trace.

(** *** The day as the trace shows it

    Read off a trace alone: the current date, and since the last change of
    date the number of arrivals, the durations of the completed responses
    and the number of those with a status of 400 or more. *)
Record Day := {
  day : string;
  arrivals : Z;
  responseTimes : list Z;
  failures : Z
}.

Definition dayStart (today : string) : Day :=
  {| day := today; arrivals := 0; responseTimes := []; failures := 0 |}.

Definition turn (now : string) (d : Day) : Day :=
  if bool_decide (day d ≠ isoDate now) then dayStart (isoDate now) else d.

Definition observe (d : Day) (e : Event) : Day :=
  match e with
  | Timer now => turn now d
  | Report now => turn now d
  | Arrival now _ _ =>
      let d := turn now d in
      {| day := day d; arrivals := arrivals d + 1;
         responseTimes := responseTimes d; failures := failures d |}
  | Completion _ status duration =>
      {| day := day d; arrivals := arrivals d;
         responseTimes := responseTimes d ++ [duration];
         failures := if status >=? 400 then failures d + 1 else failures d |}
  end.

Definition observed (trace : list Event) (now0 : string) : Day :=
  foldl observe (dayStart (isoDate now0)) trace.

Definition total (l : list Z) : Z := foldr Z.add 0 l.

(** *** The mean in the words of the specification

    "The simple cumulative mean of response durations over all requests
    seen today": over the logged requests whose timestamp bears the
    current date, the sum of the durations they were back-filled with,
    divided by the number of those requests. *)
Definition seenToday (st : State) : list RequestLog :=
  filter (fun l => isoDate (timestamp l) = date (currentDayStats st))
         (omap (fun ref => objects st !! ref) (requestLogs st)).

Definition meanOverToday (st : State) : Num :=
  js_div (total (omap duration (seenToday st))) (Z.of_nat (length (seenToday st))).

(** A request served to completion before the next one arrives. *)
Record Served := {
  arrivedAt : string;
  request : Request;
  withAI : bool;
  logRef : nat;
  statusCode : Z;
  took : Z
}.

Definition oneByOne (rs : list Served) : list Event :=
  flat_map (fun r => [ Arrival (arrivedAt r) (request r) (withAI r);
                       Completion (logRef r) (statusCode r) (took r) ]) rs.

(** *** Vocabulary of the statements *)

(** The caps of the request log and of the history hold. *)
Definition bounded (st : State) : Prop :=
  (length (requestLogs st) <= MAX_LOGS)%nat /\ (length (historicalStats st) <= 30)%nat.

(** The counters of the state are those of the day read off the trace. *)
Definition tallies (st : State) (d : Day) : Prop :=
  date (currentDayStats st) = day d /\
  totalRequests (currentDayStats st) = arrivals d /\
  totalResponseTime st = total (responseTimes d) /\
  errors (currentDayStats st) = failures d.

End Analytics.

(** ** Sample inputs *)

Definition mkFlow (goal : string) (texts : list string) : Flow :=
  {| flow_id := "flow-1";
     goal := goal;
     steps := imap (fun i t => {| step_id := "step-" +:+ pretty (S i); text := t |}) texts;
     createdAt := "2024-01-01T00:00:00.000Z";
     updatedAt := "2024-01-01T00:00:00.000Z";
     source := Some manual;
     sourceUrl := None |}.

(** The flow [processUrlAnalysis] builds for a page without headings. *)
Definition browseFlow : Flow :=
  mkFlow "Analyze website UX flow" ["Visit website"; "Browse content"].

(** The flow of the end-to-end scenario. *)
Definition approveFlow : Flow :=
  mkFlow "approve posts" ["AI generates content"; "Post is automatically published"].

(** A candidate of category CONTROL, as the AI source may return it. *)
Definition controlCandidate : RawFinding :=
  {| raw_severity := Some HIGH;
     raw_category := Some CONTROL;
     raw_title := Some "Publishing happens without a final check";
     raw_description := Some "In Step 2 the post goes live with no user decision.";
     raw_evidence := None;
     raw_recommendation := Some "1. Add a confirmation dialog";
     raw_confidence := Some 0.9%Q;
     raw_principleId := Some "principle_human_in_loop" |}.

(** A candidate that carries a confidence of zero and nothing else. *)
Definition zeroConfidence : RawFinding :=
  {| raw_severity := None;
     raw_category := None;
     raw_title := None;
     raw_description := None;
     raw_evidence := None;
     raw_recommendation := None;
     raw_confidence := Some 0%Q;
     raw_principleId := None |}.

(** A request to the analysis endpoint. *)
Definition analyzeRequest : Analytics.Request :=
  {| Analytics.path := "/flows/1/analyze";
     Analytics.req_method := "POST";
     Analytics.user_agent := Some "Mozilla/5.0";
     Analytics.clientIp := "198.51.100.23" |}.

(** A request arrives just before midnight and is still being served when
    the first request of the next day arrives; both then complete. *)
Definition overMidnight : list Analytics.Event :=
  [ Analytics.Arrival "2024-01-01T23:59:59.900Z" analyzeRequest true;
    Analytics.Arrival "2024-01-02T00:00:01.000Z" analyzeRequest false;
    Analytics.Completion 0 200 15000;
    Analytics.Completion 1 200 100 ].

(** The findings of the evaluator for [approveFlow], numbered from 0. *)
Definition approveFindings : list Finding :=
  [ ruleNoErrorHandling 0; ruleNoApproval 1; ruleNoExplanation 2;
    ruleNoUndo 3; ruleNoTrustSignals 4; ruleNoConfidence 5 ].

(** ** Vocabulary of the further properties *)

(** Findings in order of severity, none ranked after [k]. *)
Definition ranked (k : Z) (fs : list Finding) : Prop :=
  StronglySorted severity_le fs /\ Forall (fun f => order (severity f) <= k) fs.


(** The finding cites one of the eight catalog entries the checks refer to. *)
Definition citesRulePrinciple (f : Finding) : Prop :=
  exists p, principleId f = Some p /\ p ∈ UX_PRINCIPLES /\
            p <> "principle_progressive_disclosure" /\ p <> "principle_error_prevention".


(** The findings bear identifiers handed out from [lo] up to, and not
    including, [n], no two the same. *)
Definition numbered (lo n : nat) (fs : list Finding) : Prop :=
  NoDup (map finding_id fs) /\ Forall (fun f => (lo <= finding_id f < n)%nat) fs.

(** The confidence of every finding is a proportion. *)
Definition calibrated (fs : list Finding) : Prop :=
  Forall (fun f => (0 <= confidence f <= 1)%Q) fs.
(** ** Strings: trimming and splitting *)

Module Text.

(** White space as [trim] sees it in ASCII text: tab, line feed, vertical
    tab, form feed, carriage return and space. *)
Definition isSpace (c : ascii) : bool :=
  let n := N_of_ascii c in
  (((9 <=? n) && (n <=? 13)) || (n =? 32))%N.

Fixpoint trimStart (s : string) : string :=
  match s with
  | EmptyString => EmptyString
  | String c s' => if isSpace c then trimStart s' else s
  end.

Fixpoint trimEnd (s : string) : string :=
  match s with
  | EmptyString => EmptyString
  | String c s' =>
      match trimEnd s' with
      | EmptyString => if isSpace c then EmptyString else String c EmptyString
      | t => String c t
      end
  end.

(** [s.trim()] *)
Definition trim (s : string) : string := trimEnd (trimStart s).

(** [s.split(sep)[0]]: the text before the first separator. *)
Fixpoint firstField (sep : ascii) (s : string) : string :=
  match s with
  | EmptyString => EmptyString
  | String c s' => if bool_decide (c = sep) then EmptyString else String c (firstField sep s')
  end.

(** The characters of a string. *)
Fixpoint chars (s : string) : list ascii :=
  match s with
  | EmptyString => []
  | String c s' => c :: chars s'
  end.

End Text.

(** ** middleware/security.ts: the client identifier *)

(** What the handlers read of the request to identify the client: the
    [x-forwarded-for] header when it is a string, and the address of the
    socket. *)
Record Origin := {
  forwarded : option string;
  remoteAddress : option string
}.

Definition getClientId (req : Origin) : string :=
  match forwarded req with
  | Some forwarded => Text.trim (Text.firstField "," forwarded)
  | None => or_string (remoteAddress req) "unknown"
  end.


(** ** middleware/security.ts: the store under traffic *)

Module Traffic.

(** What reaches the rate-limit store: a request passing the general
    limiter, a request passing the AI limiter, the five-minute timer. *)
Inductive Hit :=
| General (req : Origin) (now : Z)
| AI (req : Origin) (now : Z)
| Sweep (now : Z).

Definition clock (h : Hit) : Z :=
  match h with
  | General _ now => now
  | AI _ now => now
  | Sweep now => now
  end.

Definition hit (maxRequests : Z) (rateLimitStore : gmap string Security.RateLimitEntry)
    (h : Hit) : gmap string Security.RateLimitEntry :=
  match h with
  | General req now =>
      (Security.rateLimiter maxRequests (getClientId req) now rateLimitStore).1
  | AI req now => (Security.aiRateLimiter (getClientId req) now rateLimitStore).1
  | Sweep now => Security.cleanup now rateLimitStore
  end.

(** The store after the given hits, from the empty store of process start. *)
Definition hits (maxRequests : Z) (hs : list Hit) : gmap string Security.RateLimitEntry :=
  foldl (hit maxRequests) ∅ hs.


(** The count of a counter is between 1 and the cap. *)
Definition within (cap : Z) (s : Security.Counter) : Prop :=
  match s with
  | Security.Absent => True
  | Security.Active c _ => 1 <= c <= cap
  end.

(** Every entry of the store is within the cap of its traffic class. *)
Definition capped (maxRequests : Z) (store : gmap string Security.RateLimitEntry) : Prop :=
  forall c,
    within maxRequests (Security.counter_of (store !! (c +:+ ":general"))) /\
    within Security.MAX_AI_REQUESTS_PER_HOUR
           (Security.counter_of (store !! (c +:+ ":ai"))).

(** No entry of the store outlives a window opened at [now]. *)
Definition fresh_until (now : Z) (store : gmap string Security.RateLimitEntry) : Prop :=
  forall c e,
    (store !! (c +:+ ":general") = Some e ->
       Security.resetTime e <= now + Security.RATE_LIMIT_WINDOW) /\
    (store !! (c +:+ ":ai") = Some e ->
       Security.resetTime e <= now + Security.AI_LIMIT_WINDOW).

End Traffic.


(** ** Analytics: the reports

    [getAnalytics], [getTopEndpoints] and [getRecentErrors] of
    [analytics.ts], which the routes [/analytics], [/analytics/top-endpoints]
    and [/analytics/errors] send as they are. *)

Module Reports.
Import Analytics.

(** [Math.round]: the nearest integer, a half rounded up. *)
Definition Math_round (x : Num) : Num :=
  match x with
  | Fin q => Fin (inject_Z (Qfloor (q + (1 # 2))))
  | _ => x
  end.

(** [array.slice(start)] for an integer [start]: a negative one counts
    from the end. *)
Definition slice_from {A} (start : Z) (l : list A) : list A :=
  let len := Z.of_nat (length l) in
  let k := if start <? 0 then Z.max (len + start) 0 else Z.min start len in
  drop (Z.to_nat k) l.

(** [array.slice(0, end)] for an integer [end]. *)
Definition slice_to {A} (end_ : Z) (l : list A) : list A :=
  let len := Z.of_nat (length l) in
  let k := if end_ <? 0 then Z.max (len + end_) 0 else Z.min end_ len in
  take (Z.to_nat k) l.

Record Current := {
  current_date : string;
  current_totalRequests : Z;
  current_aiRequests : Z;
  current_uniqueIPs : nat;
  current_endpoints : gmap string Z;
  current_errors : Z;
  current_avgResponseTime : Num;
  (* the percentage that [toFixed(2)] prints with two decimals *)
  current_errorRate : Num
}.

Record Historical := {
  historical_date : string;
  historical_totalRequests : Z;
  historical_aiRequests : Z;
  historical_uniqueIPs : nat;
  historical_errors : Z;
  historical_avgResponseTime : Num
}.

Record Summary := {
  totalRequestsAllTime : Z;
  totalAIRequestsAllTime : Z
}.

(** [recent] holds the log objects themselves, by reference. *)
Record Report := {
  current : Current;
  recent : list nat;
  historical : list Historical;
  summary : Summary
}.

(** [array.reduce((sum, s) => sum + f(s), 0)] *)
Definition reduce_sum {A} (f : A -> Z) (l : list A) : Z :=
  foldl (fun sum s => sum + f s) 0 l.

Definition getAnalytics (now : string) (st : State) : State * Report :=
  let st := checkAndResetDaily now st in
  let cur := currentDayStats st in
  (st,
   {| current :=
        {| current_date := date cur;
           current_totalRequests := totalRequests cur;
           current_aiRequests := aiRequests cur;
           current_uniqueIPs := size (uniqueIPs cur);
           current_endpoints := endpoints cur;
           current_errors := errors cur;
           current_avgResponseTime := Math_round (avgResponseTime cur);
           current_errorRate :=
             if 0 <? totalRequests cur
             then Fin (inject_Z (errors cur) / inject_Z (totalRequests cur) * 100)%Q
             else Fin 0 |};
      recent := reverse (slice_from (-50) (requestLogs st)); (* Last 50 requests *)
      historical :=
        map (fun stats =>
               {| historical_date := date stats;
                  historical_totalRequests := totalRequests stats;
                  historical_aiRequests := aiRequests stats;
                  historical_uniqueIPs := size (uniqueIPs stats);
                  historical_errors := errors stats;
                  historical_avgResponseTime := Math_round (avgResponseTime stats) |})
            (historicalStats st);
      summary :=
        {| totalRequestsAllTime :=
             totalRequests cur + reduce_sum totalRequests (historicalStats st);
           totalAIRequestsAllTime :=
             aiRequests cur + reduce_sum aiRequests (historicalStats st) |} |}).

Record EndpointCount := {
  ec_endpoint : string;
  ec_count : Z
}.

(** The comparator of [getTopEndpoints]. *)
Definition byCount (a b : string * Z) : Z := b.2 - a.2.

Section Enumeration.
(** A [Map] enumerates its entries in the order of their insertion, which
    a [gmap] does not record: [entries] is that enumeration. *)
Variable entries : gmap string Z -> list (string * Z).

Definition getTopEndpoints (limit : Z) (st : State) : list EndpointCount :=
  let sorted :=
    slice_to limit (array_sort byCount (entries (endpoints (currentDayStats st)))) in
  map (fun '(endpoint, count) => {| ec_endpoint := endpoint; ec_count := count |}) sorted.

End Enumeration.

(** [log.status && log.status >= 400] *)
Definition failed (log : RequestLog) : bool :=
  match status log with
  | Some s => negb (s =? 0) && (s >=? 400)
  | None => false
  end.

Definition getRecentErrors (limit : Z) (st : State) : list nat :=
  reverse
    (slice_from (- limit)
       (filter (fun ref => from_option failed false (objects st !! ref) = true)
               (requestLogs st))).

(** *** Vocabulary of the statements *)

(** The requests that a trace logs, and those of them that ask for AI. *)
Definition isArrival (ai_only : bool) (e : Event) : bool :=
  match e with
  | Arrival _ _ useAI => if ai_only then useAI else true
  | _ => false
  end.

Definition arrived (trace : list Event) : Z :=
  Z.of_nat (length (filter (fun e => isArrival false e = true) trace)).

Definition arrivedAI (trace : list Event) : Z :=
  Z.of_nat (length (filter (fun e => isArrival true e = true) trace)).

(** The sum of the counts of a [Map] of counters. *)
Definition sumCounts (m : gmap string Z) : Z := map_fold (fun _ c acc => c + acc) 0 m.

(** The counters of one day agree with each other. *)
Definition coherent (d : DailyStats) : Prop :=
  0 <= aiRequests d <= totalRequests d /\
  Z.of_nat (size (uniqueIPs d)) <= totalRequests d /\
  (0 < totalRequests d -> uniqueIPs d <> ∅) /\
  sumCounts (endpoints d) = totalRequests d /\
  map_Forall (fun _ c => 1 <= c) (endpoints d) /\
  0 <= errors d.

(** The current day and the days of the history, each coherent. *)
Definition coherent_state (st : State) : Prop :=
  coherent (currentDayStats st) /\ Forall coherent (historicalStats st).

(** The counter [f], added up over the current day and the days of the
    history, is at most [n], and is [n] while the history has room. *)
Definition upTo (f : DailyStats -> Z) (st : State) (n : Z) : Prop :=
  f (currentDayStats st) + reduce_sum f (historicalStats st) <= n /\
  ((length (historicalStats st) < 30)%nat ->
   f (currentDayStats st) + reduce_sum f (historicalStats st) = n).

(** Every entry of the request log refers to a log object. *)
Definition logged (st : State) : Prop :=
  NoDup (requestLogs st) /\ Forall (fun ref => is_Some (objects st !! ref)) (requestLogs st).

End Reports.

(** ** index.ts: the routes of flows

    The handlers of [POST /flows], [GET /flows/:id] and
    [POST /flows/:id/analyze]. *)

Module Routes.

(** A request body as [express.json] hands it over: a parsed JSON value,
    its numbers finite and exact. *)
#[local] Unset Elimination Schemes.
Inductive JSON :=
| JNull
| JBool (b : bool)
| JNumber (x : Q)
| JString (s : string)
| JArray (items : list JSON)
| JObject (fields : list (string * JSON)).
#[local] Set Elimination Schemes.

Fixpoint field (key : string) (fields : list (string * JSON)) : option JSON :=
  match fields with
  | [] => None
  | (k, v) :: fields' => if bool_decide (k = key) then Some v else field key fields'
  end.

(** [v?.key], and [v.key] of a value that is not [null]: [None] is
    [undefined], which is what a value that is not an object gives for the
    keys the handlers read. *)
Definition get (key : string) (v : option JSON) : option JSON :=
  match v with
  | Some (JObject fields) => field key fields
  | _ => None
  end.

(** A value in a condition. *)
Definition truthy (v : option JSON) : bool :=
  match v with
  | None => false
  | Some JNull => false
  | Some (JBool b) => b
  | Some (JNumber x) => negb (Qeq_bool x 0)
  | Some (JString s) => negb (bool_decide (s = EmptyString))
  | Some (JArray _) => true
  | Some (JObject _) => true
  end.

(** The text of identifier [u]; distinct identifiers have distinct texts. *)
Definition UUID_text (u : UUID) : string := pretty u.

Inductive FlowReply :=
| FlowJson (flow : Flow)
| FlowError (status : Z) (error : string).

Section Handlers.
(** [String(v)]: for a string the string itself; the statements rely on
    nothing else of it. *)
Variable JS_String : option JSON -> string.

(** [s?.text && String(s.text).trim().length > 0] *)
Definition hasText (s : JSON) : bool :=
  truthy (get "text" (Some s))
  && (0 <? String.length (Text.trim (JS_String (get "text" (Some s)))))%nat.

Definition cleanStep (s : JSON) : M Step :=
  id ← match get "id" (Some s) with
       | None | Some JNull => u ← randomUUID; mret (JS_String (Some (JString (UUID_text u))))
       | Some v => mret (JS_String (Some v))
       end;
  mret {| step_id := id; text := JS_String (get "text" (Some s)) |}.

Definition postFlows (now : string) (body : option JSON) (flows : gmap string Flow)
  : M (FlowReply * gmap string Flow) :=
  let goal := get "goal" body in
  let steps := get "steps" body in
  match goal with
  | Some (JString goal_text) =>
      if negb (truthy goal) then mret (FlowError 400 "goal is required", flows)
      else
        match steps with
        | Some (JArray items) =>
            if (length items =? 0)%nat then mret (FlowError 400 "steps required", flows)
            else
              cleanedSteps ← array_map cleanStep (filter (fun s => hasText s = true) items);
              if (length cleanedSteps =? 0)%nat
              then mret (FlowError 400 "at least one step required", flows)
              else
                id ← randomUUID;
                let flow := {| flow_id := UUID_text id;
                               goal := Text.trim goal_text;
                               steps := cleanedSteps;
                               createdAt := now;
                               updatedAt := now;
                               source := Some manual;
                               sourceUrl := None |} in
                mret (FlowJson flow, <[flow_id flow := flow]> flows)
        | _ => mret (FlowError 400 "steps required", flows)
        end
  | _ => mret (FlowError 400 "goal is required", flows)
  end.

(** What [POST /flows] takes: a goal that is a string and not empty, and
    an array of steps of which one at least has a text that is not blank. *)
Definition accepted (body : option JSON) (goal_text : string) (items : list JSON) : Prop :=
  get "goal" body = Some (JString goal_text) /\ goal_text <> EmptyString /\
  get "steps" body = Some (JArray items) /\
  Exists (fun s => hasText s = true) items.

(** The step that [POST /flows] makes of an item of the body: its text,
    and its identifier if it has one, or else one handed out meanwhile. *)
Definition stepOf (n n' : nat) (s : JSON) (st : Step) : Prop :=
  text st = JS_String (get "text" (Some s)) /\
  match get "id" (Some s) with
  | None | Some JNull => exists u, (n <= u < n')%nat /\ step_id st = UUID_text u
  | Some v => step_id st = JS_String (Some v)
  end.

End Handlers.

Definition getFlow (id : string) (flows : gmap string Flow) : FlowReply :=
  match flows !! id with
  | Some flow => FlowJson flow
  | None => FlowError 404 "Flow not found"
  end.

(** *** [POST /flows/:id/analyze] *)

(** The stores that the handler reads and writes. *)
Record Stores := {
  flows : gmap string Flow;
  rateLimitStore : gmap string Security.RateLimitEntry;
  costTracker : gmap string Security.CostEntry
}.

Inductive AnalyzeReply :=
| NotFound                          (* 404, "Flow not found" *)
| TooMany (retryAfter : option Z)   (* 429 of [aiRateLimiter] or of [trackCost] *)
| Analyzed (reply : Reply).         (* what [performFlowAnalysis] answers *)

Section Analyze.
Variable AI_ENABLED : bool.

(** The handler of the route, which [validateRequestSize] precedes.  [ai]
    is [req.query.ai]; [now] and [now'] are the readings of the clock by
    [aiRateLimiter] and by [trackCost]; [outcome] is what the AI source
    would answer.  The result: the reply, the console lines of [trackCost],
    the stores and the UUID counter. *)
Definition analyzeFlow (id : string) (ai : option string) (req : Origin)
    (now now' : Z) (outcome : AIOutcome) (st : Stores) (n : nat)
  : AnalyzeReply * list Security.Console * Stores * nat :=
  match flows st !! id with
  | None => (NotFound, [], st, n)
  | Some flow =>
      let useAI := bool_decide (ai = Some "true") in
      (* AI requests have stricter limits *)
      if useAI then
        match Security.aiRateLimiter (getClientId req) now (rateLimitStore st) with
        | (rateLimitStore, Security.Next) =>
            match Security.trackCost now' (costTracker st) with
            | (costTracker, Security.Next, out) =>
                let '(reply, n') := performFlowAnalysis AI_ENABLED flow useAI outcome n in
                (Analyzed reply, out,
                 {| flows := flows st; rateLimitStore := rateLimitStore;
                    costTracker := costTracker |}, n')
            | (costTracker, Security.Status429 retryAfter, out) =>
                (TooMany retryAfter, out,
                 {| flows := flows st; rateLimitStore := rateLimitStore;
                    costTracker := costTracker |}, n)
            end
        | (rateLimitStore, Security.Status429 retryAfter) =>
            (TooMany retryAfter, [],
             {| flows := flows st; rateLimitStore := rateLimitStore;
                costTracker := costTracker st |}, n)
        end
      else
        let '(reply, n') := performFlowAnalysis AI_ENABLED flow useAI outcome n in
        (Analyzed reply, [], st, n')
  end.

End Analyze.

(** *** Vocabulary of the statements *)

(** The keys of the store are texts of identifiers already handed out. *)
Definition issued (flows : gmap string Flow) (n : nat) : Prop :=
  forall id, is_Some (flows !! id) -> exists u, (u < n)%nat /\ id = UUID_text u.

(** A flow as [POST /flows] stores it: under its own identifier, with at
    least one step and no step whose text is blank. *)
Definition wellFormed (id : string) (flow : Flow) : Prop :=
  flow_id flow = id /\ steps flow <> [] /\
  Forall (fun s => Text.trim (text s) <> EmptyString) (steps flow).

End Routes.

(** ** index.ts: flows made of a page or of a file

    [processUrlAnalysis] and [processFileAnalysis].  What the libraries
    deliver - the page that [axios] fetches as [cheerio] reads it, the file
    that [multer] holds - is an input. *)

Module Intake.



(** *** A page *)




(** *** A file *)

















Section Engine.
Variable AI_ENABLED : bool.



End Engine.

End Intake.
(** * Properties *)


(** ** Strings *)

Lemma append_cons c a b : String c a +:+ b = String c (a +:+ b).
Proof. reflexivity. Qed.



(** ** The severity sort *)

Section SortFacts.

Lemma tier_cons s f l :
  tier s (f :: l) = if decide (severity f = s) then f :: tier s l else tier s l.
Proof. unfold tier. by rewrite filter_cons. Qed.

Lemma insert_first x l :
  severity x = HIGH -> sort_insert bySeverity x l = x :: l.
Proof.
  intros Hx. destruct l as [|y l]; [done|]. simpl.
  unfold bySeverity. rewrite Hx. by destruct (severity y).
Qed.

Lemma insert_last_tier x ls :
  Forall (fun f => severity f = LOW) ls ->
  sort_insert bySeverity x ls = x :: ls.
Proof.
  intros Hls. destruct ls as [|y ls]; simpl; [done|].
  apply Forall_cons in Hls as [Hy _]. unfold bySeverity. rewrite Hy.
  by destruct (severity x).
Qed.

Lemma insert_mid_tier x ms ls :
  Forall (fun f => severity f = MEDIUM) ms ->
  Forall (fun f => severity f = LOW) ls ->
  sort_insert bySeverity x (ms ++ ls) =
    match severity x with
    | LOW => ms ++ x :: ls
    | _ => x :: ms ++ ls
    end.
Proof.
  intros Hms Hls. induction Hms as [|y ms Hy Hms IH]; simpl.
  - rewrite insert_last_tier by done. by destruct (severity x).
  - unfold bySeverity at 1. rewrite Hy.
    destruct (severity x) eqn:Hx; simpl; try done.
    rewrite IH. done.
Qed.

Lemma insert_tiers x hs ms ls :
  Forall (fun f => severity f = HIGH) hs ->
  Forall (fun f => severity f = MEDIUM) ms ->
  Forall (fun f => severity f = LOW) ls ->
  sort_insert bySeverity x (hs ++ ms ++ ls) =
    match severity x with
    | HIGH => (x :: hs) ++ ms ++ ls
    | MEDIUM => hs ++ (x :: ms) ++ ls
    | LOW => hs ++ ms ++ (x :: ls)
    end.
Proof.
  intros Hhs Hms Hls. induction Hhs as [|y hs Hy Hhs IH]; simpl.
  - rewrite insert_mid_tier by done. by destruct (severity x).
  - unfold bySeverity at 1. rewrite Hy.
    destruct (severity x) eqn:Hx; simpl; try done; by rewrite IH.
Qed.

Lemma tier_all s l : Forall (fun f => severity f = s) (tier s l).
Proof. apply Forall_forall. intros f Hf. by apply list_elem_of_filter in Hf as [? _]. Qed.

Lemma sortBySeverity_tiers l :
  sortBySeverity l = tier HIGH l ++ tier MEDIUM l ++ tier LOW l.
Proof.
  induction l as [|x l IH]; [done|].
  change (sortBySeverity (x :: l)) with (sort_insert bySeverity x (sortBySeverity l)).
  rewrite IH, insert_tiers by apply tier_all.
  rewrite !tier_cons.
  destruct (severity x); repeat case_decide; try done.
Qed.

Lemma tier_tier s s' l :
  tier s (tier s' l) = if decide (s = s') then tier s l else [].
Proof.
  induction l as [|x l IH]; [by case_decide|].
  rewrite !tier_cons.
  destruct (decide (severity x = s')) as [Hx|Hx].
  - rewrite tier_cons, IH. subst s'.
    destruct (decide (severity x = s)) as [->|Hs]; repeat case_decide; congruence.
  - rewrite IH. repeat case_decide; congruence.
Qed.

Lemma tier_app s l1 l2 : tier s (l1 ++ l2) = tier s l1 ++ tier s l2.
Proof. apply filter_app. Qed.

Lemma tier_sorted s l : tier s (sortBySeverity l) = tier s l.
Proof.
  rewrite sortBySeverity_tiers, !tier_app, !tier_tier.
  destruct s; simpl; by rewrite ?app_nil_r.
Qed.

Lemma tiers_perm l : tier HIGH l ++ tier MEDIUM l ++ tier LOW l ≡ₚ l.
Proof.
  induction l as [|x l IH]; [done|].
  rewrite !tier_cons. destruct (severity x); repeat case_decide; try done; simpl.
  - by rewrite IH.
  - rewrite <- Permutation_middle. by rewrite IH.
  - rewrite app_assoc, <- Permutation_middle, <- app_assoc. by rewrite IH.
Qed.

Lemma uniform_sorted s l :
  Forall (fun f => severity f = s) l -> StronglySorted severity_le l.
Proof.
  induction 1 as [|y l Hy Hl IH]; [constructor|].
  apply StronglySorted_cons. split; [|done].
  eapply Forall_impl; [exact Hl|]. intros f Hf. unfold severity_le. by rewrite Hy, Hf.
Qed.

Lemma tiers_sorted l :
  StronglySorted severity_le (tier HIGH l ++ tier MEDIUM l ++ tier LOW l).
Proof.
  pose proof (tier_all HIGH l) as Hh. pose proof (tier_all MEDIUM l) as Hm.
  pose proof (tier_all LOW l) as Hl. rewrite Forall_forall in Hh, Hm, Hl.
  apply StronglySorted_app_2; [|by eapply uniform_sorted, tier_all|].
  - intros a b Ha Hb. unfold severity_le. rewrite (Hh a Ha).
    destruct (severity b); simpl; lia.
  - apply StronglySorted_app_2; [|by eapply uniform_sorted, tier_all..].
    intros a b Ha Hb. unfold severity_le. by rewrite (Hm a Ha), (Hl b Hb).
Qed.

Lemma tier_none s l : Forall (fun f => severity f <> s) l -> tier s l = [].
Proof.
  induction 1 as [|y l Hy Hl IH]; [done|].
  rewrite tier_cons. by case_decide.
Qed.

Lemma sorted_is_tiers l :
  StronglySorted severity_le l ->
  l = tier HIGH l ++ tier MEDIUM l ++ tier LOW l.
Proof.
  induction 1 as [|x l Hl IH Hx]; [done|].
  assert (forall s, order s < order (severity x) -> tier s l = []) as Hnone.
  { intros s Hlt. apply tier_none. eapply Forall_impl; [exact Hx|].
    unfold severity_le. intros f Hf Hs. rewrite Hs in Hf. lia. }
  rewrite !tier_cons. destruct (severity x) eqn:Ex; simpl.
  - by rewrite <- IH.
  - rewrite (Hnone HIGH) in * by done. simpl in *. by rewrite <- IH.
  - rewrite (Hnone HIGH), (Hnone MEDIUM) in * by done. simpl in *. by rewrite <- IH.
Qed.

(** Whatever stable sorting algorithm the engine runs, the result is the
    one of the model: an arrangement that is ordered by severity and keeps
    each tier as it was is [sortBySeverity]. *)
Lemma stable_sort_unique l l' :
  StronglySorted severity_le l' ->
  (forall s, tier s l' = tier s l) ->
  l' = sortBySeverity l.
Proof.
  intros Hs Ht. rewrite sortBySeverity_tiers, <- !Ht. by apply sorted_is_tiers.
Qed.

End SortFacts.

(** C7. [sortBySeverity] orders any list of findings HIGH, then MEDIUM, then
    LOW: the result is ordered by severity, is a rearrangement of the input,
    and keeps the findings of each severity in their original relative order
    (it is the HIGH findings, then the MEDIUM ones, then the LOW ones, each
    group as it stood).  In particular findings of severities LOW, HIGH,
    MEDIUM, HIGH come out as the two HIGH ones in their original order, then
    the MEDIUM one, then the LOW one. *)
Theorem sortBySeverity_ordered_and_stable (l : list Finding) :
  StronglySorted severity_le (sortBySeverity l) /\
  sortBySeverity l ≡ₚ l /\
  (forall s, tier s (sortBySeverity l) = tier s l) /\
  sortBySeverity l = tier HIGH l ++ tier MEDIUM l ++ tier LOW l /\
  (forall a b c d,
      severity a = LOW -> severity b = HIGH -> severity c = MEDIUM -> severity d = HIGH ->
      sortBySeverity [a; b; c; d] = [b; d; c; a]).
Proof.
  split_and!.
  - rewrite sortBySeverity_tiers. apply tiers_sorted.
  - rewrite sortBySeverity_tiers. apply tiers_perm.
  - intros s. apply tier_sorted.
  - apply sortBySeverity_tiers.
  - intros a b c d Ha Hb Hc Hd. rewrite sortBySeverity_tiers, !tier_cons.
    rewrite Ha, Hb, Hc, Hd. done.
Qed.

Lemma sortBySeverity_ordered_and_stable_witness :
  sortBySeverity
    [ruleNoConfidence 0; ruleNoApproval 1; ruleNoMemory 2; ruleNoErrorHandling 3]
  = [ruleNoApproval 1; ruleNoErrorHandling 3; ruleNoMemory 2; ruleNoConfidence 0].
Proof.
  destruct (sortBySeverity_ordered_and_stable []) as (_ & _ & _ & _ & Hfour).
  apply Hfour; reflexivity.
Defined.

Example sortBySeverity_low_high_medium_high :
  sortBySeverity
    [ruleNoConfidence 0; ruleNoApproval 1; ruleNoMemory 2; ruleNoErrorHandling 3]
  = [ruleNoApproval 1; ruleNoErrorHandling 3; ruleNoMemory 2; ruleNoConfidence 0].
Proof. reflexivity. Qed.



(** ** The rule evaluator *)

Lemma push_if_run cond mk fs n :
  push_if cond mk fs n =
    (Ok (fs ++ if cond then [mk n] else []), if cond then S n else n).
Proof. destruct cond; [done|]. unfold push_if. by rewrite app_nil_r. Qed.

Ltac run_rules :=
  unfold runRules, mbind, M_bind, mret, M_ret;
  repeat (rewrite push_if_run; cbv beta iota zeta).

(** The evaluator never throws, and draws one identifier per finding. *)
Lemma runRules_total flow n :
  exists fs, runRules flow n = (Ok fs, (length fs + n)%nat).
Proof.
  run_rules. eexists. f_equal.
  rewrite !length_app.
  repeat match goal with
         | |- context [if ?c then _ else _] => destruct c
         end; reflexivity.
Qed.

(** C1 (amended).  For a flow in which no step contains a term of any of the
    eight keyword sets that the checks test for absence, the evaluator
    returns, in this order and each with its documented severity, category
    and confidence: check 1; check 2 if some step has autonomous-action
    language; check 3; check 4 if the flow has more than 3 steps; check 5 if
    it has more than 2 steps; checks 6, 7 and 8 if some step has
    autonomous-action language.  So it returns 8 findings exactly when the
    flow has autonomous-action language and more than 3 steps, and at most 4
    when it has no autonomous-action language. *)
Theorem runRules_without_keywords (flow : Flow) (n : nat) :
  Forall (unmatched flow) absenceSets ->
  let autonomous := some_step flow autoActTerms in
  let steps := length (steps flow) in
  exists fs,
    runRules flow n = (Ok fs, (length fs + n)%nat) /\
    map signature fs =
      [(HIGH, RECOVERY, 0.9%Q)] ++
      (if autonomous then [(HIGH, CONTROL, 0.95%Q)] else []) ++
      [(MEDIUM, TRANSPARENCY, 0.85%Q)] ++
      (if (3 <? steps)%nat then [(MEDIUM, TRANSPARENCY, 0.8%Q)] else []) ++
      (if (2 <? steps)%nat then [(MEDIUM, MEMORY, 0.75%Q)] else []) ++
      (if autonomous
       then [(MEDIUM, CONTROL, 0.85%Q); (LOW, TRUST, 0.7%Q); (LOW, TRUST, 0.8%Q)]
       else []) /\
    (length fs = 8%nat <-> autonomous = true /\ (3 < steps)%nat) /\
    (autonomous = false -> (length fs <= 4)%nat).
Proof.
  intros Hnone autonomous len.
  repeat (apply Forall_cons in Hnone as [? Hnone]).
  unfold unmatched in *. run_rules.
  repeat match goal with H : some_step flow _ = false |- _ => rewrite H; clear H end.
  subst autonomous len.
  generalize (some_step flow autoActTerms) as autonomous.
  generalize (length (steps flow)) as len. clear.
  intros len autonomous.
  destruct autonomous; destruct len as [|[|[|[|len]]]];
    cbn [app negb andb Nat.ltb Nat.leb];
    (match goal with |- exists fs, (Ok ?l, _) = _ /\ _ => exists l end;
     split; [reflexivity|]; split; [reflexivity|]);
    cbn [length]; split; try lia; try done;
    split; try lia; try done; intros [? ?]; try lia; done.
Qed.

Lemma runRules_without_keywords_witness :
  Forall (unmatched browseFlow) absenceSets /\
  exists fs, runRules browseFlow 0%nat = (Ok fs, (length fs + 0)%nat) /\ (length fs <= 4)%nat.
Proof.
  assert (Forall (unmatched browseFlow) absenceSets) as Hnone.
  { repeat constructor; vm_compute; reflexivity. }
  split; [exact Hnone|].
  destruct (runRules_without_keywords browseFlow 0 Hnone) as (fs & Hrun & _ & _ & Hle).
  exists fs. split; [exact Hrun|]. apply Hle. vm_compute. reflexivity.
Defined.

(** C1 as stated fails: no step of the two-step flow "Visit website",
    "Browse content" contains a term of any keyword set (the eight absence
    sets and the autonomous-action set), and the evaluator returns the
    findings of checks 1 and 3 only, not eight. *)
Lemma runRules_browseFlow_not_eight :
  Forall (unmatched browseFlow) (autoActTerms :: absenceSets) /\
  runRules browseFlow 0%nat = (Ok [ruleNoErrorHandling 0; ruleNoExplanation 1], 2%nat) /\
  ~ (exists fs n', runRules browseFlow 0%nat = (Ok fs, n') /\ length fs = 8%nat).
Proof.
  assert (runRules browseFlow 0%nat = (Ok [ruleNoErrorHandling 0; ruleNoExplanation 1], 2%nat))
    as Hrun by (vm_compute; reflexivity).
  split_and!.
  - repeat constructor; vm_compute; reflexivity.
  - exact Hrun.
  - intros (fs & n' & Hfs & Hlen). rewrite Hrun in Hfs.
    injection Hfs as <- _. discriminate Hlen.
Qed.

(** With autonomous-action language, no other keyword and more than three
    steps, all eight checks fire. *)
Example runRules_all_eight :
  map signature
    (match runRules (mkFlow "Post" ["Publish"; "Publish"; "Publish"; "Publish"]) 0%nat with
     | (Ok fs, _) => fs
     | _ => []
     end)
  = [ (HIGH, RECOVERY, 0.9%Q); (HIGH, CONTROL, 0.95%Q); (MEDIUM, TRANSPARENCY, 0.85%Q);
      (MEDIUM, TRANSPARENCY, 0.8%Q); (MEDIUM, MEMORY, 0.75%Q); (MEDIUM, CONTROL, 0.85%Q);
      (LOW, TRUST, 0.7%Q); (LOW, TRUST, 0.8%Q) ].
Proof. vm_compute. reflexivity. Qed.

(** ** The end-to-end scenario *)

(** Rule-only mode: the sorted output of the evaluator. *)
Lemma runHybridAnalysis_rule_only AI_ENABLED flow ai n :
  runHybridAnalysis AI_ENABLED flow false ai n =
    match runRules flow n with
    | (Ok fs, n') => (Ok (sortBySeverity fs), n')
    | (Throw e, n') => (Throw e, n')
    end.
Proof. reflexivity. Qed.

Lemma approveFlow_analysis AI_ENABLED ai :
  exists body,
    performFlowAnalysis AI_ENABLED approveFlow false ai 0%nat = (Json body, 7%nat) /\
    findings body = approveFindings /\
    overallRisk body = HIGH.
Proof.
  unfold performFlowAnalysis. rewrite runHybridAnalysis_rule_only.
  assert (runRules approveFlow 0%nat = (Ok approveFindings, 6%nat)) as ->
    by (vm_compute; reflexivity).
  assert (sortBySeverity approveFindings = approveFindings) as ->
    by (vm_compute; reflexivity).
  assert (calculateOverallRisk approveFindings = HIGH) as Hrisk
    by (vm_compute; reflexivity).
  eexists. split; [reflexivity|]. split; [reflexivity|]. exact Hrisk.
Qed.

Lemma approveFindings_evidence f e :
  f ∈ approveFindings -> e ∈ evidence f ->
  Str.includes e "automatically published" = false.
Proof.
  assert (forallb (fun f => forallb (fun e =>
            negb (Str.includes e "automatically published")) (evidence f))
            approveFindings = true) as Hall by (vm_compute; reflexivity).
  intros Hf He. rewrite forallb_forall in Hall.
  apply list_elem_of_In in Hf, He. specialize (Hall f Hf).
  rewrite forallb_forall in Hall. specialize (Hall e He).
  by apply negb_true_iff in Hall.
Qed.

(** C5 (amended).  For the flow with goal "approve posts" and steps "AI
    generates content", "Post is automatically published", analysed in
    rule-only mode, the result includes the HIGH/CONTROL finding "AI takes
    actions without user approval" with confidence 0.95, whose evidence is the
    fixed list of the check (it quotes no fragment of the flow), and the
    overall risk of the result is HIGH. *)
Theorem approveFlow_rule_only (AI_ENABLED : bool) (ai : AIOutcome) :
  exists body n,
    performFlowAnalysis AI_ENABLED approveFlow false ai 0%nat = (Json body, n) /\
    ruleNoApproval 1 ∈ findings body /\
    signature (ruleNoApproval 1) = (HIGH, CONTROL, 0.95%Q) /\
    title (ruleNoApproval 1) = "AI takes actions without user approval" /\
    evidence (ruleNoApproval 1) =
      [ "AI executes actions automatically";
        "No approval or confirmation step";
        "User cannot review before action" ] /\
    (forall f e, f ∈ findings body -> e ∈ evidence f ->
                 Str.includes e "automatically published" = false) /\
    overallRisk body = HIGH.
Proof.
  destruct (approveFlow_analysis AI_ENABLED ai) as (body & Hrun & Hfs & Hrisk).
  exists body, 7%nat. split; [exact Hrun|]. split.
  { rewrite Hfs. apply list_elem_of_further, list_elem_of_here. }
  do 3 (split; [reflexivity|]). split; [|exact Hrisk].
  rewrite Hfs. apply approveFindings_evidence.
Qed.

Lemma approveFlow_rule_only_witness :
  Str.includes "AI executes actions automatically" "automatically published" = false.
Proof.
  destruct (approveFlow_rule_only false (Parsed None))
    as (body & n & Hrun & Hin & _ & _ & Hev & Hquote & _).
  apply (Hquote (ruleNoApproval 1)); [exact Hin|].
  rewrite Hev. apply list_elem_of_here.
Defined.

(** C5 as stated fails: in the result for that flow no finding at all, and so
    no HIGH/CONTROL finding of confidence 0.95, has an evidence entry that
    contains "automatically published". *)
Lemma approveFlow_evidence_not_quoted :
  ~ (exists body n,
        performFlowAnalysis false approveFlow false (Parsed None) 0%nat = (Json body, n) /\
        overallRisk body = HIGH /\
        exists f, f ∈ findings body /\
          signature f = (HIGH, CONTROL, 0.95%Q) /\
          exists e, e ∈ evidence f /\ Str.includes e "automatically published" = true).
Proof.
  intros (body & n & Hrun & _ & f & Hf & _ & e & He & Hinc).
  destruct (approveFlow_analysis false (Parsed None)) as (body' & Hrun' & Hfs & _).
  rewrite Hrun' in Hrun. injection Hrun as <- _.
  rewrite Hfs in Hf. pose proof (approveFindings_evidence f e Hf He) as Hno.
  congruence.
Qed.


(** ** Identifiers *)

Lemma push_if_ids cond mk fs lo n :
  (forall u, finding_id (mk u) = u) ->
  (lo <= n)%nat ->
  Forall (fun f => (lo <= finding_id f < n)%nat) fs ->
  exists fs' n',
    push_if cond mk fs n = (Ok fs', n') /\ (lo <= n')%nat /\
    Forall (fun f => (lo <= finding_id f < n')%nat) fs'.
Proof.
  intros Hmk Hlo Hfs. rewrite push_if_run. do 2 eexists. split; [reflexivity|].
  destruct cond.
  - split; [lia|]. apply Forall_app. split.
    + eapply Forall_impl; [exact Hfs|]. simpl. lia.
    + constructor; [|constructor]. rewrite Hmk. lia.
  - split; [lia|]. by rewrite app_nil_r.
Qed.

(** The identifiers of the rule findings are drawn from the counter. *)
Lemma runRules_ids flow n :
  exists fs n',
    runRules flow n = (Ok fs, n') /\
    Forall (fun f => (n <= finding_id f < n')%nat) fs.
Proof.
  unfold runRules, mbind, M_bind, mret, M_ret. cbv zeta.
  assert (Forall (fun f => (n <= finding_id f < n)%nat) []) as Hfs by constructor.
  assert (n <= n)%nat as Hlo by lia.
  revert Hfs Hlo. generalize (@nil Finding) as fs. generalize n at 2 4 5 as m.
  intros m fs Hfs Hlo.
  repeat match goal with
  | |- context [push_if ?c ?mk ?l ?k] =>
      let fs' := fresh "fs" in let k' := fresh "k" in
      let E := fresh "E" in let L := fresh "L" in let F := fresh "F" in
      destruct (push_if_ids c mk l n k (fun _ => eq_refl)) as (fs' & k' & E & L & F);
      [assumption..|]; rewrite E; clear E; cbv beta iota
  end.
  eauto.
Qed.

(** ** AI ingestion *)

Lemma normalizeFinding_run f n :
  exists g, normalizeFinding (Some f) n = (Ok g, S n) /\ finding_id g = n.
Proof. eexists. split; reflexivity. Qed.

Lemma array_map_cons {A B} (callback : A -> M B) a l n :
  array_map callback (a :: l) n =
    match callback a n with
    | (Ok b, n1) =>
        match array_map callback l n1 with
        | (Ok bs, n2) => (Ok (b :: bs), n2)
        | (Throw e, n2) => (Throw e, n2)
        end
    | (Throw e, n1) => (Throw e, n1)
    end.
Proof.
  simpl. unfold mbind, M_bind. destruct (callback a n) as [[b|e] n1]; [|done].
  by destruct (array_map callback l n1) as [[bs|e] n2].
Qed.

Lemma array_map_normalize_ids l n fs n' :
  array_map normalizeFinding l n = (Ok fs, n') ->
  Forall (fun f => (n <= finding_id f)%nat) fs.
Proof.
  revert n fs n'. induction l as [|c l IH]; intros n fs n' Hrun.
  - injection Hrun as <- _. constructor.
  - rewrite array_map_cons in Hrun.
    destruct c as [f|]; [|discriminate Hrun].
    destruct (normalizeFinding_run f n) as (g & Hf & Hg). rewrite Hf in Hrun.
    destruct (array_map normalizeFinding l (S n)) as [[gs|e] k] eqn:Hl; [|discriminate Hrun].
    injection Hrun as <- _. constructor; [lia|].
    eapply Forall_impl; [exact (IH _ _ _ Hl)|]. simpl. lia.
Qed.

(** A [null] candidate makes the whole mapping throw. *)
Lemma array_map_normalize_null l n :
  existsb (fun c => bool_decide (c = None)) l = true ->
  exists e n', array_map normalizeFinding l n = (Throw e, n').
Proof.
  revert n. induction l as [|c l IH]; intros n Hnull; [discriminate|].
  rewrite array_map_cons. destruct c as [f|].
  - destruct (normalizeFinding_run f n) as (g & -> & _).
    destruct (IH (S n) Hnull) as (e & n' & ->). eauto.
  - simpl. eauto.
Qed.

(** [runAIAnalysis] never throws; what it returns was drawn after [n]. *)
Lemma runAIAnalysis_total AI_ENABLED flow ai n :
  exists fs n',
    runAIAnalysis AI_ENABLED flow ai n = (Ok fs, n') /\
    Forall (fun f => (n <= finding_id f)%nat) fs.
Proof.
  unfold runAIAnalysis. destruct AI_ENABLED; simpl; [|by do 2 eexists].
  unfold try_catch, mbind, M_bind.
  destruct ai as [e|e|candidates]; simpl; [by do 2 eexists..|].
  destruct (array_map normalizeFinding (or_default candidates []) n)
    as [[fs|e] n'] eqn:Hmap.
  - exists fs, n'. split; [done|]. by eapply array_map_normalize_ids.
  - by do 2 eexists.
Qed.

Lemma runAIAnalysis_failure AI_ENABLED flow ai n :
  is_failure ai = true ->
  exists n', runAIAnalysis AI_ENABLED flow ai n = (Ok [], n').
Proof.
  intros Hfail. unfold runAIAnalysis. destruct AI_ENABLED; simpl; [|by eexists].
  unfold try_catch, mbind, M_bind.
  destruct ai as [e|e|[candidates|]]; simpl; [by eexists..| |discriminate].
  destruct (array_map_normalize_null candidates n Hfail) as (e & n' & ->).
  by eexists.
Qed.

(** ** The hybrid merge *)

Lemma filter_all {A} (P : A -> Prop) `{forall x, Decision (P x)} (l : list A) :
  Forall P l -> filter P l = l.
Proof.
  induction 1 as [|x l Hx Hl IH]; [done|].
  rewrite filter_cons. case_decide; [by rewrite IH|done].
Qed.

Lemma elem_of_sortBySeverity f l : f ∈ sortBySeverity l <-> f ∈ l.
Proof.
  by rewrite sortBySeverity_tiers, tiers_perm.
Qed.

Lemma runHybridAnalysis_ai flow ai n rules n1 aiFs n2 :
  runRules flow n = (Ok rules, n1) ->
  runAIAnalysis true flow ai n1 = (Ok aiFs, n2) ->
  runHybridAnalysis true flow true ai n =
    (Ok (sortBySeverity
           (aiFs ++ filter (fun rf => category rf ∉
                              (list_to_set (map category aiFs) : gset Category)) rules)),
     n2).
Proof.
  intros Hrules Hai. unfold runHybridAnalysis, mbind, M_bind.
  rewrite Hrules. simpl. by rewrite Hai.
Qed.

(** C4.  With AI requested and enabled, the merge drops exactly the rule
    findings whose category is the category of some AI finding, keeps every
    other rule finding, and returns the AI findings followed by the kept rule
    findings, sorted by severity.  In particular, for a rule finding and an
    AI finding both of category CONTROL, the result contains the AI finding
    and not the rule finding. *)
Theorem runHybridAnalysis_category_precedence (flow : Flow) (ai : AIOutcome) (n : nat) :
  exists rules n1 aiFindings n2,
    runRules flow n = (Ok rules, n1) /\
    runAIAnalysis true flow ai n1 = (Ok aiFindings, n2) /\
    let overridden rf := exists a, a ∈ aiFindings /\ category a = category rf in
    let kept :=
      filter (fun rf => category rf ∉
                (list_to_set (map category aiFindings) : gset Category)) rules in
    let result := sortBySeverity (aiFindings ++ kept) in
    runHybridAnalysis true flow true ai n = (Ok result, n2) /\
    (forall rf, rf ∈ kept <-> rf ∈ rules /\ ~ overridden rf) /\
    (forall a, a ∈ aiFindings -> a ∈ result) /\
    (forall rf, rf ∈ rules -> ~ overridden rf -> rf ∈ result) /\
    (forall rf, rf ∈ rules -> overridden rf -> rf ∉ result) /\
    (forall rf a,
        rf ∈ rules -> a ∈ aiFindings ->
        category rf = CONTROL -> category a = CONTROL ->
        a ∈ result /\ rf ∉ result).
Proof.
  destruct (runRules_ids flow n) as (rules & n1 & Hrules & Hrid).
  destruct (runAIAnalysis_total true flow ai n1) as (aiFs & n2 & Hai & Haid).
  exists rules, n1, aiFs, n2. split; [exact Hrules|]. split; [exact Hai|].
  intros overridden kept result.
  assert (forall rf, category rf ∈ (list_to_set (map category aiFs) : gset Category)
                     <-> overridden rf) as Hset.
  { intros rf. rewrite elem_of_list_to_set. unfold overridden.
    change (map category aiFs) with (category <$> aiFs).
    rewrite list_elem_of_fmap. split.
    - intros (a & Hc & Ha). by exists a.
    - intros (a & Ha & Hc). by exists a. }
  assert (forall rf, rf ∈ kept <-> rf ∈ rules /\ ~ overridden rf) as Hkept.
  { intros rf. unfold kept. rewrite list_elem_of_filter, Hset. tauto. }
  assert (forall rf, rf ∈ rules -> rf ∉ aiFs) as Hfresh.
  { intros rf Hrf Hin. rewrite Forall_forall in Hrid, Haid.
    specialize (Hrid rf Hrf). specialize (Haid rf Hin). lia. }
  assert (forall rf, rf ∈ rules -> overridden rf -> rf ∉ result) as Hdrop.
  { intros rf Hrf Hov. unfold result. rewrite elem_of_sortBySeverity, elem_of_app.
    intros [Hin|Hin]; [by eapply Hfresh|]. apply Hkept in Hin. tauto. }
  assert (forall a, a ∈ aiFs -> a ∈ result) as Hkeep.
  { intros a Ha. unfold result. rewrite elem_of_sortBySeverity, elem_of_app. by left. }
  split_and!; try assumption.
  - by apply (runHybridAnalysis_ai flow ai n rules n1 aiFs n2).
  - intros rf Hrf Hov. unfold result. rewrite elem_of_sortBySeverity, elem_of_app.
    right. apply Hkept. done.
  - intros rf a Hrf Ha Hc Hc'. split; [by apply Hkeep|].
    apply Hdrop; [done|]. exists a. split; [done|congruence].
Qed.

Lemma runHybridAnalysis_category_precedence_witness :
  exists result n2,
    runHybridAnalysis true approveFlow true (Parsed (Some [Some controlCandidate])) 0%nat
      = (Ok result, n2) /\
    ruleNoApproval 1 ∉ result.
Proof.
  destruct (runHybridAnalysis_category_precedence
              approveFlow (Parsed (Some [Some controlCandidate])) 0%nat)
    as (rules & n1 & aiFindings & n2 & Hrules & Hai & Hrun & _ & _ & _ & Hdrop & _).
  assert (runRules approveFlow 0%nat = (Ok approveFindings, 6%nat)) as Hrules'
    by (vm_compute; reflexivity).
  rewrite Hrules' in Hrules. injection Hrules as <- <-.
  do 2 eexists. split; [exact Hrun|]. apply Hdrop.
  - apply list_elem_of_further, list_elem_of_here.
  - assert (exists a, runAIAnalysis true approveFlow
                        (Parsed (Some [Some controlCandidate])) 6%nat = (Ok [a], 7%nat)
                      /\ category a = CONTROL) as (a & Hai' & Hcat)
      by (eexists; split; reflexivity).
    rewrite Hai' in Hai. injection Hai as <- <-.
    exists a. split; [apply list_elem_of_here|exact Hcat].
Defined.

(** The scenario flow with one AI candidate of category CONTROL: both
    CONTROL rule findings (checks 2 and 6) give way to the AI finding. *)
Example runHybridAnalysis_control_override :
  (match runHybridAnalysis true approveFlow true
           (Parsed (Some [Some controlCandidate])) 0%nat with
   | (Ok fs, _) => map (fun f => (finding_id f, severity f, category f)) fs
   | _ => []
   end)
  = [ (6%nat, HIGH, CONTROL); (0%nat, HIGH, RECOVERY); (2%nat, MEDIUM, TRANSPARENCY);
      (4%nat, LOW, TRUST); (5%nat, LOW, TRUST) ].
Proof. vm_compute. reflexivity. Qed.

(** C6.  When the AI source fails - the request rejects (timeout, network or
    API exception), the response does not parse, or reading a candidate
    throws - the analysis returns exactly the severity-sorted rule findings:
    the AI contribution is the empty list, and no exception reaches the
    caller, which answers with the analysis and not with a 500. *)
Theorem runHybridAnalysis_absorbs_failure
    (AI_ENABLED : bool) (flow : Flow) (useAI : bool) (ai : AIOutcome) (n : nat) :
  is_failure ai = true ->
  exists rules n1 n2,
    runRules flow n = (Ok rules, n1) /\
    (exists n', runAIAnalysis AI_ENABLED flow ai n1 = (Ok [], n')) /\
    runHybridAnalysis AI_ENABLED flow useAI ai n = (Ok (sortBySeverity rules), n2) /\
    exists body,
      performFlowAnalysis AI_ENABLED flow useAI ai n = (Json body, S n2) /\
      findings body = sortBySeverity rules.
Proof.
  intros Hfail.
  destruct (runRules_ids flow n) as (rules & n1 & Hrules & _).
  destruct (runAIAnalysis_failure AI_ENABLED flow ai n1 Hfail) as (n' & Hai).
  assert (exists n2, runHybridAnalysis AI_ENABLED flow useAI ai n
                     = (Ok (sortBySeverity rules), n2)) as (n2 & Hrun).
  { unfold runHybridAnalysis, mbind, M_bind. rewrite Hrules.
    destruct (negb useAI || negb AI_ENABLED); [by eexists|].
    rewrite Hai. simpl. rewrite filter_all; [by eexists|].
    apply Forall_forall. intros rf _. set_solver. }
  exists rules, n1, n2. split; [exact Hrules|]. split; [by eexists|].
  split; [exact Hrun|]. unfold performFlowAnalysis. rewrite Hrun.
  eexists. split; reflexivity.
Qed.

Lemma runHybridAnalysis_absorbs_failure_witness :
  exists rules n1 n2,
    runRules approveFlow 0%nat = (Ok rules, n1) /\
    (exists n', runAIAnalysis true approveFlow (Rejects "Request timed out.") n1
                = (Ok [], n')) /\
    runHybridAnalysis true approveFlow true (Rejects "Request timed out.") 0%nat
      = (Ok (sortBySeverity rules), n2) /\
    exists body,
      performFlowAnalysis true approveFlow true (Rejects "Request timed out.") 0%nat
        = (Json body, S n2) /\
      findings body = sortBySeverity rules.
Proof.
  apply (runHybridAnalysis_absorbs_failure
           true approveFlow true (Rejects "Request timed out.") 0%nat).
  reflexivity.
Defined.

(** The analysis as a whole never throws. *)
Lemma runHybridAnalysis_total AI_ENABLED flow useAI ai n :
  exists fs n', runHybridAnalysis AI_ENABLED flow useAI ai n = (Ok fs, n').
Proof.
  destruct (runRules_ids flow n) as (rules & n1 & Hrules & _).
  destruct (runAIAnalysis_total AI_ENABLED flow ai n1) as (aiFs & n2 & Hai & _).
  unfold runHybridAnalysis, mbind, M_bind. rewrite Hrules.
  destruct (negb useAI || negb AI_ENABLED); [by do 2 eexists|].
  rewrite Hai. by do 2 eexists.
Qed.

(** ** Normalization of AI findings *)

Lemma clamp_range x : (0 <= Math_min (Math_max x 0) 1 <= 1)%Q.
Proof.
  unfold Math_min, Math_max. split.
  - apply Q.min_glb; [apply Q.le_max_r|done].
  - apply Q.le_min_r.
Qed.

(** C8 (amended).  Every AI finding is normalized on ingestion: a missing
    severity becomes MEDIUM, a missing category TRANSPARENCY, a missing
    title, description or recommendation its fixed fallback string; the
    confidence defaults to 0.7 when it is missing or zero, and is then
    clamped to the interval from 0 to 1. *)
Theorem normalizeFinding_defaults (f : RawFinding) (n : nat) :
  exists g,
    normalizeFinding (Some f) n = (Ok g, S n) /\
    severity g = default MEDIUM (raw_severity f) /\
    category g = default TRANSPARENCY (raw_category f) /\
    (raw_title f = None -> title g = "AI-detected issue") /\
    (raw_description f = None -> description g = "No description provided") /\
    (raw_recommendation f = None ->
       recommendation g = "Review and improve this aspect") /\
    (0 <= confidence g <= 1)%Q /\
    (raw_confidence f = None -> confidence g = 0.7%Q) /\
    (forall c, raw_confidence f = Some c -> (c == 0)%Q -> confidence g = 0.7%Q) /\
    (forall c, raw_confidence f = Some c -> ~ (c == 0)%Q ->
               confidence g = Qmin (Qmax c 0) 1).
Proof.
  eexists. split; [reflexivity|]. cbn [severity category title description
    recommendation confidence].
  split_and!.
  - by destruct (raw_severity f).
  - by destruct (raw_category f).
  - by intros ->.
  - by intros ->.
  - by intros ->.
  - apply clamp_range.
  - apply clamp_range.
  - by intros ->.
  - intros c -> Hc. unfold or_number. apply Qeq_bool_iff in Hc. by rewrite Hc.
  - intros c -> Hc. unfold or_number.
    destruct (Qeq_bool c 0) eqn:E; [|done]. by apply Qeq_bool_iff in E.
Qed.

Lemma normalizeFinding_defaults_witness :
  exists g,
    normalizeFinding (Some zeroConfidence) 0%nat = (Ok g, 1%nat) /\
    title g = "AI-detected issue" /\ confidence g = 0.7%Q.
Proof.
  destruct (normalizeFinding_defaults zeroConfidence 0)
    as (g & Hrun & _ & _ & Htitle & _ & _ & _ & _ & Hzero & _).
  exists g. split; [exact Hrun|]. split.
  - apply Htitle. reflexivity.
  - apply (Hzero 0%Q); reflexivity.
Defined.

(** C8 as stated fails: a candidate whose confidence is 0 does not keep the
    clamped value 0; it gets the default 0.7. *)
Lemma normalizeFinding_zero_confidence :
  exists g,
    normalizeFinding (Some zeroConfidence) 0%nat = (Ok g, 1%nat) /\
    confidence g = 0.7%Q /\
    ~ (confidence g == Qmin (Qmax 0 0) 1)%Q.
Proof.
  eexists. split; [reflexivity|]. split; [reflexivity|].
  vm_compute. discriminate.
Qed.


(** ** The fixed-window limiters *)

Section Limiters.
Import Security.

Lemma rateLimiter_step maxRequests clientId now store :
  seen (clientId +:+ ":general") (rateLimiter maxRequests clientId now store)
  = stepped (window_step maxRequests RATE_LIMIT_WINDOW now
               (counter_of (store !! (clientId +:+ ":general")))).
Proof.
  unfold rateLimiter, seen, stepped.
  destruct (store !! (clientId +:+ ":general")) as [[c r]|] eqn:E; simpl.
  - destruct (r <? now); simpl; [by rewrite lookup_insert_eq|].
    destruct (Z.geb_spec c maxRequests), (Z.ltb_spec c maxRequests); try lia; simpl.
    + by rewrite E.
    + by rewrite lookup_insert_eq.
  - by rewrite lookup_insert_eq.
Qed.

Lemma aiRateLimiter_step clientId now store :
  seen (clientId +:+ ":ai") (aiRateLimiter clientId now store)
  = stepped (window_step MAX_AI_REQUESTS_PER_HOUR AI_LIMIT_WINDOW now
               (counter_of (store !! (clientId +:+ ":ai")))).
Proof.
  unfold aiRateLimiter, seen, stepped.
  destruct (store !! (clientId +:+ ":ai")) as [[c r]|] eqn:E; simpl.
  - destruct (r <? now); simpl; [by rewrite lookup_insert_eq|].
    destruct (Z.geb_spec c MAX_AI_REQUESTS_PER_HOUR),
      (Z.ltb_spec c MAX_AI_REQUESTS_PER_HOUR); try lia; simpl.
    + by rewrite E.
    + by rewrite lookup_insert_eq.
  - by rewrite lookup_insert_eq.
Qed.

Lemma rateLimiter_frame maxRequests clientId now store k :
  k <> clientId +:+ ":general" ->
  (rateLimiter maxRequests clientId now store).1 !! k = store !! k.
Proof.
  intros Hk. unfold rateLimiter.
  destruct (store !! (clientId +:+ ":general")) as [[c r]|]; simpl.
  - destruct (r <? now); simpl; [by rewrite lookup_insert_ne|].
    destruct (c >=? maxRequests); simpl; [done|by rewrite lookup_insert_ne].
  - by rewrite lookup_insert_ne.
Qed.

Lemma aiRateLimiter_frame clientId now store k :
  k <> clientId +:+ ":ai" ->
  (aiRateLimiter clientId now store).1 !! k = store !! k.
Proof.
  intros Hk. unfold aiRateLimiter.
  destruct (store !! (clientId +:+ ":ai")) as [[c r]|]; simpl.
  - destruct (r <? now); simpl; [by rewrite lookup_insert_ne|].
    destruct (c >=? MAX_AI_REQUESTS_PER_HOUR); simpl; [done|by rewrite lookup_insert_ne].
  - by rewrite lookup_insert_ne.
Qed.

(** [trackCost] on an absent or expired entry. *)
Lemma trackCost_new_window now tracker :
  expired (tracker !! cost_key) now = true ->
  trackCost now tracker =
    (<[cost_key := {| count := 1; resetTime := now + DAILY_WINDOW |}]> tracker,
     Next, [console_log 1]).
Proof.
  unfold trackCost, expired. destruct (tracker !! cost_key) as [[c r]|]; simpl; [|done].
  by intros ->.
Qed.

(** [trackCost] on a live entry: the count goes up before the cap is looked at. *)
Lemma trackCost_live now tracker c r :
  tracker !! cost_key = Some {| count := c; resetTime := r |} ->
  now <= r ->
  trackCost now tracker =
    (<[cost_key := {| count := c + 1; resetTime := r |}]> tracker,
     if c + 1 >=? DAILY_AI_LIMIT then Status429 None else Next,
     if c + 1 >=? DAILY_AI_LIMIT then [console_error (c + 1)]
     else (if at_warning (c + 1) then [console_warn (c + 1)] else [])
            ++ [console_log (c + 1)]).
Proof.
  intros E Hnow. unfold trackCost. rewrite E. simpl.
  destruct (Z.ltb_spec r now); [lia|]. by destruct (c + 1 >=? DAILY_AI_LIMIT).
Qed.

(** The agreement of the source's rule with the specification's: they
    differ only at the instant [t = resetAt]. *)
Lemma window_step_spec_step cap window t s :
  (forall c, s <> Active c t) ->
  window_step cap window t s = spec_step cap window t s.
Proof.
  intros Hs. destruct s as [|c r]; [done|]. simpl.
  assert (r <> t) by (intros ->; by eapply Hs).
  destruct (Z.ltb_spec r t), (Z.leb_spec r t); try lia; done.
Qed.

End Limiters.

(** C2 (amended).  The two per-client limiters implement, for every request
    at time t, exactly these transitions on the client's entry and touch no
    other entry: an entry that is absent or whose resetAt is before t is
    replaced by Active(count = 1, resetAt = t + window) and the request is
    allowed; with resetAt at or after t and count below the cap, the count is
    incremented and the request is allowed; with resetAt at or after t and
    count at or above the cap, the request is denied with the count unchanged,
    signalling the remaining seconds until resetAt.  The global daily counter
    shares the window replacement: an absent entry or one whose resetAt is
    before t is replaced by Active(count = 1, resetAt = t + window) and the
    request is allowed; otherwise the window is kept, and an allowed request
    has incremented the count.  The rule differs from the one with
    "resetAt <= t" only at the instant t = resetAt. *)
Theorem fixed_window_transitions
    (cap now : Z) (clientId : string)
    (store : gmap string Security.RateLimitEntry)
    (tracker : gmap string Security.RateLimitEntry) :
  (Security.seen (clientId +:+ ":general") (Security.rateLimiter cap clientId now store)
   = Security.stepped (Security.window_step cap Security.RATE_LIMIT_WINDOW now
                (Security.counter_of (store !! (clientId +:+ ":general")))) /\
   forall k, k <> clientId +:+ ":general" ->
             (Security.rateLimiter cap clientId now store).1 !! k = store !! k) /\
  (Security.seen (clientId +:+ ":ai") (Security.aiRateLimiter clientId now store)
   = Security.stepped (Security.window_step Security.MAX_AI_REQUESTS_PER_HOUR
                Security.AI_LIMIT_WINDOW now
                (Security.counter_of (store !! (clientId +:+ ":ai")))) /\
   forall k, k <> clientId +:+ ":ai" ->
             (Security.aiRateLimiter clientId now store).1 !! k = store !! k) /\
  (let before := Security.counter_of (tracker !! Security.cost_key) in
   let after :=
     Security.counter_of ((Security.trackCost now tracker).1.1 !! Security.cost_key) in
   let verdict := (Security.trackCost now tracker).1.2 in
   (Security.expired (tracker !! Security.cost_key) now = true ->
      after = Security.Active 1 (now + Security.DAILY_WINDOW) /\
      verdict = Security.Next) /\
   (Security.expired (tracker !! Security.cost_key) now = false ->
      exists c r c',
        before = Security.Active c r /\ after = Security.Active c' r /\
        (verdict = Security.Next -> c' = c + 1)) /\
   forall k, k <> Security.cost_key ->
             (Security.trackCost now tracker).1.1 !! k = tracker !! k) /\
  (forall window s,
      (forall c, s <> Security.Active c now) ->
      Security.window_step cap window now s = Security.spec_step cap window now s).
Proof.
  split_and!.
  - apply rateLimiter_step.
  - intros k Hk. by apply rateLimiter_frame.
  - apply aiRateLimiter_step.
  - intros k Hk. by apply aiRateLimiter_frame.
  - intros before after verdict. subst before after verdict. split_and!.
    + intros Hexp. rewrite (trackCost_new_window _ _ Hexp). simpl.
      by rewrite lookup_insert_eq.
    + intros Hexp. unfold Security.expired in Hexp.
      destruct (tracker !! Security.cost_key) as [[c r]|] eqn:E; [|done].
      simpl in Hexp. apply Z.ltb_ge in Hexp.
      rewrite (trackCost_live now tracker c r E Hexp). simpl.
      rewrite lookup_insert_eq. simpl. by exists c, r, (c + 1).
    + intros k Hk. unfold Security.trackCost.
      destruct (tracker !! Security.cost_key) as [[c r]|]; simpl.
      * destruct (r <? now); simpl; [by rewrite lookup_insert_ne|].
        destruct (c + 1 >=? Security.DAILY_AI_LIMIT); simpl; by rewrite lookup_insert_ne.
      * by rewrite lookup_insert_ne.
  - intros window s. apply window_step_spec_step.
Qed.

Lemma fixed_window_transitions_witness :
  Security.counter_of ((Security.trackCost 1000 ∅).1.1 !! Security.cost_key)
  = Security.Active 1 (1000 + Security.DAILY_WINDOW) /\
  (Security.trackCost 1000 ∅).1.2 = Security.Next.
Proof.
  destruct (fixed_window_transitions 10 1000 "198.51.100.23" ∅ ∅)
    as (_ & _ & (Hnew & _ & _) & _).
  apply Hnew. vm_compute. reflexivity.
Defined.

(** C2 as stated fails at the boundary: for an entry whose resetAt equals
    the time of the request, the stated rule replaces the entry by
    Active(1, t + window); the general limiter keeps the window and
    increments the count. *)
Lemma rateLimiter_boundary_keeps_window :
  let store : gmap string Security.RateLimitEntry :=
    {[ "198.51.100.23:general" := {| Security.count := 1; Security.resetTime := 1000 |} ]} in
  Security.spec_step 10 Security.RATE_LIMIT_WINDOW 1000
      (Security.counter_of (store !! "198.51.100.23:general"))
    = (Security.Active 1 61000, Security.Allow) /\
  Security.seen "198.51.100.23:general" (Security.rateLimiter 10 "198.51.100.23" 1000 store)
    = (Security.Active 2 1000, Some Security.Allow) /\
  Security.seen "198.51.100.23:general" (Security.rateLimiter 10 "198.51.100.23" 1000 store)
    <> Security.stepped (Security.spec_step 10 Security.RATE_LIMIT_WINDOW 1000
                  (Security.counter_of (store !! "198.51.100.23:general"))).
Proof.
  intros store.
  assert (Security.seen "198.51.100.23:general"
            (Security.rateLimiter 10 "198.51.100.23" 1000 store)
          = (Security.Active 2 1000, Some Security.Allow)) as Hcode
    by (vm_compute; reflexivity).
  assert (Security.spec_step 10 Security.RATE_LIMIT_WINDOW 1000
            (Security.counter_of (store !! "198.51.100.23:general"))
          = (Security.Active 1 61000, Security.Allow)) as Hspec
    by (vm_compute; reflexivity).
  split; [exact Hspec|]. split; [exact Hcode|].
  rewrite Hcode, Hspec. discriminate.
Qed.

(** ** The daily cost counter *)

Section CostCounter.
Import Security.

(** Within a live window the i-th further request sees the count
    [c + i + 1]: it passes exactly while that is below the limit, and a
    warning is printed from 80% of the limit on. *)
Lemma trackCosts_live times : forall tracker c r i v out,
  tracker !! cost_key = Some {| count := c; resetTime := r |} ->
  Forall (fun t => t <= r) times ->
  (trackCosts times tracker).2 !! i = Some (v, out) ->
  (v = Next <-> c + Z.of_nat i + 1 < DAILY_AI_LIMIT) /\
  (console_warn (c + Z.of_nat i + 1) ∈ out <->
     8 * DAILY_AI_LIMIT <= 10 * (c + Z.of_nat i + 1) /\
     c + Z.of_nat i + 1 < DAILY_AI_LIMIT).
Proof.
  induction times as [|t times IH]; intros tracker c r i v out E Hin Hi; [done|].
  apply Forall_cons in Hin as [Ht Hin]. simpl in Hi.
  rewrite (trackCost_live t tracker c r E Ht) in Hi.
  destruct (trackCosts times _) as [tracker' vs] eqn:Hrest.
  destruct i as [|i]; simpl in Hi.
  - injection Hi as <- <-. rewrite Z.add_0_r. unfold at_warning.
    destruct (Z.geb_spec (c + 1) DAILY_AI_LIMIT).
    + split; [split; [done|lia]|]. rewrite list_elem_of_singleton.
      split; [done|lia].
    + split; [split; [lia|done]|].
      destruct (Z.geb_spec (10 * (c + 1)) (8 * DAILY_AI_LIMIT)); simpl.
      * rewrite !elem_of_cons, elem_of_nil. split; [lia|by left].
      * rewrite list_elem_of_singleton. split; [done|lia].
  - pose proof (IH (<[cost_key := {| count := c + 1; resetTime := r |}]> tracker)
                   (c + 1) r i v out) as IH'.
    rewrite Hrest in IH'. simpl in IH'.
    rewrite lookup_insert_eq in IH'. specialize (IH' eq_refl Hin Hi).
    replace (c + Z.of_nat (S i) + 1) with (c + 1 + Z.of_nat i + 1) by lia.
    exact IH'.
Qed.

(** From an empty counter, with all requests inside the window opened by
    the first: request number [k] passes exactly when [k < DAILY_AI_LIMIT]. *)
Lemma trackCosts_from_empty t0 times k v out :
  Forall (fun t => t <= t0 + DAILY_WINDOW) times ->
  (trackCosts (t0 :: times) ∅).2 !! k = Some (v, out) ->
  (v = Next <-> Z.of_nat (S k) < DAILY_AI_LIMIT).
Proof.
  intros Hin Hk. simpl in Hk.
  assert (expired ((∅ : gmap string RateLimitEntry) !! cost_key) t0 = true) as Hnew
    by (by rewrite lookup_empty).
  rewrite (trackCost_new_window t0 ∅ Hnew) in Hk.
  destruct (trackCosts times _) as [tracker' vs] eqn:Hrest.
  destruct k as [|k]; simpl in Hk.
  - injection Hk as <- _. by split.
  - pose proof (trackCosts_live times
                  (<[cost_key := {| count := 1; resetTime := t0 + DAILY_WINDOW |}]> ∅)
                  1 (t0 + DAILY_WINDOW) k v out) as H.
    rewrite Hrest, lookup_insert_eq in H. simpl in H.
    destruct (H eq_refl Hin Hk) as [Hv _]. rewrite Hv. lia.
Qed.

End CostCounter.

(** C3, at the failing input.  A hundred AI requests in one window, from an
    empty counter: requests 1 to 99 pass, the warning is printed from the
    80th on without denying, and the 100th request is denied - the count
    reaches the limit of 100 with the request that should still be allowed. *)
Theorem trackCost_hundredth_request_denied :
  let served := (Security.trackCosts (replicate 100 0) ∅).2 in
  map fst (take 99 served) = replicate 99 Security.Next /\
  served !! 78%nat = Some (Security.Next, [Security.console_log 79]) /\
  served !! 79%nat =
    Some (Security.Next, [Security.console_warn 80; Security.console_log 80]) /\
  served !! 98%nat =
    Some (Security.Next, [Security.console_warn 99; Security.console_log 99]) /\
  served !! 99%nat = Some (Security.Status429 None, [Security.console_error 100]).
Proof. vm_compute. repeat split. Qed.

(** The per-client limiter, for comparison: with a cap of 10 the 10th
    request of a window passes and the 11th is denied, with a retry-after
    within the window. *)
Example rateLimiter_eleventh_request_denied :
  (Security.rateLimiters 10 "198.51.100.23" (replicate 11 0) ∅).2
  = replicate 10 Security.Next ++ [Security.Status429 (Some 60)].
Proof. vm_compute. reflexivity. Qed.


(** ** Expired entries and the cleanup timer *)

Section Cleanup.
Import Security.

Lemma cleanup_lookup t store k :
  cleanup t store !! k =
    match store !! k with
    | Some e => if resetTime e <? t then None else Some e
    | None => None
    end.
Proof.
  unfold cleanup. rewrite map_lookup_filter.
  destruct (store !! k) as [e|]; simpl; [|done].
  destruct (Z.ltb_spec (resetTime e) t); case_guard; simpl in *; try done; lia.
Qed.

(** An entry the timer has deleted was expired: the limiter treats the
    store after a cleanup as it treats the store before. *)
Lemma cleanup_rateLimiter maxRequests clientId t now store :
  t <= now ->
  seen (clientId +:+ ":general")
       (rateLimiter maxRequests clientId now (cleanup t store))
  = seen (clientId +:+ ":general") (rateLimiter maxRequests clientId now store).
Proof.
  intros Ht. rewrite !rateLimiter_step, cleanup_lookup.
  destruct (store !! (clientId +:+ ":general")) as [[c r]|]; simpl; [|done].
  destruct (Z.ltb_spec r t); simpl; [|done].
  destruct (Z.ltb_spec r now); [done|lia].
Qed.

End Cleanup.



(** ** The analytics aggregator *)

Section AnalyticsFacts.
Import Analytics.

(** [push] then [shift] when over the cap: the last [cap] elements. *)
Lemma push_shift_length {A} (l : list A) x cap :
  (length l <= cap)%nat ->
  (length (if (cap <? length (l ++ [x]))%nat then shift (l ++ [x]) else l ++ [x])
   <= cap)%nat.
Proof.
  intros Hl. rewrite length_app. simpl.
  destruct (Nat.ltb_spec cap (length l + 1)).
  - unfold shift. destruct l; simpl in *; [lia|]. rewrite length_app. simpl. lia.
  - rewrite length_app. simpl. lia.
Qed.

Lemma push_shift_last {A} (l : list A) x cap :
  (0 < cap)%nat ->
  last (if (cap <? length (l ++ [x]))%nat then shift (l ++ [x]) else l ++ [x]) = Some x.
Proof.
  intros Hcap. rewrite length_app. simpl.
  destruct (Nat.ltb_spec cap (length l + 1)); [|apply last_snoc].
  destruct l as [|y l]; simpl in *; [lia|]. apply last_snoc.
Qed.

Lemma checkAndResetDaily_same now st :
  date (currentDayStats st) = isoDate now -> checkAndResetDaily now st = st.
Proof. intros E. unfold checkAndResetDaily. by rewrite bool_decide_eq_false_2 by naive_solver. Qed.

Lemma checkAndResetDaily_rollover now st :
  date (currentDayStats st) <> isoDate now ->
  checkAndResetDaily now st =
    {| objects := objects st;
       requestLogs := requestLogs st;
       currentDayStats := freshStats (isoDate now);
       historicalStats :=
         (let h := historicalStats st ++ [currentDayStats st] in
          if (30 <? length h)%nat then shift h else h);
       totalResponseTime := 0 |}.
Proof. intros E. unfold checkAndResetDaily. by rewrite bool_decide_eq_true_2. Qed.

Lemma checkAndResetDaily_requestLogs now st :
  requestLogs (checkAndResetDaily now st) = requestLogs st.
Proof. unfold checkAndResetDaily. by case_bool_decide. Qed.

Lemma checkAndResetDaily_bounded now st :
  bounded st -> bounded (checkAndResetDaily now st).
Proof.
  intros [Hl Hh]. destruct (decide (date (currentDayStats st) = isoDate now)) as [E|E].
  - by rewrite checkAndResetDaily_same.
  - rewrite checkAndResetDaily_rollover by done. split; simpl; [done|].
    by apply push_shift_length.
Qed.

Lemma logRequest_bounded now req useAI st :
  bounded st -> bounded (logRequest now req useAI st).1.
Proof.
  intros Hb. apply (checkAndResetDaily_bounded now) in Hb as [Hl Hh].
  unfold logRequest. split; simpl; [|done]. by apply push_shift_length.
Qed.

Lemma step_bounded st e : bounded st -> bounded (step st e).
Proof.
  destruct e; simpl.
  - apply checkAndResetDaily_bounded.
  - apply logRequest_bounded.
  - by intros [??].
  - apply checkAndResetDaily_bounded.
Qed.

(** The log never holds more than 1000 entries, the history never more
    than 30, in any state the module can reach. *)
Lemma run_bounded trace now0 : bounded (run trace (initial now0)).
Proof.
  unfold run. assert (bounded (initial now0)) as H0 by (split; simpl; lia).
  revert H0. generalize (initial now0) as st.
  induction trace as [|e trace IH]; intros st Hst; [done|].
  simpl. apply IH. by apply step_bounded.
Qed.

(** The history changes by a rollover only: an archived day is never
    written again, it stays as it was until it is dropped. *)
Lemma step_history st e :
  historicalStats (step st e) = historicalStats st \/
  historicalStats (step st e) =
    (let h := historicalStats st ++ [currentDayStats st] in
     if (30 <? length h)%nat then shift h else h).
Proof.
  assert (forall now,
    historicalStats (checkAndResetDaily now st) = historicalStats st \/
    historicalStats (checkAndResetDaily now st) =
      (let h := historicalStats st ++ [currentDayStats st] in
       if (30 <? length h)%nat then shift h else h)) as Hcheck.
  { intros now. destruct (decide (date (currentDayStats st) = isoDate now)) as [E|E].
    - left. by rewrite checkAndResetDaily_same.
    - right. by rewrite checkAndResetDaily_rollover. }
  destruct e as [now|now req ai|log s dur|now]; simpl; [apply Hcheck..|by left|apply Hcheck].
Qed.

(** *** The state and the day read off the trace *)

Lemma total_snoc l x : total (l ++ [x]) = total l + x.
Proof. induction l as [|y l IH]; simpl; lia. Qed.

Lemma checkAndResetDaily_tallies now st d :
  tallies st d -> tallies (checkAndResetDaily now st) (turn now d).
Proof.
  intros (Hd & Ha & Ht & He). unfold turn. rewrite <- Hd.
  destruct (decide (date (currentDayStats st) = isoDate now)) as [E|E].
  - rewrite checkAndResetDaily_same by done.
    by rewrite bool_decide_eq_false_2 by naive_solver.
  - rewrite checkAndResetDaily_rollover by done.
    by rewrite bool_decide_eq_true_2.
Qed.

Lemma step_tallies st d e : tallies st d -> tallies (step st e) (observe d e).
Proof.
  intros H. destruct e as [now|now req ai|log s dur|now]; simpl.
  - by apply checkAndResetDaily_tallies.
  - apply (checkAndResetDaily_tallies now) in H as (Hd & Ha & Ht & He).
    unfold logRequest, tallies. simpl. by rewrite Ha.
  - destruct H as (Hd & Ha & Ht & He). unfold tallies. simpl.
    rewrite total_snoc, Ht, He. done.
  - by apply checkAndResetDaily_tallies.
Qed.

Lemma run_tallies trace now0 :
  tallies (run trace (initial now0)) (observed trace now0).
Proof.
  unfold run, observed.
  assert (tallies (initial now0) (dayStart (isoDate now0))) as H0 by done.
  revert H0. generalize (initial now0) as st, (dayStart (isoDate now0)) as d.
  induction trace as [|e trace IH]; intros st d H; [done|].
  simpl. apply IH. by apply step_tallies.
Qed.

End AnalyticsFacts.

(** C9.  In every state the module can reach, a request that arrives on a
    date other than the accumulator's makes [logRequest] first archive the
    accumulator, unchanged, as the newest entry of the history - dropping the
    oldest entry when the history would exceed 30 - and start a fresh
    accumulator for the new date with all counters zero, on which the
    arriving request is then counted; and the request log takes the new
    entry, dropping the oldest when it would exceed 1000, so that it never
    holds more than 1000 entries. *)
Theorem daily_rollover_and_bounded_log
    (trace : list Analytics.Event) (now0 now : string)
    (req : Analytics.Request) (useAI : bool) :
  let st := Analytics.run trace (Analytics.initial now0) in
  let rolled := Analytics.checkAndResetDaily now st in
  let after := (Analytics.logRequest now req useAI st).1 in
  let ref := (Analytics.logRequest now req useAI st).2 in
  (Analytics.date (Analytics.currentDayStats st) <> Analytics.isoDate now ->
     Analytics.historicalStats rolled =
       (let h := Analytics.historicalStats st ++ [Analytics.currentDayStats st] in
        if (30 <? length h)%nat then Analytics.shift h else h) /\
     last (Analytics.historicalStats rolled) = Some (Analytics.currentDayStats st) /\
     Analytics.currentDayStats rolled =
       {| Analytics.date := Analytics.isoDate now;
          Analytics.totalRequests := 0;
          Analytics.aiRequests := 0;
          Analytics.uniqueIPs := ∅;
          Analytics.endpoints := ∅;
          Analytics.errors := 0;
          Analytics.avgResponseTime := Analytics.Fin 0 |} /\
     Analytics.totalResponseTime rolled = 0 /\
     Analytics.historicalStats after = Analytics.historicalStats rolled /\
     Analytics.date (Analytics.currentDayStats after) = Analytics.isoDate now /\
     Analytics.totalRequests (Analytics.currentDayStats after) = 1 /\
     Analytics.errors (Analytics.currentDayStats after) = 0) /\
  (length (Analytics.historicalStats rolled) <= 30)%nat /\
  (length (Analytics.historicalStats after) <= 30)%nat /\
  Analytics.requestLogs after =
    (let logs := Analytics.requestLogs st ++ [ref] in
     if (1000 <? length logs)%nat then Analytics.shift logs else logs) /\
  (length (Analytics.requestLogs st) <= 1000)%nat /\
  (length (Analytics.requestLogs after) <= 1000)%nat.
Proof.
  intros st rolled after ref.
  pose proof (run_bounded trace now0) as Hst. fold st in Hst.
  pose proof (checkAndResetDaily_bounded now st Hst) as Hrolled. fold rolled in Hrolled.
  pose proof (logRequest_bounded now req useAI st Hst) as Hafter. fold after in Hafter.
  split; [|destruct Hst, Hrolled, Hafter; split_and!; try done;
            subst after ref; unfold Analytics.logRequest; simpl;
            by rewrite checkAndResetDaily_requestLogs].
  intros Hdate. subst rolled after.
  unfold Analytics.logRequest. rewrite (checkAndResetDaily_rollover now st Hdate). simpl.
  split_and!; try done. apply push_shift_last. lia.
Qed.

Lemma daily_rollover_and_bounded_log_witness :
  Analytics.date
    (Analytics.currentDayStats
       (Analytics.run [Analytics.Arrival "2024-01-01T23:59:59.900Z" analyzeRequest true]
          (Analytics.initial "2024-01-01T08:00:00.000Z")))
    <> Analytics.isoDate "2024-01-02T00:00:01.000Z" /\
  Analytics.totalRequests
    (Analytics.currentDayStats
       (Analytics.logRequest "2024-01-02T00:00:01.000Z" analyzeRequest false
          (Analytics.run [Analytics.Arrival "2024-01-01T23:59:59.900Z" analyzeRequest true]
             (Analytics.initial "2024-01-01T08:00:00.000Z"))).1) = 1.
Proof.
  assert (Analytics.date
            (Analytics.currentDayStats
               (Analytics.run
                  [Analytics.Arrival "2024-01-01T23:59:59.900Z" analyzeRequest true]
                  (Analytics.initial "2024-01-01T08:00:00.000Z")))
          <> Analytics.isoDate "2024-01-02T00:00:01.000Z") as Hdate
    by (vm_compute; discriminate).
  split; [exact Hdate|].
  destruct (daily_rollover_and_bounded_log
              [Analytics.Arrival "2024-01-01T23:59:59.900Z" analyzeRequest true]
              "2024-01-01T08:00:00.000Z" "2024-01-02T00:00:01.000Z"
              analyzeRequest false) as [H _].
  destruct (H Hdate) as (_ & _ & _ & _ & _ & _ & Ht & _). exact Ht.
Defined.

(** C10 (amended).  On response completion the log object is given the
    status and the duration, and the request log, which holds the object by
    reference, is otherwise untouched; the day's error counter goes up by one
    if the status is 400 or more and stays as it is otherwise; and the day's
    running average becomes the sum of the durations of all responses
    completed since the last rollover - whatever day their request arrived
    on - divided by the number of requests that arrived since the last
    rollover.  A rollover resets the sum and the average to zero. *)
Theorem logResponse_backfills_and_averages
    (trace : list Analytics.Event) (now0 : string) (log : nat) (status duration : Z) :
  let st := Analytics.run trace (Analytics.initial now0) in
  let today := Analytics.observed trace now0 in
  let after := Analytics.logResponse log status duration st in
  (forall entry,
      Analytics.objects st !! log = Some entry ->
      exists entry',
        Analytics.objects after !! log = Some entry' /\
        Analytics.status entry' = Some status /\
        Analytics.duration entry' = Some duration /\
        Analytics.timestamp entry' = Analytics.timestamp entry /\
        Analytics.ip entry' = Analytics.ip entry /\
        Analytics.endpoint entry' = Analytics.endpoint entry) /\
  (forall other, other <> log ->
      Analytics.objects after !! other = Analytics.objects st !! other) /\
  Analytics.requestLogs after = Analytics.requestLogs st /\
  (400 <= status ->
     Analytics.errors (Analytics.currentDayStats after)
     = Analytics.errors (Analytics.currentDayStats st) + 1) /\
  (status < 400 ->
     Analytics.errors (Analytics.currentDayStats after)
     = Analytics.errors (Analytics.currentDayStats st)) /\
  Analytics.errors (Analytics.currentDayStats st) = Analytics.failures today /\
  Analytics.totalRequests (Analytics.currentDayStats after) = Analytics.arrivals today /\
  Analytics.avgResponseTime (Analytics.currentDayStats after)
  = Analytics.js_div
      (Analytics.total (Analytics.responseTimes today ++ [duration]))
      (Analytics.arrivals today) /\
  (forall now,
      Analytics.date (Analytics.currentDayStats after) <> Analytics.isoDate now ->
      Analytics.totalResponseTime (Analytics.checkAndResetDaily now after) = 0 /\
      Analytics.avgResponseTime
        (Analytics.currentDayStats (Analytics.checkAndResetDaily now after))
      = Analytics.Fin 0).
Proof.
  intros st today after.
  destruct (run_tallies trace now0) as (Hd & Ha & Ht & He).
  fold st today in Hd, Ha, Ht, He.
  split_and!.
  - intros entry Hentry. subst after. unfold Analytics.logResponse. simpl.
    rewrite lookup_alter_eq, Hentry. simpl. eexists. split; [reflexivity|]. done.
  - intros other Hother. subst after. unfold Analytics.logResponse. simpl.
    by rewrite lookup_alter_ne.
  - done.
  - intros Hs. subst after. simpl. destruct (Z.geb_spec status 400); [done|lia].
  - intros Hs. subst after. simpl. destruct (Z.geb_spec status 400); [lia|done].
  - exact He.
  - exact Ha.
  - subst after. simpl. by rewrite total_snoc, Ht, Ha.
  - intros now Hnow. by rewrite (checkAndResetDaily_rollover now after Hnow).
Qed.

Lemma logResponse_backfills_and_averages_witness :
  let st := Analytics.run
              [Analytics.Arrival "2024-01-01T09:00:00.000Z" analyzeRequest true]
              (Analytics.initial "2024-01-01T08:00:00.000Z") in
  Analytics.errors (Analytics.currentDayStats (Analytics.logResponse 0 500 1200 st))
  = Analytics.errors (Analytics.currentDayStats st) + 1.
Proof.
  intros st.
  destruct (logResponse_backfills_and_averages
              [Analytics.Arrival "2024-01-01T09:00:00.000Z" analyzeRequest true]
              "2024-01-01T08:00:00.000Z" 0%nat 500 1200)
    as (_ & _ & _ & Herr & _).
  apply Herr. lia.
Defined.

(** C10 as stated fails when a response completes on the day after its
    request arrived: its duration is added to the new day's sum.  After the
    trace [overMidnight] one request has been seen on the new day, and it
    took 100 ms; the day's running average is 15100. *)
Lemma avgResponseTime_not_mean_over_today :
  let st := Analytics.run overMidnight (Analytics.initial "2024-01-01T08:00:00.000Z") in
  Analytics.totalRequests (Analytics.currentDayStats st) = 1 /\
  omap Analytics.duration (Analytics.seenToday st) = [100] /\
  Analytics.meanOverToday st = Analytics.Fin 100 /\
  Analytics.avgResponseTime (Analytics.currentDayStats st) = Analytics.Fin 15100 /\
  ~ Analytics.Num_eq (Analytics.avgResponseTime (Analytics.currentDayStats st))
                     (Analytics.meanOverToday st).
Proof.
  intros st.
  assert (Analytics.avgResponseTime (Analytics.currentDayStats st) = Analytics.Fin 15100)
    as Havg by (vm_compute; reflexivity).
  assert (Analytics.meanOverToday st = Analytics.Fin 100) as Hmean
    by (vm_compute; reflexivity).
  split_and!; try (vm_compute; reflexivity); try assumption.
  rewrite Havg, Hmean. vm_compute. discriminate.
Qed.

(** When every request of the day has completed before the next one arrives,
    and none is outstanding from the day before, the running average is the
    mean of the durations: here for three requests. *)
Example avgResponseTime_sequential_day :
  let st := Analytics.run
              [ Analytics.Arrival "2024-01-01T09:00:00.000Z" analyzeRequest false;
                Analytics.Completion 0 200 120;
                Analytics.Arrival "2024-01-01T09:01:00.000Z" analyzeRequest true;
                Analytics.Completion 1 500 300;
                Analytics.Arrival "2024-01-01T09:02:00.000Z" analyzeRequest false;
                Analytics.Completion 2 200 180 ]
              (Analytics.initial "2024-01-01T08:00:00.000Z") in
  Analytics.Num_eq (Analytics.avgResponseTime (Analytics.currentDayStats st))
                   (Analytics.Fin 200) /\
  Analytics.Num_eq (Analytics.meanOverToday st) (Analytics.Fin 200) /\
  Analytics.errors (Analytics.currentDayStats st) = 1.
Proof. vm_compute. repeat split. Qed.

(** ** A day of requests served one by one *)

Section OneByOne.
Import Analytics.

Lemma observe_oneByOne rs : forall d,
  Forall (fun r => isoDate (arrivedAt r) = day d) rs ->
  foldl observe d (oneByOne rs) =
    {| day := day d;
       arrivals := arrivals d + Z.of_nat (length rs);
       responseTimes := responseTimes d ++ map took rs;
       failures := failures (foldl observe d (oneByOne rs)) |}.
Proof.
  induction rs as [|r rs IH]; intros d Hrs.
  - simpl. rewrite Z.add_0_r, app_nil_r. by destruct d.
  - apply Forall_cons in Hrs as [Hr Hrs]. simpl.
    unfold turn. rewrite bool_decide_eq_false_2 by naive_solver. simpl.
    rewrite IH by done. simpl. f_equal; [lia|]. by rewrite <- app_assoc.
Qed.

(** When every request of the day completes before the next one arrives,
    the running average after the last response is the mean of the
    durations. *)
Lemma avgResponseTime_oneByOne now0 rs r :
  Forall (fun r => isoDate (arrivedAt r) = isoDate now0) (rs ++ [r]) ->
  avgResponseTime (currentDayStats (run (oneByOne (rs ++ [r])) (initial now0)))
  = js_div (total (map took (rs ++ [r]))) (Z.of_nat (length (rs ++ [r]))).
Proof.
  intros Hrs. apply Forall_app in Hrs as [Hrs Hr]. apply Forall_cons in Hr as [Hr _].
  unfold oneByOne. rewrite flat_map_app. simpl.
  fold (oneByOne rs).
  change [Arrival (arrivedAt r) (request r) (withAI r);
          Completion (logRef r) (statusCode r) (took r)]
    with ([Arrival (arrivedAt r) (request r) (withAI r)]
            ++ [Completion (logRef r) (statusCode r) (took r)]).
  rewrite app_assoc. unfold run. rewrite foldl_app. simpl.
  pose proof (run_tallies (oneByOne rs ++ [Arrival (arrivedAt r) (request r) (withAI r)])
                now0) as (Hd & Ha & Ht & He).
  unfold run in Hd, Ha, Ht, He. rewrite Ht, Ha.
  unfold observed. rewrite foldl_app. simpl.
  rewrite (observe_oneByOne rs (dayStart (isoDate now0))) by done. simpl.
  unfold turn. simpl. rewrite bool_decide_eq_false_2 by naive_solver. simpl.
  rewrite map_app, length_app. simpl. rewrite total_snoc. f_equal; lia.
Qed.

End OneByOne.

(** * Further properties *)

(** ** Keyword matching *)




Lemma some_step_ext flow1 flow2 terms :
  Forall2 (fun s1 s2 => Str.toLowerCase (text s1) = Str.toLowerCase (text s2))
          (steps flow1) (steps flow2) ->
  some_step flow1 terms = some_step flow2 terms.
Proof.
  unfold some_step. induction 1 as [|s1 s2 l1 l2 Hs Hl IH]; simpl; [done|].
  unfold includesAny at 1 3. by rewrite Hs, IH.
Qed.

(** X1.  The evaluator looks at the texts of the steps, up to the case of ASCII
    letters, and at their number - at nothing else of the flow. *)
Lemma runRules_reads_step_texts flow1 flow2 n :
  Forall2 (fun s1 s2 => Str.toLowerCase (text s1) = Str.toLowerCase (text s2))
          (steps flow1) (steps flow2) ->
  runRules flow1 n = runRules flow2 n.
Proof.
  intros Hsteps. unfold runRules.
  rewrite !(some_step_ext flow1 flow2) by done.
  by rewrite (Forall2_length _ _ _ Hsteps).
Qed.

Lemma runRules_reads_step_texts_witness :
  runRules approveFlow 0%nat
  = runRules (mkFlow "Ship it" ["ai GENERATES content"; "POST IS AUTOMATICALLY PUBLISHED"]) 0%nat.
Proof.
  apply runRules_reads_step_texts.
  repeat constructor.
Defined.

(** ** The shape of an analysis *)

(** An invariant of the findings that every check keeps is an invariant of
    the evaluator's result; the invariant may depend on the number of the
    check. *)
Lemma push_if_keeps (P Q : list Finding -> Prop) cond mk fs n :
  P fs ->
  (P fs -> Q fs) ->
  (forall u, P fs -> Q (fs ++ [mk u])) ->
  exists fs' n', push_if cond mk fs n = (Ok fs', n') /\ Q fs'.
Proof.
  intros Hfs Hskip Hpush. rewrite push_if_run. do 2 eexists. split; [reflexivity|].
  destruct cond; [by apply Hpush|]. rewrite app_nil_r. by apply Hskip.
Qed.

Lemma ranked_weaken k k' fs : k <= k' -> ranked k fs -> ranked k' fs.
Proof.
  intros Hk [Hs Hf]. split; [done|]. eapply Forall_impl; [exact Hf|]. simpl. lia.
Qed.

Lemma ranked_snoc k fs f :
  order (severity f) = k -> ranked k fs -> ranked k (fs ++ [f]).
Proof.
  intros Hf [Hs Hall]. split.
  - apply StronglySorted_app_2; [|done|repeat constructor].
    intros a b Ha Hb. apply list_elem_of_singleton in Hb as ->.
    rewrite Forall_forall in Hall. unfold severity_le. rewrite Hf. by apply Hall.
  - apply Forall_app. split; [done|]. constructor; [lia|constructor].
Qed.

Ltac check_step k H :=
  match goal with
  | |- context [push_if ?c ?mk ?l ?m] =>
      let fs' := fresh "fs" in let m' := fresh "m" in
      let E := fresh "E" in let H' := fresh "H" in
      destruct (push_if_keeps (ranked k) (ranked k) c mk l m) as (fs' & m' & E & H');
      [ eapply ranked_weaken; [|exact H]; lia
      | intros Hr; eapply ranked_weaken; [|exact Hr]; lia
      | intros u Hr; apply ranked_snoc; [reflexivity|];
        eapply ranked_weaken; [|exact Hr]; lia
      | rewrite E; clear E; cbv beta iota ]
  end.

(** The evaluator emits its findings in order of severity already. *)
Lemma runRules_sorted flow n :
  exists fs n', runRules flow n = (Ok fs, n') /\ StronglySorted severity_le fs.
Proof.
  unfold runRules, mbind, M_bind, mret, M_ret. cbv zeta.
  assert (ranked 0 []) as H0 by (split; constructor).
  revert H0. generalize (@nil Finding) as fs0. intros fs0 H0.
  check_step 0 H0. check_step 0 H. check_step 1 H1. check_step 1 H2.
  check_step 1 H3. check_step 1 H4. check_step 2 H5. check_step 2 H6.
  do 2 eexists. split; [reflexivity|]. by destruct H7.
Qed.

Lemma sortBySeverity_sorted_id fs :
  StronglySorted severity_le fs -> sortBySeverity fs = fs.
Proof. intros Hs. symmetry. by apply stable_sort_unique. Qed.

Lemma runHybridAnalysis_rule_only_runRules AI_ENABLED flow ai n :
  runHybridAnalysis AI_ENABLED flow false ai n = runRules flow n.
Proof.
  rewrite runHybridAnalysis_rule_only.
  destruct (runRules_sorted flow n) as (fs & n' & -> & Hs).
  by rewrite sortBySeverity_sorted_id.
Qed.

(** X2.  In rule-only mode the findings of the response are the evaluator's, in
    detection order - sorting leaves them as they are - whatever the AI
    source would answer; the analysis takes the next identifier and is not
    marked as enhanced. *)
Lemma performFlowAnalysis_rule_only_order AI_ENABLED flow ai n :
  exists fs n' body,
    runRules flow n = (Ok fs, n') /\
    performFlowAnalysis AI_ENABLED flow false ai n = (Json body, S n') /\
    findings body = fs /\ analysisId body = n' /\ aiEnhanced body = false.
Proof.
  destruct (runRules_sorted flow n) as (fs & n' & Hrun & _).
  unfold performFlowAnalysis. rewrite runHybridAnalysis_rule_only_runRules, Hrun.
  by do 3 eexists.
Qed.





(** ** The principles of an analysis *)

Lemma UX_PRINCIPLES_NoDup : NoDup UX_PRINCIPLES.
Proof. apply (bool_decide_unpack _). vm_compute. exact I. Qed.

Lemma principleIds_spec fs p :
  p ∈ principleIds fs <-> p <> "" /\ exists f, f ∈ fs /\ principleId f = Some p.
Proof.
  unfold principleIds. rewrite elem_of_remove_dups, list_elem_of_omap. split.
  - intros (f & Hf & Hp). destruct (principleId f) as [q|] eqn:E; [|done].
    case_bool_decide; [done|]. injection Hp as <-. eauto.
  - intros (Hne & f & Hf & Hp). exists f. split; [done|]. rewrite Hp.
    by rewrite bool_decide_eq_false_2.
Qed.

Lemma principles_spec fs p :
  p ∈ filter (fun p => p ∈ principleIds fs) UX_PRINCIPLES <->
  p ∈ UX_PRINCIPLES /\ exists f, f ∈ fs /\ principleId f = Some p.
Proof.
  rewrite list_elem_of_filter, principleIds_spec. split.
  - intros [[_ Hf] Hp]. done.
  - intros [Hp Hf]. split; [|done]. split; [|done]. intros ->.
    revert Hp. apply (bool_decide_unpack _). vm_compute. exact I.
Qed.

(** X5.  The principles of the result are the catalog entries that some finding
    cites, each once, whatever the findings cite besides. *)
Lemma performFlowAnalysis_principles AI_ENABLED flow useAI ai n :
  exists body n',
    performFlowAnalysis AI_ENABLED flow useAI ai n = (Json body, n') /\
    NoDup (principles body) /\
    forall p, p ∈ principles body <->
              p ∈ UX_PRINCIPLES /\ exists f, f ∈ findings body /\ principleId f = Some p.
Proof.
  destruct (runHybridAnalysis_total AI_ENABLED flow useAI ai n) as (fs & n' & Hrun).
  unfold performFlowAnalysis. rewrite Hrun. do 2 eexists. split; [reflexivity|].
  cbn [principles findings]. split; [apply NoDup_filter, UX_PRINCIPLES_NoDup|].
  intros p. apply principles_spec.
Qed.

Ltac cites_step H :=
  match goal with
  | |- context [push_if ?c ?mk ?l ?m] =>
      let fs' := fresh "fs" in let m' := fresh "m" in
      let E := fresh "E" in let H' := fresh "H" in
      destruct (push_if_keeps (Forall citesRulePrinciple) (Forall citesRulePrinciple)
                  c mk l m) as (fs' & m' & E & H');
      [ exact H
      | done
      | intros u Hr; apply Forall_app; split; [exact Hr|];
        constructor; [|constructor];
        eexists; split; [reflexivity|]; split; [|split; discriminate];
        apply (bool_decide_unpack _); vm_compute; exact I
      | rewrite E; clear E; cbv beta iota ]
  end.

Lemma runRules_cite flow n :
  exists fs n', runRules flow n = (Ok fs, n') /\ Forall citesRulePrinciple fs.
Proof.
  unfold runRules, mbind, M_bind, mret, M_ret. cbv zeta.
  assert (Forall citesRulePrinciple []) as H0 by constructor.
  revert H0. generalize (@nil Finding) as fs0. intros fs0 H0.
  cites_step H0. cites_step H. cites_step H1. cites_step H2.
  cites_step H3. cites_step H4. cites_step H5. cites_step H6.
  eauto.
Qed.

(** X6.  In rule-only mode every finding cites a principle that the result
    carries, and two entries of the catalog - progressive disclosure and
    error prevention - are never among the principles: no check cites them. *)
Lemma performFlowAnalysis_rule_only_principles AI_ENABLED flow ai n :
  exists body n',
    performFlowAnalysis AI_ENABLED flow false ai n = (Json body, n') /\
    (forall f, f ∈ findings body ->
               exists p, principleId f = Some p /\ p ∈ principles body) /\
    ("principle_progressive_disclosure" ∉ principles body) /\
    ("principle_error_prevention" ∉ principles body).
Proof.
  destruct (runRules_cite flow n) as (fs & m & Hfs & Hcite).
  unfold performFlowAnalysis. rewrite runHybridAnalysis_rule_only_runRules, Hfs.
  do 2 eexists. split; [reflexivity|]. cbn [principles findings].
  rewrite Forall_forall in Hcite. split_and!.
  - intros f Hf. destruct (Hcite f Hf) as (p & Hp & Hin & _).
    exists p. split; [done|]. apply principles_spec. eauto.
  - intros Hin. apply principles_spec in Hin as (_ & f & Hf & Hp).
    destruct (Hcite f Hf) as (p & Hp' & _ & Hne & _). congruence.
  - intros Hin. apply principles_spec in Hin as (_ & f & Hf & Hp).
    destruct (Hcite f Hf) as (p & Hp' & _ & _ & Hne). congruence.
Qed.

(** ** The keys of the rate-limit store *)

Lemma chars_app a b : Text.chars (a +:+ b) = Text.chars a ++ Text.chars b.
Proof. induction a as [|c a IH]; [done|]. rewrite append_cons. simpl. by rewrite IH. Qed.

Lemma chars_inj a b : Text.chars a = Text.chars b -> a = b.
Proof.
  revert b. induction a as [|c a IH]; intros [|c' b] H; try done.
  simpl in H. injection H as -> H. by rewrite (IH b H).
Qed.

Lemma key_inj (c c' suffix : string) : c +:+ suffix = c' +:+ suffix -> c = c'.
Proof.
  intros H. apply chars_inj. apply (f_equal Text.chars) in H.
  rewrite !chars_app in H. by apply app_inv_tail in H.
Qed.

Lemma general_key_not_ai (c c' : string) : c +:+ ":general" <> c' +:+ ":ai".
Proof.
  intros H. apply (f_equal Text.chars) in H. rewrite !chars_app in H.
  change (Text.chars ":general") with (Text.chars ":genera" ++ ["l"%char]) in H.
  change (Text.chars ":ai") with (Text.chars ":a" ++ ["i"%char]) in H.
  rewrite !app_assoc in H. apply (f_equal last) in H. rewrite !last_snoc in H.
  discriminate H.
Qed.

Lemma limiters_frame maxRequests c c' now store :
  (c <> c' ->
     (Security.rateLimiter maxRequests c now store).1 !! (c' +:+ ":general")
     = store !! (c' +:+ ":general") /\
     (Security.aiRateLimiter c now store).1 !! (c' +:+ ":ai")
     = store !! (c' +:+ ":ai")) /\
  (Security.rateLimiter maxRequests c now store).1 !! (c' +:+ ":ai")
  = store !! (c' +:+ ":ai") /\
  (Security.aiRateLimiter c now store).1 !! (c' +:+ ":general")
  = store !! (c' +:+ ":general").
Proof.
  split_and!.
  - intros Hc. split.
    + apply rateLimiter_frame. intros H. by apply key_inj in H.
    + apply aiRateLimiter_frame. intros H. by apply key_inj in H.
  - apply rateLimiter_frame. intros H. symmetry in H. by apply general_key_not_ai in H.
  - apply aiRateLimiter_frame. apply general_key_not_ai.
Qed.

(** X7.  A request changes the entry of its own client and traffic class,
    and no other: neither another client's entry nor the same client's
    entry of the other class. *)
Lemma limiters_touch_own_entry maxRequests c c' now store :
  (c <> c' ->
     (Security.rateLimiter maxRequests c now store).1 !! (c' +:+ ":general")
     = store !! (c' +:+ ":general") /\
     (Security.aiRateLimiter c now store).1 !! (c' +:+ ":ai")
     = store !! (c' +:+ ":ai")) /\
  (Security.rateLimiter maxRequests c now store).1 !! (c' +:+ ":ai")
  = store !! (c' +:+ ":ai") /\
  (Security.aiRateLimiter c now store).1 !! (c' +:+ ":general")
  = store !! (c' +:+ ":general").
Proof.
  split; [|split].
  - intros Hc. split.
    + apply rateLimiter_frame. intros H. by apply key_inj in H.
    + apply aiRateLimiter_frame. intros H. by apply key_inj in H.
  - apply rateLimiter_frame. intros H. symmetry in H. by apply general_key_not_ai in H.
  - apply aiRateLimiter_frame. apply general_key_not_ai.
Qed.

Lemma limiters_touch_own_entry_witness :
  (Security.rateLimiter 10 "198.51.100.23" 0
     {[ "203.0.113.9:general" := {| Security.count := 3; Security.resetTime := 500 |} ]}).1
    !! ("203.0.113.9" +:+ ":general")
  = Some {| Security.count := 3; Security.resetTime := 500 |}.
Proof.
  destruct (limiters_touch_own_entry 10 "198.51.100.23" "203.0.113.9" 0
              {[ "203.0.113.9:general" :=
                   {| Security.count := 3; Security.resetTime := 500 |} ]})
    as [Hother _].
  destruct Hother as [Hg _]; [discriminate|].
  rewrite Hg. vm_compute. reflexivity.
Defined.

(** ** Counts and retry-after under arbitrary traffic *)

Section TrafficFacts.
Import Security Traffic.

Lemma window_step_within cap window t s :
  1 <= cap -> within cap s -> within cap (window_step cap window t s).1.
Proof.
  intros Hcap Hs. destruct s as [|c r]; simpl; [lia|].
  destruct (r <? t); simpl; [lia|].
  destruct (Z.ltb_spec c cap); simpl in *; lia.
Qed.

Lemma seen_counter key r : (seen key r).1 = counter_of (r.1 !! key).
Proof. done. Qed.

Lemma within_cleanup cap t store k :
  within cap (counter_of (store !! k)) -> within cap (counter_of (cleanup t store !! k)).
Proof.
  rewrite cleanup_lookup. destruct (store !! k) as [e|]; simpl; [|done].
  by destruct (resetTime e <? t).
Qed.

Lemma hit_capped maxRequests store h :
  1 <= maxRequests -> capped maxRequests store -> capped maxRequests (hit maxRequests store h).
Proof.
  intros Hcap Hstore c. destruct (Hstore c) as [Hg Ha].
  destruct h as [req now|req now|now]; simpl.
  - split.
    + destruct (decide (getClientId req = c)) as [<-|Hc].
      * rewrite <- seen_counter, rateLimiter_step. by apply window_step_within.
      * by destruct (limiters_frame maxRequests (getClientId req) c now store)
          as [Hother _]; destruct (Hother Hc) as [-> _].
    + by destruct (limiters_frame maxRequests (getClientId req) c now store)
        as (_ & -> & _).
  - split.
    + by destruct (limiters_frame maxRequests (getClientId req) c now store)
        as (_ & _ & ->).
    + destruct (decide (getClientId req = c)) as [<-|Hc].
      * rewrite <- seen_counter, aiRateLimiter_step. by apply window_step_within.
      * by destruct (limiters_frame maxRequests (getClientId req) c now store)
          as [Hother _]; destruct (Hother Hc) as [_ ->].
  - split; by apply within_cleanup.
Qed.

Lemma hits_capped maxRequests hs :
  1 <= maxRequests -> capped maxRequests (hits maxRequests hs).
Proof.
  intros Hcap. unfold hits.
  assert (capped maxRequests ∅) as H0.
  { intros c. by rewrite !lookup_empty. }
  revert H0. generalize (∅ : gmap string RateLimitEntry) as store.
  induction hs as [|h hs IH]; intros store Hstore; [done|].
  simpl. apply IH. by apply hit_capped.
Qed.

End TrafficFacts.

(** X8.  Whatever the traffic since process start, the count of an entry stays
    between 1 and the cap of its class. *)
Lemma counts_within_cap maxRequests hs c e :
  1 <= maxRequests ->
  (Traffic.hits maxRequests hs !! (c +:+ ":general") = Some e ->
     1 <= Security.count e <= maxRequests) /\
  (Traffic.hits maxRequests hs !! (c +:+ ":ai") = Some e ->
     1 <= Security.count e <= Security.MAX_AI_REQUESTS_PER_HOUR).
Proof.
  intros Hcap. destruct (hits_capped maxRequests hs Hcap c) as [Hg Ha].
  split; intros He.
  - by rewrite He in Hg.
  - by rewrite He in Ha.
Qed.

Lemma counts_within_cap_witness :
  1 <= Security.count {| Security.count := 10; Security.resetTime := 60000 |} <= 10.
Proof.
  destruct (counts_within_cap 10
              (replicate 25 (Traffic.General
                 {| forwarded := Some "198.51.100.23, 10.0.0.1";
                    remoteAddress := None |} 0))
              "198.51.100.23"
              {| Security.count := 10; Security.resetTime := 60000 |}) as [Hgeneral _]; [lia|].
  apply Hgeneral. vm_compute. reflexivity.
Defined.

Section RetryAfter.
Import Security Traffic.

Lemma hit_fresh_until maxRequests now store h :
  clock h <= now -> fresh_until now store -> fresh_until now (hit maxRequests store h).
Proof.
  intros Hclock Hstore c e. destruct (Hstore c e) as [Hg Ha].
  assert (forall c0 t w (s : Counter),
            t <= now ->
            (forall c r, s = Active c r -> r <= now + w) ->
            forall c r, (window_step c0 w t s).1 = Active c r -> r <= now + w) as Hstep.
  { intros c0 t w s Ht Hs c1 r. destruct s as [|c2 r2]; simpl.
    - intros [= <- <-]. lia.
    - specialize (Hs c2 r2 eq_refl). destruct (r2 <? t); simpl; [intros [= <- <-]; lia|].
      destruct (c2 <? c0); simpl; intros [= <- <-]; lia. }
  assert (forall k w, (forall e, store !! k = Some e -> resetTime e <= now + w) ->
                      forall c r, counter_of (store !! k) = Active c r -> r <= now + w)
    as Hview.
  { intros k w Hk c1 r. destruct (store !! k) as [e1|]; simpl; [|done].
    intros [= <- <-]. by apply Hk. }
  destruct h as [req t|req t|t]; simpl in *.
  - split.
    + destruct (decide (getClientId req = c)) as [<-|Hc].
      * intros He.
        pose proof (f_equal fst (rateLimiter_step maxRequests (getClientId req) t store))
          as Hseen.
        simpl in Hseen. rewrite He in Hseen. symmetry in Hseen.
        exact (Hstep maxRequests t RATE_LIMIT_WINDOW
                 (counter_of (store !! (getClientId req +:+ ":general"))) Hclock
                 (Hview _ _ (fun e => proj1 (Hstore (getClientId req) e)))
                 (count e) (resetTime e) Hseen).
      * destruct (limiters_frame maxRequests (getClientId req) c t store)
          as [Hother _]. destruct (Hother Hc) as [-> _]. exact Hg.
    + destruct (limiters_frame maxRequests (getClientId req) c t store)
        as (_ & -> & _). exact Ha.
  - split.
    + destruct (limiters_frame maxRequests (getClientId req) c t store)
        as (_ & _ & ->). exact Hg.
    + destruct (decide (getClientId req = c)) as [<-|Hc].
      * intros He.
        pose proof (f_equal fst (aiRateLimiter_step (getClientId req) t store)) as Hseen.
        simpl in Hseen. rewrite He in Hseen. symmetry in Hseen.
        exact (Hstep MAX_AI_REQUESTS_PER_HOUR t AI_LIMIT_WINDOW
                 (counter_of (store !! (getClientId req +:+ ":ai"))) Hclock
                 (Hview _ _ (fun e => proj2 (Hstore (getClientId req) e)))
                 (count e) (resetTime e) Hseen).
      * destruct (limiters_frame maxRequests (getClientId req) c t store)
          as [Hother _]. destruct (Hother Hc) as [_ ->]. exact Ha.
  - rewrite !cleanup_lookup. split; intros He.
    + destruct (store !! (c +:+ ":general")) as [e1|] eqn:E; [|done].
      destruct (resetTime e1 <? t); [done|]. injection He as ->. by apply (Hstore c).
    + destruct (store !! (c +:+ ":ai")) as [e1|] eqn:E; [|done].
      destruct (resetTime e1 <? t); [done|]. injection He as ->. by apply (Hstore c).
Qed.

Lemma hits_fresh_until maxRequests now hs :
  Forall (fun h => clock h <= now) hs -> fresh_until now (hits maxRequests hs).
Proof.
  intros Hhs. unfold hits.
  assert (fresh_until now ∅) as H0.
  { intros c e. by rewrite !lookup_empty. }
  revert H0. generalize (∅ : gmap string RateLimitEntry) as store.
  induction Hhs as [|h hs Hh Hhs IH]; intros store Hstore; [done|].
  simpl. apply IH. by apply hit_fresh_until.
Qed.

Lemma ceil_div_bounds x w :
  0 <= x <= w * 1000 -> 0 <= ceil_div x 1000 <= w.
Proof.
  intros Hx. unfold ceil_div.
  assert (- w <= (- x) / 1000) by (apply Z.div_le_lower_bound; lia).
  assert ((- x) / 1000 <= 0) by (apply Z.div_le_upper_bound; lia).
  lia.
Qed.

End RetryAfter.

(** X9.  As long as the clock has not run backwards, a denial tells the client to
    retry after no more than the length of the window: between 0 and 60
    seconds for the general limiter, between 0 and 3600 for the AI limiter. *)
Lemma retryAfter_within_window maxRequests hs req now r :
  Forall (fun h => Traffic.clock h <= now) hs ->
  ((Security.rateLimiter maxRequests (getClientId req) now (Traffic.hits maxRequests hs)).2
     = Security.Status429 (Some r) -> 0 <= r <= 60) /\
  ((Security.aiRateLimiter (getClientId req) now (Traffic.hits maxRequests hs)).2
     = Security.Status429 (Some r) -> 0 <= r <= 3600).
Proof.
  intros Hhs. pose proof (hits_fresh_until maxRequests now hs Hhs) as Hfresh.
  set (store := Traffic.hits maxRequests hs) in *.
  split.
  - unfold Security.rateLimiter.
    destruct (store !! (getClientId req +:+ ":general")) as [e|] eqn:E; [|done].
    destruct (Z.ltb_spec (Security.resetTime e) now); [done|].
    destruct (Security.count e >=? maxRequests); [|done]. simpl. intros [= <-].
    apply ceil_div_bounds. destruct (Hfresh (getClientId req) e) as [Hg _].
    specialize (Hg E). unfold Security.RATE_LIMIT_WINDOW in Hg. lia.
  - unfold Security.aiRateLimiter.
    destruct (store !! (getClientId req +:+ ":ai")) as [e|] eqn:E; [|done].
    destruct (Z.ltb_spec (Security.resetTime e) now); [done|].
    destruct (Security.count e >=? Security.MAX_AI_REQUESTS_PER_HOUR); [|done].
    simpl. intros [= <-].
    apply ceil_div_bounds. destruct (Hfresh (getClientId req) e) as [_ Ha].
    specialize (Ha E). unfold Security.AI_LIMIT_WINDOW in Ha. lia.
Qed.

Lemma retryAfter_within_window_witness :
  let req := {| forwarded := None; remoteAddress := Some "198.51.100.23" |} in
  let hs := replicate 10 (Traffic.General req 0) in
  (Security.rateLimiter 10 (getClientId req) 30000 (Traffic.hits 10 hs)).2
    = Security.Status429 (Some 30) /\
  0 <= 30 <= 60.
Proof.
  intros req hs.
  assert ((Security.rateLimiter 10 (getClientId req) 30000 (Traffic.hits 10 hs)).2
          = Security.Status429 (Some 30)) as Hdenied by (vm_compute; reflexivity).
  split; [exact Hdenied|].
  assert (Forall (fun h => Traffic.clock h <= 30000) hs) as Hclock.
  { apply Forall_replicate. simpl. lia. }
  destruct (retryAfter_within_window 10 hs req 30000 30 Hclock) as [Hgeneral _].
  exact (Hgeneral Hdenied).
Defined.

(** ** The budget of a window *)

Section Budget.
Import Security Traffic.





End Budget.



(** ** The cleanup timer *)

Section CleanupFacts.
Import Security.

(** X11.  The timer deletes the entries whose window has passed and leaves the
    others as they are; nothing is left for a second pass; and no limiter
    decides differently after it. *)
Lemma cleanup_transparent maxRequests clientId t now store :
  t <= now ->
  (forall k e, cleanup t store !! k = Some e <-> store !! k = Some e /\ t <= resetTime e) /\
  cleanup t (cleanup t store) = cleanup t store /\
  seen (clientId +:+ ":general") (rateLimiter maxRequests clientId now (cleanup t store))
  = seen (clientId +:+ ":general") (rateLimiter maxRequests clientId now store) /\
  seen (clientId +:+ ":ai") (aiRateLimiter clientId now (cleanup t store))
  = seen (clientId +:+ ":ai") (aiRateLimiter clientId now store).
Proof.
  intros Ht.
  assert (forall k e, cleanup t store !! k = Some e <->
                      store !! k = Some e /\ t <= resetTime e) as Hspec.
  { intros k e. rewrite cleanup_lookup. destruct (store !! k) as [e'|]; [|by split; [|intros [? _]]].
    destruct (Z.ltb_spec (resetTime e') t); split.
    - done.
    - intros [[= ->] ?]. lia.
    - intros [= ->]. done.
    - by intros [? _]. }
  split_and!.
  - exact Hspec.
  - apply map_eq. intros k. rewrite (cleanup_lookup t (cleanup t store)).
    destruct (cleanup t store !! k) as [e|] eqn:E; [|done].
    apply Hspec in E as [_ He]. by destruct (Z.ltb_spec (resetTime e) t); [lia|].
  - by apply cleanup_rateLimiter.
  - rewrite !aiRateLimiter_step, cleanup_lookup.
    destruct (store !! (clientId +:+ ":ai")) as [[c r]|]; simpl; [|done].
    destruct (Z.ltb_spec r t); simpl; [|done].
    destruct (Z.ltb_spec r now); [done|lia].
Qed.

End CleanupFacts.

Lemma cleanup_transparent_witness :
  Security.cleanup 300000
    (Security.cleanup 300000
       {[ "198.51.100.23:general" :=
            {| Security.count := 4; Security.resetTime := 60000 |} ]})
  = Security.cleanup 300000
      {[ "198.51.100.23:general" :=
           {| Security.count := 4; Security.resetTime := 60000 |} ]}.
Proof.
  destruct (cleanup_transparent 10 "198.51.100.23" 300000 300000
              {[ "198.51.100.23:general" :=
                   {| Security.count := 4; Security.resetTime := 60000 |} ]})
    as (_ & Hidem & _); [lia|].
  exact Hidem.
Defined.

(** ** The client identifier *)












(** ** The analytics reports *)

Section ReportFacts.
Import Analytics Reports.

Lemma sumCounts_empty : sumCounts ∅ = 0.
Proof. unfold sumCounts. by rewrite map_fold_empty. Qed.

Lemma sumCounts_insert_fresh k c (m : gmap string Z) :
  m !! k = None -> sumCounts (<[k := c]> m) = c + sumCounts m.
Proof.
  intros Hk. unfold sumCounts. rewrite map_fold_insert_L; [done| |done].
  intros. lia.
Qed.

(** Counting one more request of an endpoint adds one to the sum. *)
Lemma sumCounts_count k (m : gmap string Z) :
  sumCounts (<[k := default 0 (m !! k) + 1]> m) = sumCounts m + 1.
Proof.
  destruct (m !! k) as [c|] eqn:E; simpl.
  - rewrite <- (insert_delete_eq m k (c + 1)).
    rewrite <- (insert_delete_id m k c E) at 2.
    rewrite !sumCounts_insert_fresh by apply lookup_delete_eq. lia.
  - rewrite sumCounts_insert_fresh by done. lia.
Qed.

Lemma coherent_freshStats today : coherent (freshStats today).
Proof.
  unfold coherent, freshStats. cbn [aiRequests totalRequests uniqueIPs endpoints errors].
  split_and!; try lia.
  - by rewrite size_empty.
  - by rewrite sumCounts_empty.
  - apply map_Forall_empty.
Qed.

Lemma shift_Forall {A} (P : A -> Prop) (l : list A) : Forall P l -> Forall P (shift l).
Proof. destruct 1; simpl; [constructor|done]. Qed.

Lemma checkAndResetDaily_coherent now st :
  coherent_state st -> coherent_state (checkAndResetDaily now st).
Proof.
  intros [Hc Hh]. destruct (decide (date (currentDayStats st) = isoDate now)) as [E|E].
  - by rewrite checkAndResetDaily_same.
  - rewrite checkAndResetDaily_rollover by done. split; simpl.
    + apply coherent_freshStats.
    + assert (Forall coherent (historicalStats st ++ [currentDayStats st])) as Hall
        by (apply Forall_app; split; [done|by constructor]).
      destruct (30 <? _)%nat; [by apply shift_Forall|done].
Qed.

Lemma logRequest_coherent now req useAI st :
  coherent_state st -> coherent_state (logRequest now req useAI st).1.
Proof.
  intros H. apply (checkAndResetDaily_coherent now) in H as [Hc Hh].
  split; [|exact Hh]. unfold logRequest. simpl.
  destruct Hc as (Hai & Hips & Hne & Hsum & Hpos & Herr).
  unfold coherent. simpl. split_and!.
  - destruct useAI; lia.
  - destruct useAI; lia.
  - destruct (decide (clientIp req ∈ uniqueIPs (currentDayStats (checkAndResetDaily now st))))
      as [Hin|Hin].
    + rewrite (subseteq_union_1_L {[clientIp req]}) by by apply singleton_subseteq_l.
      lia.
    + rewrite size_union by by apply disjoint_singleton_l.
      rewrite size_singleton. lia.
  - intros _ Hempty. apply (not_elem_of_empty (C := gset string) (clientIp req)).
    rewrite <- Hempty. apply elem_of_union_l. by apply elem_of_singleton_2.
  - rewrite sumCounts_count. lia.
  - apply map_Forall_insert_2; [|done].
    destruct (endpoints _ !! path req) as [c|] eqn:E; simpl; [|lia].
    specialize (Hpos _ _ E). simpl in Hpos. lia.
  - done.
Qed.

Lemma step_coherent st e : coherent_state st -> coherent_state (step st e).
Proof.
  destruct e as [now|now req ai|log s dur|now]; simpl.
  - apply checkAndResetDaily_coherent.
  - apply logRequest_coherent.
  - intros [(Hai & Hips & Hne & Hsum & Hpos & Herr) Hh]. split; [|done].
    unfold coherent. simpl. split_and!; [lia|lia|done|done|done|done|].
    destruct (s >=? 400); lia.
  - apply checkAndResetDaily_coherent.
Qed.

Lemma run_snoc trace e st : run (trace ++ [e]) st = step (run trace st) e.
Proof. unfold run. by rewrite foldl_app. Qed.

Lemma run_coherent trace now0 : coherent_state (run trace (initial now0)).
Proof.
  induction trace as [|e trace IH] using rev_ind.
  - split; [apply coherent_freshStats|constructor].
  - rewrite run_snoc. by apply step_coherent.
Qed.

(** *** The request log and its objects *)

Lemma checkAndResetDaily_objects now st :
  objects (checkAndResetDaily now st) = objects st.
Proof. unfold checkAndResetDaily. by case_bool_decide. Qed.

Lemma checkAndResetDaily_logged now st : logged st -> logged (checkAndResetDaily now st).
Proof.
  unfold logged. by rewrite checkAndResetDaily_requestLogs, checkAndResetDaily_objects.
Qed.

Lemma newRef_fresh st : objects st !! newRef st = None.
Proof. apply not_elem_of_dom. unfold newRef. apply is_fresh. Qed.

Lemma shift_NoDup {A} (l : list A) : NoDup l -> NoDup (shift l).
Proof. destruct 1; simpl; [constructor|done]. Qed.

Lemma logRequest_logged now req useAI st :
  logged st -> logged (logRequest now req useAI st).1.
Proof.
  intros H. apply (checkAndResetDaily_logged now) in H as [Hnd Hall].
  unfold logRequest, logged. simpl.
  set (st' := checkAndResetDaily now st) in *.
  assert (NoDup (requestLogs st' ++ [newRef st'])) as Hnd'.
  { apply NoDup_app. split_and!; [done| |apply NoDup_singleton].
    intros ref Hin ->%list_elem_of_singleton.
    rewrite Forall_forall in Hall. destruct (Hall _ Hin) as [log Hlog].
    by rewrite newRef_fresh in Hlog. }
  assert (Forall (fun ref => is_Some (<[newRef st' := {|
            timestamp := now; ip := clientIp req; endpoint := path req;
            method := req_method req; useAI := useAI; userAgent := user_agent req;
            duration := None; status := None |}]> (objects st') !! ref))
            (requestLogs st' ++ [newRef st'])) as Hall'.
  { apply Forall_app. split.
    - eapply Forall_impl; [exact Hall|]. intros ref Href.
      apply lookup_insert_is_Some'. by right.
    - constructor; [|constructor]. apply lookup_insert_is_Some'. by left. }
  destruct (MAX_LOGS <? _)%nat; split; try done.
  - by apply shift_NoDup.
  - by apply shift_Forall.
Qed.

Lemma step_logged st e : logged st -> logged (step st e).
Proof.
  destruct e as [now|now req ai|log s dur|now]; simpl.
  - apply checkAndResetDaily_logged.
  - apply logRequest_logged.
  - intros [Hnd Hall]. split; simpl; [done|].
    eapply Forall_impl; [exact Hall|]. intros ref Href. by apply lookup_alter_is_Some.
  - apply checkAndResetDaily_logged.
Qed.

Lemma run_logged trace now0 : logged (run trace (initial now0)).
Proof.
  induction trace as [|e trace IH] using rev_ind.
  - split; simpl; constructor.
  - rewrite run_snoc. by apply step_logged.
Qed.

(** *** Slices *)

Lemma slice_from_last {A} n (l : list A) :
  0 < n -> reverse (slice_from (- n) l) = take (Z.to_nat n) (reverse l).
Proof.
  intros Hn. unfold slice_from. destruct (Z.ltb_spec (- n) 0); [|lia].
  rewrite reverse_drop.
  destruct (Z.le_gt_cases n (Z.of_nat (length l))).
  - rewrite Z.max_l by lia. f_equal. lia.
  - rewrite Z.max_r by lia. rewrite !take_ge; [done|rewrite length_reverse; lia..].
Qed.

Lemma slice_from_first {A} n (l : list A) :
  0 <= n -> slice_from n l = drop (Z.to_nat n) l.
Proof.
  intros Hn. unfold slice_from. destruct (Z.ltb_spec n 0); [lia|].
  destruct (Z.le_gt_cases n (Z.of_nat (length l))).
  - by rewrite Z.min_l by lia.
  - rewrite Z.min_r by lia. rewrite !drop_ge; [done|lia..].
Qed.

Lemma slice_to_first {A} n (l : list A) :
  0 <= n -> slice_to n l = take (Z.to_nat n) l.
Proof.
  intros Hn. unfold slice_to. destruct (Z.ltb_spec n 0); [lia|].
  destruct (Z.le_gt_cases n (Z.of_nat (length l))).
  - by rewrite Z.min_l by lia.
  - rewrite Z.min_r by lia. rewrite !take_ge; [done|lia..].
Qed.

Lemma slice_to_prefix {A} n (l : list A) : exists k, slice_to n l = take k l.
Proof. unfold slice_to. eauto. Qed.

(** *** The totals over all days *)

Lemma reduce_sum_snoc {A} (f : A -> Z) l x : reduce_sum f (l ++ [x]) = reduce_sum f l + f x.
Proof. unfold reduce_sum. by rewrite foldl_app. Qed.

Lemma reduce_sum_from {A} (f : A -> Z) l a :
  foldl (fun sum s => sum + f s) a l = a + reduce_sum f l.
Proof.
  unfold reduce_sum. revert a. induction l as [|y l IH]; intros a; simpl; [lia|].
  rewrite (IH (a + f y)), (IH (0 + f y)). lia.
Qed.

Lemma reduce_sum_cons {A} (f : A -> Z) x l : reduce_sum f (x :: l) = f x + reduce_sum f l.
Proof. unfold reduce_sum at 1. simpl. apply reduce_sum_from. Qed.

Lemma checkAndResetDaily_upTo f now st n :
  (forall today, f (freshStats today) = 0) ->
  0 <= f (currentDayStats st) -> Forall (fun d => 0 <= f d) (historicalStats st) ->
  upTo f st n -> upTo f (checkAndResetDaily now st) n.
Proof.
  intros f_fresh Hc Hh [Hle Heq].
  destruct (decide (date (currentDayStats st) = isoDate now)) as [E|E].
  - by rewrite checkAndResetDaily_same.
  - rewrite checkAndResetDaily_rollover by done. unfold upTo in *. simpl.
    rewrite f_fresh, length_app. simpl.
    destruct (Nat.ltb_spec 30 (length (historicalStats st) + 1)) as [Hfull|Hroom].
    + destruct (historicalStats st) as [|d h] eqn:Eh; simpl in *; [lia|].
      rewrite reduce_sum_cons in Hle. rewrite reduce_sum_snoc.
      apply Forall_cons in Hh as [Hd _]. rewrite length_app. simpl. split; lia.
    + rewrite reduce_sum_snoc, length_app. simpl. split; [lia|]. intros ?. lia.
Qed.

Lemma coherent_state_nonneg st :
  coherent_state st ->
  (0 <= totalRequests (currentDayStats st) /\
   Forall (fun d => 0 <= totalRequests d) (historicalStats st)) /\
  (0 <= aiRequests (currentDayStats st) /\
   Forall (fun d => 0 <= aiRequests d) (historicalStats st)).
Proof.
  intros [Hc Hh]. split; (split; [destruct Hc as (? & _); lia|]).
  - eapply Forall_impl; [exact Hh|]. intros d (? & _). lia.
  - eapply Forall_impl; [exact Hh|]. intros d (? & _). lia.
Qed.

Lemma step_upTo st e n m :
  coherent_state st ->
  upTo totalRequests st n -> upTo aiRequests st m ->
  upTo totalRequests (step st e) (n + (if isArrival false e then 1 else 0)) /\
  upTo aiRequests (step st e) (m + (if isArrival true e then 1 else 0)).
Proof.
  intros Hc Hn Hm. destruct (coherent_state_nonneg st Hc) as [[Ht Hts] [Ha Has]].
  assert (forall now, upTo totalRequests (checkAndResetDaily now st) n /\
                      upTo aiRequests (checkAndResetDaily now st) m) as Hcheck.
  { intros now. split; by apply checkAndResetDaily_upTo. }
  destruct e as [now|now req ai|log s dur|now]; simpl.
  - rewrite !Z.add_0_r. apply Hcheck.
  - destruct (Hcheck now) as [[Hn1 Hn2] [Hm1 Hm2]].
    unfold upTo, logRequest. simpl. destruct ai; split_and!; try lia.
    all: intros Hroom; specialize (Hn2 Hroom); specialize (Hm2 Hroom); lia.
  - rewrite !Z.add_0_r. done.
  - rewrite !Z.add_0_r. apply Hcheck.
Qed.

Lemma arrived_snoc trace e :
  arrived (trace ++ [e]) = arrived trace + (if isArrival false e then 1 else 0) /\
  arrivedAI (trace ++ [e]) = arrivedAI trace + (if isArrival true e then 1 else 0).
Proof.
  unfold arrived, arrivedAI. rewrite !filter_app, !length_app.
  rewrite !filter_cons, !filter_nil.
  destruct (isArrival false e), (isArrival true e); simpl; split; lia.
Qed.

Lemma run_upTo trace now0 :
  upTo totalRequests (run trace (initial now0)) (arrived trace) /\
  upTo aiRequests (run trace (initial now0)) (arrivedAI trace).
Proof.
  induction trace as [|e trace [IHn IHm]] using rev_ind.
  - by split; split.
  - destruct (arrived_snoc trace e) as [-> ->]. rewrite run_snoc.
    apply step_upTo; [apply run_coherent|done..].
Qed.

Lemma checkAndResetDaily_date now st :
  date (currentDayStats (checkAndResetDaily now st)) = isoDate now.
Proof.
  destruct (decide (date (currentDayStats st) = isoDate now)) as [E|E].
  - by rewrite checkAndResetDaily_same.
  - by rewrite checkAndResetDaily_rollover.
Qed.

Lemma logRequest_last now req useAI st :
  last (requestLogs (logRequest now req useAI st).1) = Some (logRequest now req useAI st).2.
Proof. unfold logRequest. simpl. apply push_shift_last. unfold MAX_LOGS. lia. Qed.

Lemma head_take {A} n (l : list A) : (0 < n)%nat -> head (take n l) = head l.
Proof. destruct n, l; simpl; (lia || done). Qed.

(** *** The errors *)

Lemma getRecentErrors_elem limit st ref :
  ref ∈ getRecentErrors limit st ->
  ref ∈ requestLogs st /\ from_option failed false (objects st !! ref) = true.
Proof.
  unfold getRecentErrors, slice_from. rewrite elem_of_reverse.
  intros Hin%(subseteq_drop _ _ _). by apply list_elem_of_filter in Hin as [? ?].
Qed.

Lemma failed_status log :
  failed log = true <-> exists s, status log = Some s /\ 400 <= s.
Proof.
  unfold failed. destruct (status log) as [s|]; [|split; [done|by intros (? & ? & ?)]].
  split.
  - intros [_ H]%andb_true_iff. exists s. split; [done|lia].
  - intros (s' & [= <-] & Hs). apply andb_true_iff. split; [|lia].
    apply negb_true_iff. lia.
Qed.

Lemma getRecentErrors_cases limit st :
  let errors :=
    filter (fun ref => from_option failed false (objects st !! ref) = true)
           (requestLogs st) in
  (0 < limit -> getRecentErrors limit st = take (Z.to_nat limit) (reverse errors)) /\
  (limit = 0 -> getRecentErrors limit st = reverse errors) /\
  (limit < 0 -> getRecentErrors limit st = reverse (drop (Z.to_nat (- limit)) errors)).
Proof.
  intros errors. split; [|split].
  - intros Hl. unfold getRecentErrors. by rewrite slice_from_last.
  - intros ->. unfold getRecentErrors. by rewrite slice_from_first.
  - intros Hl. unfold getRecentErrors. by rewrite slice_from_first by lia.
Qed.

(** *** The sort of [getTopEndpoints] *)

Lemma sort_insert_perm {A} (compareFn : A -> A -> Z) x l :
  sort_insert compareFn x l ≡ₚ x :: l.
Proof.
  induction l as [|y l IH]; simpl; [done|].
  destruct (compareFn x y <=? 0); [done|]. rewrite IH. apply Permutation_swap.
Qed.

Lemma array_sort_perm {A} (compareFn : A -> A -> Z) l : array_sort compareFn l ≡ₚ l.
Proof.
  induction l as [|x l IH]; [done|].
  change (array_sort compareFn (x :: l)) with (sort_insert compareFn x (array_sort compareFn l)).
  by rewrite sort_insert_perm, IH.
Qed.

Lemma sort_insert_byCount x l :
  StronglySorted (fun a b : string * Z => b.2 <= a.2) l ->
  StronglySorted (fun a b : string * Z => b.2 <= a.2) (sort_insert byCount x l).
Proof.
  induction 1 as [|y l Hl IH Hy]; simpl; [by repeat constructor|].
  unfold byCount at 1. destruct (Z.leb_spec (y.2 - x.2) 0).
  - constructor; [by constructor|]. constructor; [lia|].
    eapply Forall_impl; [exact Hy|]. simpl. intros z Hz. lia.
  - constructor; [done|]. rewrite sort_insert_perm. constructor; [lia|done].
Qed.

Lemma array_sort_byCount l :
  StronglySorted (fun a b : string * Z => b.2 <= a.2) (array_sort byCount l).
Proof.
  induction l as [|x l IH]; [constructor|].
  change (array_sort byCount (x :: l)) with (sort_insert byCount x (array_sort byCount l)).
  by apply sort_insert_byCount.
Qed.

End ReportFacts.

(** X13.  The report of a day that the module can reach is coherent: it bears
    the date of the moment it is asked for; the requests with AI and the
    distinct clients are no more than the requests; the counts of the
    endpoints are positive and add up to the requests; the history has at
    most 30 days, each with no more AI requests or clients than requests. *)
Lemma getAnalytics_coherent trace now0 now :
  let report :=
    (Reports.getAnalytics now (Analytics.run trace (Analytics.initial now0))).2 in
  let current := Reports.current report in
  Reports.current_date current = Analytics.isoDate now /\
  0 <= Reports.current_aiRequests current <= Reports.current_totalRequests current /\
  Z.of_nat (Reports.current_uniqueIPs current) <= Reports.current_totalRequests current /\
  (0 < Reports.current_totalRequests current -> (0 < Reports.current_uniqueIPs current)%nat) /\
  Reports.sumCounts (Reports.current_endpoints current)
  = Reports.current_totalRequests current /\
  map_Forall (fun _ count => 1 <= count) (Reports.current_endpoints current) /\
  (length (Reports.historical report) <= 30)%nat /\
  Forall (fun h =>
            0 <= Reports.historical_aiRequests h <= Reports.historical_totalRequests h /\
            Z.of_nat (Reports.historical_uniqueIPs h) <= Reports.historical_totalRequests h)
         (Reports.historical report).
Proof.
  intros report current.
  pose proof (run_coherent trace now0) as Hc.
  apply (checkAndResetDaily_coherent now) in Hc
    as [(Hai & Hips & Hne & Hsum & Hpos & Herr) Hh].
  pose proof (run_bounded trace now0) as Hb.
  apply (checkAndResetDaily_bounded now) in Hb as [_ Hb].
  subst report current. unfold Reports.getAnalytics. simpl.
  split; [apply checkAndResetDaily_date|].
  split; [done|]. split; [done|]. split.
  { intros Hpos'. specialize (Hne Hpos').
    destruct (size _) eqn:E; [|lia]. by apply size_empty_inv, leibniz_equiv in E. }
  split; [done|]. split; [done|]. split; [by rewrite length_map|].
  apply Forall_map. eapply Forall_impl; [exact Hh|].
  intros d (? & ? & _). by simpl.
Qed.

Lemma getAnalytics_coherent_witness :
  (0 < Reports.current_uniqueIPs
         (Reports.current (Reports.getAnalytics "2026-03-01T10:00:00Z"
            (Analytics.run [Analytics.Arrival "2026-03-01T09:00:00Z" analyzeRequest true]
                           (Analytics.initial "2026-03-01T08:00:00Z"))).2))%nat.
Proof.
  destruct (getAnalytics_coherent
              [Analytics.Arrival "2026-03-01T09:00:00Z" analyzeRequest true]
              "2026-03-01T08:00:00Z" "2026-03-01T10:00:00Z") as (_ & _ & _ & Hips & _).
  apply Hips. vm_compute. reflexivity.
Defined.

(** X14.  The totals over all days never count a request that was not logged,
    and while the history holds fewer than 30 days they are exact: the
    number of requests logged since the module was loaded, and the number of
    those that asked for AI.  (Beyond 30 days the oldest day is dropped from
    the history, and from the totals with it.) *)
Lemma getAnalytics_all_time trace now0 now :
  let report :=
    (Reports.getAnalytics now (Analytics.run trace (Analytics.initial now0))).2 in
  Reports.totalRequestsAllTime (Reports.summary report) <= Reports.arrived trace /\
  Reports.totalAIRequestsAllTime (Reports.summary report) <= Reports.arrivedAI trace /\
  ((length (Reports.historical report) < 30)%nat ->
   Reports.totalRequestsAllTime (Reports.summary report) = Reports.arrived trace /\
   Reports.totalAIRequestsAllTime (Reports.summary report) = Reports.arrivedAI trace).
Proof.
  intros report.
  destruct (run_upTo (trace ++ [Analytics.Report now]) now0) as [[Hn Hn'] [Hm Hm']].
  destruct (arrived_snoc trace (Analytics.Report now)) as [En Em].
  simpl in En, Em. rewrite Z.add_0_r in En, Em. rewrite En in Hn, Hn'. rewrite Em in Hm, Hm'.
  rewrite run_snoc in Hn, Hn', Hm, Hm'. simpl in Hn, Hn', Hm, Hm'.
  subst report. unfold Reports.getAnalytics. simpl. rewrite length_map.
  split; [done|]. split; [done|]. intros Hroom. split; [by apply Hn'|by apply Hm'].
Qed.

Lemma getAnalytics_all_time_witness :
  Reports.totalRequestsAllTime
    (Reports.summary (Reports.getAnalytics "2024-01-02T08:00:00Z"
                        (Analytics.run overMidnight (Analytics.initial "2024-01-01T08:00:00Z"))).2)
  = Reports.arrived overMidnight.
Proof.
  destruct (getAnalytics_all_time overMidnight "2024-01-01T08:00:00Z" "2024-01-02T08:00:00Z")
    as (_ & _ & Hexact).
  apply Hexact. vm_compute. lia.
Defined.

(** X15.  The recent requests of the report are the last 50 of the log, newest
    first, without repetition, each a log object that exists; a request
    that has just been logged is the first of them. *)
Lemma getAnalytics_recent trace now0 now :
  let st := Analytics.run trace (Analytics.initial now0) in
  let report := (Reports.getAnalytics now st).2 in
  Reports.recent report = take 50 (reverse (Analytics.requestLogs st)) /\
  length (Reports.recent report) = (50 `min` length (Analytics.requestLogs st))%nat /\
  NoDup (Reports.recent report) /\
  Forall (fun ref => is_Some (Analytics.objects st !! ref)) (Reports.recent report) /\
  forall at_ req useAI,
    head (Reports.recent
            (Reports.getAnalytics now (Analytics.logRequest at_ req useAI st).1).2)
    = Some (Analytics.logRequest at_ req useAI st).2.
Proof.
  intros st report.
  assert (forall st', Reports.recent (Reports.getAnalytics now st').2
                      = take 50 (reverse (Analytics.requestLogs st'))) as Hrecent.
  { intros st'. unfold Reports.getAnalytics. simpl.
    rewrite checkAndResetDaily_requestLogs. by apply (slice_from_last 50). }
  destruct (run_logged trace now0) as [Hnd Hall]. fold st in Hnd, Hall.
  subst report. rewrite Hrecent. split; [done|]. split.
  { rewrite length_take, length_reverse. lia. }
  split.
  { eapply sublist_NoDup; [|apply sublist_take]. by rewrite reverse_Permutation. }
  split.
  { apply Forall_take. by apply Forall_reverse. }
  intros at_ req useAI. rewrite Hrecent, head_take by lia.
  rewrite head_reverse. apply logRequest_last.
Qed.

(** X16.  [getRecentErrors] returns entries of the log that were answered with
    a status of 400 or more: for a positive limit the newest [limit] of
    them, newest first; for the limit 0 all of them, not none; for a
    negative limit all but the oldest [-limit]. *)
Lemma getRecentErrors_spec limit st :
  let errors :=
    filter (fun ref => from_option Reports.failed false (Analytics.objects st !! ref) = true)
           (Analytics.requestLogs st) in
  (0 < limit -> Reports.getRecentErrors limit st = take (Z.to_nat limit) (reverse errors)) /\
  (limit = 0 -> Reports.getRecentErrors limit st = reverse errors) /\
  (limit < 0 ->
   Reports.getRecentErrors limit st = reverse (drop (Z.to_nat (- limit)) errors)) /\
  (forall ref, ref ∈ Reports.getRecentErrors limit st ->
     ref ∈ Analytics.requestLogs st /\
     exists log s, Analytics.objects st !! ref = Some log /\
                   Analytics.status log = Some s /\ 400 <= s).
Proof.
  intros errors. destruct (getRecentErrors_cases limit st) as (Hpos & Hzero & Hneg).
  split; [exact Hpos|]. split; [exact Hzero|]. split; [exact Hneg|].
  intros ref [Hin Hfailed]%getRecentErrors_elem. split; [done|].
  destruct (Analytics.objects st !! ref) as [log|]; [|done].
  apply failed_status in Hfailed as (s & Hs & H400). by exists log, s.
Qed.

Lemma getRecentErrors_spec_witness :
  Reports.getRecentErrors 20
    (Analytics.logResponse 0 500 12
       (Analytics.logRequest "2026-03-01T09:00:00Z" analyzeRequest true
          (Analytics.initial "2026-03-01T08:00:00Z")).1)
  = [0%nat].
Proof.
  destruct (getRecentErrors_spec 20
              (Analytics.logResponse 0 500 12
                 (Analytics.logRequest "2026-03-01T09:00:00Z" analyzeRequest true
                    (Analytics.initial "2026-03-01T08:00:00Z")).1)) as [Hpos _].
  rewrite Hpos by lia. vm_compute. reflexivity.
Defined.

(** X17.  A request that is logged and then answered is, for every limit that
    is not negative, the first of the recent errors if its status is 400 or
    more, and is not among them otherwise. *)
Lemma getRecentErrors_newest now req useAI status duration limit st :
  0 <= limit ->
  let logged := Analytics.logRequest now req useAI st in
  let st' := Analytics.logResponse logged.2 status duration logged.1 in
  (400 <= status -> head (Reports.getRecentErrors limit st') = Some logged.2) /\
  (status < 400 -> logged.2 ∉ Reports.getRecentErrors limit st').
Proof.
  intros Hlimit logged st'.
  assert (exists log, Analytics.objects st' !! logged.2 = Some log /\
                      Analytics.status log = Some status) as (log & Hlog & Hstatus).
  { subst st' logged. unfold Analytics.logResponse, Analytics.logRequest. simpl.
    rewrite lookup_alter_eq, lookup_insert_eq. simpl. eauto. }
  split.
  - intros H400.
    destruct (proj1 (last_Some _ _) (logRequest_last now req useAI st)) as [l Hl].
    assert (Analytics.requestLogs st' = l ++ [logged.2]) as Hlogs by exact Hl.
    assert (exists errors,
      filter (fun ref => from_option Reports.failed false (Analytics.objects st' !! ref) = true)
             (Analytics.requestLogs st') = errors ++ [logged.2]) as [errors Herrors].
    { rewrite Hlogs, filter_app. eexists. f_equal.
      rewrite filter_cons, filter_nil. rewrite decide_True; [done|].
      rewrite Hlog. simpl. apply failed_status. eauto. }
    destruct (getRecentErrors_cases limit st') as (Hpos & Hzero & _).
    destruct (decide (limit = 0)) as [->|Hne].
    + rewrite Hzero by done. rewrite Herrors, reverse_snoc. done.
    + rewrite Hpos by lia. rewrite Herrors, reverse_snoc.
      destruct (Z.to_nat limit) eqn:E; [lia|done].
  - intros Hok [_ Hfailed]%getRecentErrors_elem. rewrite Hlog in Hfailed. simpl in Hfailed.
    apply failed_status in Hfailed as (s & Hs & H400). rewrite Hstatus in Hs.
    injection Hs as <-. lia.
Qed.

Lemma getRecentErrors_newest_witness :
  head (Reports.getRecentErrors 0
          (Analytics.logResponse
             (Analytics.logRequest "2026-03-01T09:00:00Z" analyzeRequest true
                (Analytics.initial "2026-03-01T08:00:00Z")).2 429 3
             (Analytics.logRequest "2026-03-01T09:00:00Z" analyzeRequest true
                (Analytics.initial "2026-03-01T08:00:00Z")).1))
  = Some (Analytics.logRequest "2026-03-01T09:00:00Z" analyzeRequest true
            (Analytics.initial "2026-03-01T08:00:00Z")).2.
Proof.
  destruct (getRecentErrors_newest "2026-03-01T09:00:00Z" analyzeRequest true 429 3 0
              (Analytics.initial "2026-03-01T08:00:00Z")) as [Hfirst _]; [lia|].
  apply Hfirst. lia.
Defined.

(** X18.  [getTopEndpoints], in whatever order the [Map] enumerates its entries:
    for a limit that is not negative it returns [limit] endpoints of the
    current day, or all if there are fewer; each endpoint once, with its
    own count; by count, largest first; and no endpoint that is left out
    has a larger count than one that is returned. *)
Lemma getTopEndpoints_spec (entries : gmap string Z -> list (string * Z)) limit st :
  (forall m, entries m ≡ₚ map_to_list m) ->
  let top := Reports.getTopEndpoints entries limit st in
  let counts := Analytics.endpoints (Analytics.currentDayStats st) in
  (0 <= limit -> length top = (Z.to_nat limit `min` size counts)%nat) /\
  NoDup (map Reports.ec_endpoint top) /\
  (forall e, e ∈ top -> counts !! Reports.ec_endpoint e = Some (Reports.ec_count e)) /\
  StronglySorted (fun a b => Reports.ec_count b <= Reports.ec_count a) top /\
  (forall endpoint count e,
     counts !! endpoint = Some count -> endpoint ∉ map Reports.ec_endpoint top ->
     e ∈ top -> count <= Reports.ec_count e).
Proof.
  intros Hentries top counts.
  set (mk := fun '(endpoint, count) =>
               {| Reports.ec_endpoint := endpoint; Reports.ec_count := count |}).
  set (sorted := array_sort Reports.byCount (entries counts)).
  assert (sorted ≡ₚ map_to_list counts) as Hperm
    by (unfold sorted; by rewrite array_sort_perm).
  assert (StronglySorted (fun a b : string * Z => b.2 <= a.2) sorted) as Hsorted
    by apply array_sort_byCount.
  assert (top = map mk (Reports.slice_to limit sorted)) as Htop by done.
  destruct (slice_to_prefix limit sorted) as [k Hk].
  assert (forall l, map Reports.ec_endpoint (map mk l) = l.*1) as Hfst.
  { intros l. rewrite map_map. apply map_ext. by intros [??]. }
  assert (NoDup sorted.*1) as Hnd by (rewrite Hperm; apply NoDup_fst_map_to_list).
  rewrite <- (take_drop k sorted) in Hnd, Hsorted.
  split; [|split; [|split; [|split]]].
  - intros Hlimit. rewrite Htop, length_map, slice_to_first, length_take by done.
    by rewrite Hperm, length_map_to_list.
  - rewrite Htop, Hfst, Hk. rewrite fmap_app in Hnd. by apply NoDup_app in Hnd as [? _].
  - intros e. rewrite Htop, Hk. intros ([endpoint count] & -> & Hin)%list_elem_of_fmap.
    simpl. apply elem_of_map_to_list. rewrite <- Hperm.
    by apply (subseteq_take k) in Hin.
  - rewrite Htop, Hk. apply StronglySorted_app_1_l in Hsorted. clear -Hsorted.
    induction Hsorted as [|[e c] l Hl IH Hall]; simpl; constructor; [done|].
    apply Forall_map. eapply Forall_impl; [exact Hall|]. by intros [??].
  - intros endpoint count e Hcount Hout. rewrite Htop, Hk.
    intros ([endpoint' count'] & -> & Hin)%list_elem_of_fmap. simpl.
    apply elem_of_map_to_list in Hcount. rewrite <- Hperm in Hcount.
    rewrite <- (take_drop k sorted) in Hcount. apply elem_of_app in Hcount as [Hcount|Hcount].
    + exfalso. apply Hout. rewrite Htop, Hfst, Hk.
      apply list_elem_of_fmap. by exists (endpoint, count).
    + by apply (StronglySorted_app_1_elem_of _ _ _ _ _ Hsorted Hin Hcount).
Qed.

Lemma getTopEndpoints_spec_witness :
  length (Reports.getTopEndpoints map_to_list 10
            (Analytics.run overMidnight (Analytics.initial "2024-01-01T08:00:00Z")))
  = (Z.to_nat 10 `min`
     size (Analytics.endpoints
             (Analytics.currentDayStats
                (Analytics.run overMidnight (Analytics.initial "2024-01-01T08:00:00Z")))))%nat.
Proof.
  destruct (getTopEndpoints_spec map_to_list 10
              (Analytics.run overMidnight (Analytics.initial "2024-01-01T08:00:00Z")))
    as [Hlength _]; [done|].
  apply Hlength. lia.
Defined.

(** ** The routes of flows *)

Section RouteFacts.
Import Routes.
Variable JS_String : option JSON -> string.
Hypothesis JS_String_string : forall s, JS_String (Some (JString s)) = s.

Lemma cleanStep_run s n :
  exists st n', cleanStep JS_String s n = (Ok st, n') /\ (n <= n')%nat /\
                stepOf JS_String n n' s st.
Proof.
  unfold cleanStep, stepOf, mbind, M_bind, mret, M_ret, randomUUID.
  destruct (get "id" (Some s)) as [[]|] eqn:E; simpl; do 2 eexists;
    (split; [reflexivity|]); (split; [lia|]); (split; [reflexivity|]); try reflexivity.
  all: exists n; split; [lia|]; simpl; by rewrite JS_String_string.
Qed.

Lemma stepOf_mono n n' m m' s st :
  (m <= n)%nat -> (n' <= m')%nat -> stepOf JS_String n n' s st -> stepOf JS_String m m' s st.
Proof.
  intros Hm Hm' [Ht Hid]. split; [done|].
  destruct (get "id" (Some s)) as [[]|]; try done.
  all: destruct Hid as (u & Hu & Hid); exists u; split; [lia|done].
Qed.

Lemma cleanSteps_run l : forall n,
  exists steps n',
    array_map (cleanStep JS_String) l n = (Ok steps, n') /\ (n <= n')%nat /\
    Forall2 (stepOf JS_String n n') l steps /\ (l = [] -> n' = n).
Proof.
  induction l as [|s l IH]; intros n.
  - exists [], n. split; [reflexivity|]. split; [lia|]. split; [constructor|done].
  - destruct (cleanStep_run s n) as (st & n1 & Hst & Hn1 & Hof).
    destruct (IH n1) as (steps & n2 & Hsteps & Hn2 & Hall & _).
    exists (st :: steps), n2. split.
    { simpl. unfold mbind, M_bind at 1. rewrite Hst.
      unfold mbind, M_bind at 1. by rewrite Hsteps. }
    split; [lia|]. split; [|done]. constructor.
    + apply (stepOf_mono n n1); [lia..|done].
    + eapply Forall2_impl; [exact Hall|]. intros s' st'. apply stepOf_mono; lia.
Qed.

Lemma filter_Exists {A} (P : A -> Prop) `{forall x, Decision (P x)} (l : list A) :
  filter P l <> [] <-> Exists P l.
Proof.
  rewrite Exists_exists. split.
  - destruct (filter P l) as [|x l'] eqn:E; [done|]. intros _. exists x.
    assert (x ∈ filter P l) as Hx by (rewrite E; apply list_elem_of_here).
    apply list_elem_of_filter in Hx as [? ?]. done.
  - intros (x & Hin & HP) E. assert (x ∈ filter P l) as Hx by by apply list_elem_of_filter.
    rewrite E in Hx. by apply elem_of_nil in Hx.
Qed.

(** The handler of [POST /flows], case by case. *)
Lemma postFlows_cases now body flows n :
  (exists error, postFlows JS_String now body flows n = (Ok (FlowError 400 error, flows), n) /\
                 forall g items, ~ accepted JS_String body g items) \/
  (exists g items cleanedSteps n',
     accepted JS_String body g items /\ (n <= n')%nat /\ cleanedSteps <> [] /\
     Forall2 (stepOf JS_String n n')
             (filter (fun s => hasText JS_String s = true) items) cleanedSteps /\
     postFlows JS_String now body flows n
     = (Ok (FlowJson {| flow_id := UUID_text n'; goal := Text.trim g;
                        steps := cleanedSteps; createdAt := now; updatedAt := now;
                        source := Some manual; sourceUrl := None |},
            <[UUID_text n' :=
                {| flow_id := UUID_text n'; goal := Text.trim g;
                   steps := cleanedSteps; createdAt := now; updatedAt := now;
                   source := Some manual; sourceUrl := None |}]> flows), S n')).
Proof.
  unfold postFlows, accepted.
  destruct (get "goal" body) as [goal|] eqn:Egoal;
    [|left; eexists; split; [reflexivity|]; by intros g items (? & _)].
  destruct goal as [|b|x|g|l|fs];
    try (left; eexists; split; [reflexivity|]; by intros g' items (? & _)).
  simpl. case_bool_decide as Hg; simpl.
  { left. eexists. split; [reflexivity|]. intros g' items ([= <-] & Hne & _). done. }
  destruct (get "steps" body) as [steps|] eqn:Esteps;
    [|left; eexists; split; [reflexivity|]; by intros g' items (_ & _ & ? & _)].
  destruct steps as [|b|x|s|items|fs];
    try (left; eexists; split; [reflexivity|]; by intros g' items' (_ & _ & ? & _)).
  destruct (Nat.eqb_spec (length items) 0) as [Hlen|Hlen].
  { left. eexists. split; [reflexivity|]. intros g' items' (_ & _ & [= <-] & Hex).
    apply nil_length_inv in Hlen. subst items. by apply Exists_nil in Hex. }
  destruct (cleanSteps_run (filter (fun s => hasText JS_String s = true) items) n)
    as (cleaned & n' & Hrun & Hn' & Hall & Hnil).
  unfold mbind, M_bind. rewrite !Hrun. cbv beta iota.
  destruct (Nat.eqb_spec (length cleaned) 0) as [Hcl|Hcl].
  - left. apply nil_length_inv in Hcl. subst cleaned. apply Forall2_nil_inv_r in Hall.
    rewrite (Hnil Hall). eexists. split; [reflexivity|].
    intros g' items' (_ & _ & [= <-] & Hex).
    by apply (proj2 (filter_Exists (fun s => hasText JS_String s = true) items)) in Hex.
  - right. exists g, items, cleaned, n'. split.
    { split; [done|]. split; [done|]. split; [done|].
      apply (proj1 (filter_Exists (fun s => hasText JS_String s = true) items)).
      intros E. rewrite E in Hall. apply Forall2_nil_inv_l in Hall. by subst cleaned. }
    split; [done|]. split; [by intros ->|]. split; [done|]. reflexivity.
Qed.

Lemma hasText_text s :
  hasText JS_String s = true -> Text.trim (JS_String (get "text" (Some s))) <> EmptyString.
Proof.
  unfold hasText. intros [_ Hlen]%andb_true_iff Hempty. rewrite Hempty in Hlen. done.
Qed.

End RouteFacts.



(** X20.  A flow that [POST /flows] has created is the one that [GET /flows/:id]
    returns for its identifier; it replaces no flow - every flow stored
    before is still returned as it was - and it has at least one step and
    no step with a blank text.  A request that is refused changes nothing. *)
Lemma postFlows_stored JS_String now body flows n reply flows' n' :
  (forall s, JS_String (Some (Routes.JString s)) = s) ->
  Routes.issued flows n ->
  Routes.postFlows JS_String now body flows n = (Ok (reply, flows'), n') ->
  Routes.issued flows' n' /\
  (forall id old, flows !! id = Some old -> Routes.getFlow id flows' = Routes.FlowJson old) /\
  match reply with
  | Routes.FlowJson flow =>
      Routes.getFlow (flow_id flow) flows' = Routes.FlowJson flow /\
      Routes.getFlow (flow_id flow) flows = Routes.FlowError 404 "Flow not found" /\
      Routes.wellFormed (flow_id flow) flow
  | Routes.FlowError status _ => status = 400 /\ flows' = flows /\ n' = n
  end.
Proof.
  intros Hs Hissued Hpost.
  destruct (postFlows_cases JS_String Hs now body flows n)
    as [(error & Hrun & Hnot)|(g & items & cleaned & m & Hacc & Hn & Hne & Hall & Hrun)];
    rewrite Hrun in Hpost; injection Hpost as <- <- <-.
  - split; [done|]. split; [|done]. intros id old Hold. unfold Routes.getFlow. by rewrite Hold.
  - assert (flows !! Routes.UUID_text m = None) as Hfresh.
    { destruct (flows !! Routes.UUID_text m) as [old|] eqn:E; [|done].
      destruct (Hissued (Routes.UUID_text m)) as (u & Hu & Heq); [by rewrite E|].
      apply (inj pretty) in Heq. lia. }
    split; [|split; [|split; [|split]]].
    + intros id [flow Hflow]. destruct (decide (Routes.UUID_text m = id)) as [<-|Hne'].
      * exists m. split; [lia|done].
      * rewrite lookup_insert_ne in Hflow by done.
        destruct (Hissued id) as (u & Hu & Heq); [by rewrite Hflow|].
        exists u. split; [lia|done].
    + intros id old Hold. unfold Routes.getFlow.
      rewrite lookup_insert_ne; [by rewrite Hold|]. intros <-. by rewrite Hfresh in Hold.
    + unfold Routes.getFlow. simpl. by rewrite lookup_insert_eq.
    + unfold Routes.getFlow. simpl. by rewrite Hfresh.
    + split; [done|]. split; [done|]. simpl.
      assert (Forall (fun s => Routes.hasText JS_String s = true)
                (filter (fun s => Routes.hasText JS_String s = true) items)) as Hfilter.
      { apply Forall_forall. by intros s [? _]%list_elem_of_filter. }
      revert Hfilter. clear -Hall. induction Hall as [|s st l k [Ht _] _ IH]; [constructor|].
      intros [Hstep Hrest]%Forall_cons. constructor; [|by apply IH].
      rewrite Ht. by apply hasText_text.
Qed.

Lemma postFlows_stored_witness :
  Routes.getFlow "0"
    (<["1" := {| flow_id := "1"; goal := "approve posts";
                 steps := [ {| step_id := "a"; text := "AI generates content" |} ];
                 createdAt := "2026-03-01T09:00:00Z"; updatedAt := "2026-03-01T09:00:00Z";
                 source := Some manual; sourceUrl := None |}]> {[ "0" := browseFlow ]})
  = Routes.FlowJson browseFlow.
Proof.
  assert (Routes.issued {[ "0" := browseFlow ]} 1) as Hissued.
  { intros id [flow Hflow]. apply lookup_singleton_Some in Hflow as [<- _].
    exists 0%nat. split; [lia|reflexivity]. }
  destruct (postFlows_stored
              (fun v => match v with Some (Routes.JString s) => s | _ => "[object Object]" end)
              "2026-03-01T09:00:00Z"
              (Some (Routes.JObject
                 [("goal", Routes.JString "approve posts");
                  ("steps", Routes.JArray
                     [Routes.JObject [("id", Routes.JString "a");
                                      ("text", Routes.JString "AI generates content")]])]))
              {[ "0" := browseFlow ]} 1%nat
              (Routes.FlowJson
                 {| flow_id := "1"; goal := "approve posts";
                    steps := [ {| step_id := "a"; text := "AI generates content" |} ];
                    createdAt := "2026-03-01T09:00:00Z"; updatedAt := "2026-03-01T09:00:00Z";
                    source := Some manual; sourceUrl := None |})
              (<["1" := {| flow_id := "1"; goal := "approve posts";
                 steps := [ {| step_id := "a"; text := "AI generates content" |} ];
                 createdAt := "2026-03-01T09:00:00Z"; updatedAt := "2026-03-01T09:00:00Z";
                 source := Some manual; sourceUrl := None |}]> {[ "0" := browseFlow ]})
              2%nat) as (_ & Hkept & _); [done|exact Hissued|vm_compute; reflexivity|].
  apply Hkept. apply lookup_singleton_eq.
Defined.

(** ** The analysis of a stored flow *)

Lemma performFlowAnalysis_total AI_ENABLED flow useAI ai n :
  exists body n',
    performFlowAnalysis AI_ENABLED flow useAI ai n = (Json body, n') /\
    aiEnhanced body = useAI && AI_ENABLED.
Proof.
  destruct (runHybridAnalysis_total AI_ENABLED flow useAI ai n) as (fs & n' & Hrun).
  unfold performFlowAnalysis. rewrite Hrun. by do 2 eexists.
Qed.

Lemma aiRateLimiter_counts clientId now store store' :
  Security.aiRateLimiter clientId now store = (store', Security.Next) ->
  exists e, store' !! (clientId +:+ ":ai") = Some e /\
            (Security.count e = 1 \/
             exists e0, store !! (clientId +:+ ":ai") = Some e0 /\
                        Security.count e = Security.count e0 + 1).
Proof.
  unfold Security.aiRateLimiter.
  destruct (store !! (clientId +:+ ":ai")) as [e0|] eqn:E.
  - destruct (Security.resetTime e0 <? now).
    + intros [= <-]. eexists. rewrite lookup_insert_eq. split; [done|]. by left.
    + destruct (Security.count e0 >=? Security.MAX_AI_REQUESTS_PER_HOUR); [done|].
      intros [= <-]. eexists. rewrite lookup_insert_eq. split; [done|]. right. eauto.
  - intros [= <-]. eexists. rewrite lookup_insert_eq. split; [done|]. by left.
Qed.

Lemma aiRateLimiter_denies clientId now store store' retryAfter :
  Security.aiRateLimiter clientId now store = (store', Security.Status429 retryAfter) ->
  store' = store.
Proof.
  unfold Security.aiRateLimiter.
  destruct (store !! (clientId +:+ ":ai")) as [e0|]; [|done].
  destruct (Security.resetTime e0 <? now); [done|].
  destruct (Security.count e0 >=? Security.MAX_AI_REQUESTS_PER_HOUR); [|done].
  by intros [= <-].
Qed.

(** X21.  A request for a flow that is not stored is answered 404, and a
    request that does not ask for AI - whose [ai] parameter is not the
    string "true" - is answered with the analysis of the evaluator alone:
    neither touches the hourly limiter or the daily counter, and the
    analysis is not marked as enhanced, whatever the AI source would say. *)
Lemma analyzeFlow_without_ai AI_ENABLED id ai req now now' outcome st n :
  ai <> Some "true" \/ Routes.flows st !! id = None ->
  exists reply n',
    Routes.analyzeFlow AI_ENABLED id ai req now now' outcome st n = (reply, [], st, n') /\
    match Routes.flows st !! id with
    | None => reply = Routes.NotFound /\ n' = n
    | Some flow =>
        exists body,
          reply = Routes.Analyzed (Json body) /\
          (forall outcome',
             performFlowAnalysis AI_ENABLED flow false outcome' n = (Json body, n')) /\
          aiEnhanced body = false
    end.
Proof.
  intros Hai. unfold Routes.analyzeFlow.
  destruct (Routes.flows st !! id) as [flow|] eqn:E; [|by do 2 eexists].
  destruct Hai as [Hai|?]; [|done]. rewrite bool_decide_eq_false_2 by done.
  destruct (performFlowAnalysis_total AI_ENABLED flow false outcome n)
    as (body & n' & Hrun & Henh).
  assert (forall outcome', performFlowAnalysis AI_ENABLED flow false outcome' n
                           = performFlowAnalysis AI_ENABLED flow false outcome n) as Hsame.
  { intros outcome'. unfold performFlowAnalysis. by rewrite !runHybridAnalysis_rule_only. }
  rewrite Hrun. exists (Routes.Analyzed (Json body)), n'. split; [done|].
  exists body. split; [done|]. split; [|done]. intros outcome'. by rewrite Hsame.
Qed.

Lemma analyzeFlow_without_ai_witness :
  exists reply n',
    Routes.analyzeFlow true "0" (Some "false")
      {| forwarded := None; remoteAddress := Some "198.51.100.23" |} 0 0
      (Rejects "unavailable")
      {| Routes.flows := {[ "0" := browseFlow ]};
         Routes.rateLimitStore := ∅; Routes.costTracker := ∅ |} 1%nat
    = (reply, [],
       {| Routes.flows := {[ "0" := browseFlow ]};
          Routes.rateLimitStore := ∅; Routes.costTracker := ∅ |}, n').
Proof.
  destruct (analyzeFlow_without_ai true "0" (Some "false")
              {| forwarded := None; remoteAddress := Some "198.51.100.23" |} 0 0
              (Rejects "unavailable")
              {| Routes.flows := {[ "0" := browseFlow ]};
                 Routes.rateLimitStore := ∅; Routes.costTracker := ∅ |} 1%nat)
    as (reply & n' & Hrun & _); [left; discriminate|].
  by exists reply, n'.
Defined.

(** X22.  A request for an analysis with AI passes the hourly limiter of its
    client first and the daily counter second.  Refused by the limiter, it
    changes nothing: the daily counter is not touched.  Refused by the
    daily counter, it has been counted by the limiter all the same: it has
    used one of the hourly requests of its client.  In both cases no
    analysis is made; past both, the analysis is made and does not fail.
    The flows are never changed. *)
Lemma analyzeFlow_with_ai AI_ENABLED id flow req now now' outcome st n :
  Routes.flows st !! id = Some flow ->
  exists reply out st' n',
    Routes.analyzeFlow AI_ENABLED id (Some "true") req now now' outcome st n
    = (reply, out, st', n') /\
    Routes.flows st' = Routes.flows st /\
    match Security.aiRateLimiter (getClientId req) now (Routes.rateLimitStore st),
          Security.trackCost now' (Routes.costTracker st) with
    | (_, Security.Status429 retryAfter), _ =>
        reply = Routes.TooMany retryAfter /\ out = [] /\ st' = st /\ n' = n
    | (limited, Security.Next), (tracked, Security.Status429 retryAfter, lines) =>
        reply = Routes.TooMany retryAfter /\ out = lines /\ n' = n /\
        Routes.rateLimitStore st' = limited /\ Routes.costTracker st' = tracked /\
        exists e, limited !! (getClientId req +:+ ":ai") = Some e /\
                  (Security.count e = 1 \/
                   exists e0, Routes.rateLimitStore st !! (getClientId req +:+ ":ai") = Some e0 /\
                              Security.count e = Security.count e0 + 1)
    | (limited, Security.Next), (tracked, Security.Next, lines) =>
        out = lines /\
        Routes.rateLimitStore st' = limited /\ Routes.costTracker st' = tracked /\
        exists body,
          reply = Routes.Analyzed (Json body) /\
          performFlowAnalysis AI_ENABLED flow true outcome n = (Json body, n') /\
          aiEnhanced body = AI_ENABLED
    end.
Proof.
  intros Hflow. unfold Routes.analyzeFlow. rewrite Hflow.
  rewrite bool_decide_eq_true_2 by done.
  destruct (Security.aiRateLimiter (getClientId req) now (Routes.rateLimitStore st))
    as [limited [|retryAfter]] eqn:Elimit.
  - destruct (Security.trackCost now' (Routes.costTracker st))
      as [[tracked [|retryAfter]] lines] eqn:Ecost.
    + destruct (performFlowAnalysis_total AI_ENABLED flow true outcome n)
        as (body & n' & Hrun & Henh).
      rewrite Hrun. do 4 eexists. split; [reflexivity|]. simpl.
      split; [done|]. split; [done|]. split; [done|]. split; [done|]. eauto.
    + do 4 eexists. split; [reflexivity|]. simpl.
      split; [done|]. split; [done|]. split; [done|]. split; [done|].
      split; [done|]. split; [done|]. by apply (aiRateLimiter_counts _ now).
  - apply aiRateLimiter_denies in Elimit as ->.
    do 4 eexists. split; [reflexivity|]. simpl. split; [done|].
    destruct (Security.trackCost now' (Routes.costTracker st)) as [[? ?] ?].
    split; [done|]. split; [done|]. split; [by destruct st|done].
Qed.

Lemma analyzeFlow_with_ai_witness :
  exists reply out st' n',
    Routes.analyzeFlow true "0" (Some "true")
      {| forwarded := None; remoteAddress := Some "198.51.100.23" |} 0 0
      (Rejects "unavailable")
      {| Routes.flows := {[ "0" := browseFlow ]};
         Routes.rateLimitStore := ∅; Routes.costTracker := ∅ |} 1%nat
    = (reply, out, st', n') /\
    Routes.flows st' = {[ "0" := browseFlow ]}.
Proof.
  destruct (analyzeFlow_with_ai true "0" browseFlow
              {| forwarded := None; remoteAddress := Some "198.51.100.23" |} 0 0
              (Rejects "unavailable")
              {| Routes.flows := {[ "0" := browseFlow ]};
                 Routes.rateLimitStore := ∅; Routes.costTracker := ∅ |} 1%nat)
    as (reply & out & st' & n' & Hrun & Hflows & _); [reflexivity|].
  by exists reply, out, st', n'.
Defined.

(** ** Identifiers and confidence of the findings *)

Lemma numbered_weaken lo n n' fs : (n <= n')%nat -> numbered lo n fs -> numbered lo n' fs.
Proof.
  intros Hn [Hnd Hall]. split; [done|]. eapply Forall_impl; [exact Hall|]. simpl. lia.
Qed.

Lemma numbered_app lo n n' fs gs :
  numbered lo n fs -> numbered n n' gs -> (lo <= n <= n')%nat -> numbered lo n' (fs ++ gs).
Proof.
  intros [Hnd Hall] [Hnd' Hall'] Hn. rewrite Forall_forall in Hall, Hall'. split.
  - rewrite map_app. apply NoDup_app. split; [done|]. split; [|done].
    intros u (f & -> & Hf)%list_elem_of_fmap (g & Hu & Hg)%list_elem_of_fmap.
    specialize (Hall f Hf). specialize (Hall' g Hg). simpl in *. lia.
  - apply Forall_app. split; apply Forall_forall; intros f Hf.
    + specialize (Hall f Hf). simpl in *. lia.
    + specialize (Hall' f Hf). simpl in *. lia.
Qed.

Lemma numbered_perm lo n fs gs : fs ≡ₚ gs -> numbered lo n fs -> numbered lo n gs.
Proof. intros Hp [Hnd Hall]. split; by rewrite <- Hp. Qed.

Lemma Forall_filtered {A} (Q P : A -> Prop) `{forall x, Decision (P x)} (l : list A) :
  Forall Q l -> Forall Q (filter P l).
Proof.
  rewrite !Forall_forall. intros Hall x [_ Hx]%list_elem_of_filter. by apply Hall.
Qed.

Lemma numbered_filter lo n (P : Finding -> Prop) `{forall f, Decision (P f)} fs :
  numbered lo n fs -> numbered lo n (filter P fs).
Proof.
  intros [Hnd Hall]. split.
  - eapply sublist_NoDup; [exact Hnd|]. apply fmap_sublist, sublist_filter.
  - by apply Forall_filtered.
Qed.

Lemma push_if_numbered cond mk fs lo n :
  (forall u, finding_id (mk u) = u /\ (0 <= confidence (mk u) <= 1)%Q) ->
  (lo <= n)%nat -> numbered lo n fs -> calibrated fs ->
  exists fs' n',
    push_if cond mk fs n = (Ok fs', n') /\ (lo <= n')%nat /\
    numbered lo n' fs' /\ calibrated fs'.
Proof.
  intros Hmk Hlo Hfs Hcal. rewrite push_if_run. do 2 eexists. split; [reflexivity|].
  destruct cond.
  - split; [lia|]. destruct (Hmk n) as [Hid Hconf]. split.
    + apply (numbered_app lo n); [done| |lia]. split; simpl.
      * apply NoDup_singleton.
      * constructor; [|constructor]. rewrite Hid. lia.
    + apply Forall_app. split; [done|]. by constructor.
  - rewrite app_nil_r. done.
Qed.

Ltac numbered_step :=
  match goal with
  | Hlo : (?lo <= ?k)%nat, Hn : numbered ?lo ?k ?l, Hc : calibrated ?l
    |- context [push_if ?c ?mk ?l ?k] =>
      let fs' := fresh "fs" in let k' := fresh "k" in
      let E := fresh "E" in let L := fresh "L" in
      let N := fresh "N" in let C := fresh "C" in
      destruct (push_if_numbered c mk l lo k) as (fs' & k' & E & L & N & C);
      [ intros u; split; [reflexivity|]; split; vm_compute; discriminate
      | exact Hlo | exact Hn | exact Hc
      | rewrite E; clear E Hlo Hn Hc; cbv beta iota ]
  end.

Lemma runRules_numbered flow n :
  exists fs n',
    runRules flow n = (Ok fs, n') /\ (n <= n')%nat /\ numbered n n' fs /\ calibrated fs.
Proof.
  unfold runRules, mbind, M_bind, mret, M_ret. cbv zeta.
  assert (numbered n n []) as Hn by (split; constructor).
  assert (calibrated []) as Hc by constructor.
  assert (n <= n)%nat as Hlo by lia.
  do 8 numbered_step.
  eauto 10.
Qed.

Lemma array_map_normalize_numbered l : forall n fs n',
  array_map normalizeFinding l n = (Ok fs, n') ->
  (n <= n')%nat /\ numbered n n' fs /\ calibrated fs.
Proof.
  induction l as [|c l IH]; intros n fs n' Hrun.
  - injection Hrun as <- <-. split; [lia|]. split; [split|]; constructor.
  - rewrite array_map_cons in Hrun.
    destruct c as [f|]; [|discriminate Hrun].
    change (normalizeFinding (Some f) n) with
      (Ok {| finding_id := n;
             severity := or_default (raw_severity f) MEDIUM;
             category := or_default (raw_category f) TRANSPARENCY;
             title := or_string (raw_title f) "AI-detected issue";
             description := or_string (raw_description f) "No description provided";
             evidence := or_default (raw_evidence f) [];
             recommendation :=
               or_string (raw_recommendation f) "Review and improve this aspect";
             patternId := None;
             confidence := Math_min (Math_max (or_number (raw_confidence f) 0.7) 0) 1;
             principleId := raw_principleId f |}, S n) in Hrun.
    cbv beta iota in Hrun.
    destruct (array_map normalizeFinding l (S n)) as [[gs|e] k] eqn:Hl; [|discriminate Hrun].
    injection Hrun as <- <-. destruct (IH _ _ _ Hl) as (Hk & Hgs & Hcal).
    split; [lia|]. split.
    + apply (numbered_app n (S n) k [_] gs); [|done|lia]. split; simpl.
      * apply NoDup_singleton.
      * constructor; [simpl; lia|constructor].
    + constructor; [|done]. apply clamp_range.
Qed.

Lemma array_map_normalize_mono l : forall n r n',
  array_map normalizeFinding l n = (r, n') -> (n <= n')%nat.
Proof.
  induction l as [|c l IH]; intros n r n' Hrun.
  - injection Hrun as _ <-. lia.
  - rewrite array_map_cons in Hrun. destruct c as [f|].
    + destruct (normalizeFinding_run f n) as (g & Hg & _). rewrite Hg in Hrun.
      destruct (array_map normalizeFinding l (S n)) as [[gs|e] k] eqn:Hl;
        injection Hrun as _ <-; apply IH in Hl; lia.
    + simpl in Hrun. injection Hrun as _ <-. lia.
Qed.

Lemma runAIAnalysis_numbered AI_ENABLED flow ai n :
  exists fs n',
    runAIAnalysis AI_ENABLED flow ai n = (Ok fs, n') /\
    (n <= n')%nat /\ numbered n n' fs /\ calibrated fs.
Proof.
  assert (forall k, numbered n k [] /\ calibrated []) as Hnil
    by (intros k; split; [split|]; constructor).
  unfold runAIAnalysis. destruct AI_ENABLED; simpl;
    [|exists [], n; split; [done|]; split; [lia|apply Hnil]].
  unfold try_catch, mbind, M_bind.
  destruct ai as [e|e|candidates]; simpl;
    [exists [], n; split; [done|]; split; [lia|apply Hnil]..|].
  destruct (array_map normalizeFinding (or_default candidates []) n)
    as [[fs|e] n'] eqn:Hmap.
  - exists fs, n'. split; [done|]. by eapply array_map_normalize_numbered.
  - exists [], n'. split; [done|]. split; [by eapply array_map_normalize_mono|apply Hnil].
Qed.

Lemma sortBySeverity_perm fs : sortBySeverity fs ≡ₚ fs.
Proof. by rewrite sortBySeverity_tiers, tiers_perm. Qed.

Lemma runHybridAnalysis_numbered AI_ENABLED flow useAI ai n :
  exists fs n',
    runHybridAnalysis AI_ENABLED flow useAI ai n = (Ok fs, n') /\
    (n <= n')%nat /\ numbered n n' fs /\ calibrated fs.
Proof.
  destruct (runRules_numbered flow n) as (rules & n1 & Hrules & Hn1 & Hnum & Hcal).
  destruct (runAIAnalysis_numbered AI_ENABLED flow ai n1)
    as (aiFs & n2 & Hai & Hn2 & Hnum' & Hcal').
  unfold runHybridAnalysis, mbind, M_bind. rewrite Hrules.
  destruct (negb useAI || negb AI_ENABLED).
  - exists (sortBySeverity rules), n1. split; [done|]. split; [done|]. split.
    + by apply (numbered_perm _ _ rules); [symmetry; apply sortBySeverity_perm|].
    + unfold calibrated. by rewrite sortBySeverity_perm.
  - rewrite Hai. do 2 eexists. split; [reflexivity|]. split; [lia|]. split.
    + eapply numbered_perm; [symmetry; apply sortBySeverity_perm|].
      apply (numbered_perm _ _ (filter (fun rf => category rf ∉
               (list_to_set (map category aiFs) : gset Category)) rules ++ aiFs));
        [apply Permutation_app_comm|].
      apply (numbered_app n n1 n2); [by apply numbered_filter|done|lia].
    + unfold calibrated. rewrite sortBySeverity_perm. apply Forall_app. split; [done|].
      by apply Forall_filtered.
Qed.

(** X23.  Whatever the flow and whatever the AI source answers, the findings of
    an analysis bear identifiers of their own - no two findings share one,
    none is the identifier of the analysis, and an identifier that the AI
    source proposes is not taken over - and the confidence of every finding
    lies between 0 and 1. *)
Lemma performFlowAnalysis_findings AI_ENABLED flow useAI ai n :
  exists body n',
    performFlowAnalysis AI_ENABLED flow useAI ai n = (Json body, n') /\
    NoDup (analysisId body :: map finding_id (findings body)) /\
    Forall (fun f => (n <= finding_id f < analysisId body)%nat) (findings body) /\
    n' = S (analysisId body) /\
    Forall (fun f => (0 <= confidence f <= 1)%Q) (findings body).
Proof.
  destruct (runHybridAnalysis_numbered AI_ENABLED flow useAI ai n)
    as (fs & n' & Hrun & Hn & [Hnd Hall] & Hcal).
  unfold performFlowAnalysis. rewrite Hrun. do 2 eexists. split; [reflexivity|].
  cbn [analysisId findings]. split; [|done]. constructor; [|done].
  intros (f & Hid & Hf)%list_elem_of_fmap. rewrite Forall_forall in Hall.
  specialize (Hall f Hf). simpl in Hall. lia.
Qed.

(** ** Flows made of a page or of a file *)

Section IntakeFacts.
Import Intake.











End IntakeFacts.




(** ** The case of letters in keyword matching *)



